(** * Employee-attrition pipeline: data loader, early stopping, threshold scan

    A shallow embedding of the three JavaScript sources of the repository:
    - [DataLoader] (data-loader.js): CSV parsing, feature engineering,
      categorical encoders, the seeded stratified split, the scaler and the
      minority-class augmenter;
    - [GRUClassifier] (gru.js): the bookkeeping of [fit] (history, best
      validation loss, early stopping) and the layers [build] stacks;
    - [App] (app.js): the decision-threshold scan [#autoThreshold]; in
      [Requests] and [Predictions] the configuration [#prepare] passes on,
      [#collectPredictions] and the text of [#downloadCSV].

    Conventions.  A JavaScript number that holds a fraction (a feature, a
    probability, a loss, a threshold) is a binary64 value: Rocq's primitive
    [float], whose operations are the IEEE 754 ones JavaScript uses.  A
    JavaScript number that holds a count or an array index is a [Z] (or a
    [nat] where it indexes a list): below 2^53 binary64 arithmetic on
    integers is exact.  A JavaScript object used as a string-keyed record is
    a finite map; properties inherited from [Object.prototype] are outside
    the model.  Strings are [string]s of 8-bit code units. *)

From Stdlib Require Import ZArith List String Ascii Floats Bool Lia Permutation.
From stdpp Require Import gmap strings list sorting.

(* A decimal literal denotes the nearest binary64 value, as in JavaScript. *)
Set Warnings "-inexact-float".

(** ** Outcomes of a call *)

(** A call returns, throws an [Error] with a message, or does not return
    within the resources the model was given (loop fuel, random draws). *)
Inductive result (A : Type) : Type :=
| Ok (a : A)
| Throw (msg : string)
| Stuck.
Arguments Ok {A} a.
Arguments Throw {A} msg.
Arguments Stuck {A}.

Global Instance result_bind : MBind result := fun A B k m =>
  match m with
  | Ok a => k a
  | Throw msg => Throw msg
  | Stuck => Stuck
  end.

Global Instance result_ret : MRet result := fun A a => Ok a.

(** ** JavaScript numbers *)

Module JS.

Definition NaN : float := PrimFloat.nan.
Definition Infinity : float := PrimFloat.infinity.

Definition isNaN (x : float) : bool := PrimFloat.is_nan x.
Definition isFinite (x : float) : bool := PrimFloat.is_finite x.

(** [Math.max] and [Math.min] on two arguments: NaN if either is NaN.
    (No call site compares a positive with a negative zero.) *)
Definition Math_max (a b : float) : float :=
  if isNaN a || isNaN b then NaN else if PrimFloat.ltb a b then b else a.

Definition Math_min (a b : float) : float :=
  if isNaN a || isNaN b then NaN else if PrimFloat.ltb b a then b else a.

(** The binary64 value of an integer (round to nearest even above 2^53). *)
Definition of_int (z : Z) : float :=
  SF2Prim (binary_normalize prec emax z 0 false).

(** The exact value of a finite binary64 number is [v * 2^e]. *)
Definition exact (x : float) : option (Z * Z) :=
  match Prim2SF x with
  | S754_zero _ => Some (0, 0)%Z
  | S754_finite s m e => Some (if s then Z.neg m else Z.pos m, e)
  | S754_infinity _ | S754_nan => None
  end.

(** [floor (num / 2^k)] for [k >= 0], and [num * 2^(-k)] for [k < 0]. *)
Definition shift_floor (num k : Z) : Z :=
  if (0 <=? k)%Z then (num / 2 ^ k)%Z else (num * 2 ^ (- k))%Z.

(** [Math.floor]: None when the argument is NaN or infinite (the result is
    then not an integer). *)
Definition Math_floor (x : float) : option Z :=
  match exact x with
  | Some (v, e) => Some (shift_floor v (- e))
  | None => None
  end.

(** [Math.round]: the integer nearest to [x], ties towards +infinity,
    that is [floor (x + 1/2)] computed exactly. *)
Definition Math_round (x : float) : option Z :=
  match exact x with
  | Some (v, e) =>
      Some (if (0 <=? e)%Z then (v * 2 ^ e)%Z
            else ((2 * v + 2 ^ (- e)) / 2 ^ (- e + 1))%Z)
  | None => None
  end.

(** [x | 0] on an integer: ToInt32 wraps modulo 2^32. *)
Definition toInt32 (z : Z) : Z :=
  ((z + 2 ^ 31) mod 2 ^ 32 - 2 ^ 31)%Z.

(** [x.toFixed(2)] as a count of hundredths: the integer [n] with [n / 100]
    nearest to the exact value of [x], the larger in magnitude on a tie. *)
Definition toFixed2 (x : float) : option Z :=
  match exact x with
  | Some (v, e) =>
      let a := Z.abs v in
      let n := if (0 <=? e)%Z then (100 * a * 2 ^ e)%Z
               else ((200 * a + 2 ^ (- e)) / 2 ^ (- e + 1))%Z in
      Some (if (v <? 0)%Z then (- n)%Z else n)
  | None => None
  end.

(** [+x.toFixed(2)]: the decimal string read back, i.e. the binary64 value
    nearest to [n / 100]; the correctly rounded quotient of two exactly
    representable integers is that value. *)
Definition round2 (x : float) : float :=
  match toFixed2 x with
  | Some n => PrimFloat.div (of_int n) 100%float
  | None => x
  end.

(** A JavaScript number known to be an integer, NaN or an infinity: what
    [Math.floor] and [Math.round] return and what index arithmetic keeps. *)
Inductive jsint : Type :=
| JNaN
| JInt (z : Z)
| JInf (negative : bool).

Definition of_jsint (k : jsint) : float :=
  match k with
  | JNaN => NaN
  | JInt z => of_int z
  | JInf negative => if negative then PrimFloat.neg_infinity else Infinity
  end.

Definition to_jsint (x : float) (finite : option Z) : jsint :=
  match finite with
  | Some z => JInt z
  | None => if isNaN x then JNaN else JInf (PrimFloat.ltb x 0)
  end.

Definition floor (x : float) : jsint := to_jsint x (Math_floor x).
Definition round (x : float) : jsint := to_jsint x (Math_round x).

(** [Math.max], [Math.min] and [-] on such numbers. *)
Definition jmax (a b : jsint) : jsint :=
  match a, b with
  | JNaN, _ | _, JNaN => JNaN
  | JInf false, _ | _, JInf false => JInf false
  | JInf true, x | x, JInf true => x
  | JInt x, JInt y => JInt (Z.max x y)
  end.

Definition jmin (a b : jsint) : jsint :=
  match a, b with
  | JNaN, _ | _, JNaN => JNaN
  | JInf true, _ | _, JInf true => JInf true
  | JInf false, x | x, JInf false => x
  | JInt x, JInt y => JInt (Z.min x y)
  end.

Definition jsub (a b : jsint) : jsint :=
  match a, b with
  | JNaN, _ | _, JNaN => JNaN
  | JInt x, JInt y => JInt (x - y)
  | JInf s, JInt _ => JInf s
  | JInt _, JInf s => JInf (negb s)
  | JInf s, JInf s' => if Bool.eqb s s' then JNaN else JInf s
  end.

(** The relative index [slice] computes from an argument: NaN counts as 0,
    a negative index counts from the end, and the result is clamped to the
    array. *)
Definition rel_index (len : nat) (k : jsint) : nat :=
  match k with
  | JNaN => 0
  | JInt z =>
      if (z <? 0)%Z then Z.to_nat (Z.max (Z.of_nat len + z) 0)
      else Z.to_nat (Z.min z (Z.of_nat len))
  | JInf negative => if negative then 0 else len
  end.

(** [arr.slice(0, k)] and [arr.slice(k)]. *)
Definition slice_to {A : Type} (arr : list A) (k : jsint) : list A :=
  take (rel_index (length arr) k) arr.

Definition slice_from {A : Type} (arr : list A) (k : jsint) : list A :=
  drop (rel_index (length arr) k) arr.

(** [x || d] on numbers: 0 and NaN are falsy. *)
Definition or_else (x d : float) : float :=
  if isNaN x || PrimFloat.eqb x 0 then d else x.

(** [x.toFixed(6)] as a count of millionths, rounded like [toFixed2], and
    [+x.toFixed(6)]. *)
Definition toFixed6 (x : float) : option Z :=
  match exact x with
  | Some (v, e) =>
      let a := Z.abs v in
      let n := if (0 <=? e)%Z then (1000000 * a * 2 ^ e)%Z
               else ((2000000 * a + 2 ^ (- e)) / 2 ^ (- e + 1))%Z in
      Some (if (v <? 0)%Z then (- n)%Z else n)
  | None => None
  end.

Definition round6 (x : float) : float :=
  match toFixed6 x with
  | Some n => PrimFloat.div (of_int n) 1000000%float
  | None => x
  end.

(** [Number.isInteger] on a number. *)
Definition Number_isInteger (x : float) : bool :=
  match Math_floor x with
  | Some z => PrimFloat.eqb (of_int z) x
  | None => false
  end.

End JS.

(** ** app.js: the threshold optimizer *)

Module App.
Import JS.

Record best_t : Type := { thr : float; f1 : float }.

Record counts : Type := { tp : Z; fp : Z; fn : Z }.

(** The body of the inner loop over the test rows. *)
Definition tally (pi : float) (gt : Z) (t : float) (c : counts) : counts :=
  let pred := if PrimFloat.leb t pi then 1%Z else 0%Z in
  if (pred =? 1)%Z && (gt =? 1)%Z then {| tp := tp c + 1; fp := fp c; fn := fn c |}
  else if (pred =? 1)%Z && (gt =? 0)%Z then {| tp := tp c; fp := fp c + 1; fn := fn c |}
  else if (pred =? 0)%Z && (gt =? 1)%Z then {| tp := tp c; fp := fp c; fn := fn c + 1 |}
  else c.

(** [for (let i=0;i<p.length;i++)]: [p] and [y] are column 0 of the
    predicted probabilities and of the test labels; reading [y[i][0]] past
    the end of [y] throws. *)
Fixpoint confusion (p : list float) (y : list Z) (t : float) (c : counts)
  : result counts :=
  match p with
  | [] => Ok c
  | pi :: p' =>
      match y with
      | [] => Throw "TypeError"
      | gt :: y' => confusion p' y' t (tally pi gt t c)
      end
  end.

Definition f1_of (c : counts) : float :=
  let prec := PrimFloat.div (of_int (tp c)) (Math_max 1 (of_int (tp c + fp c))) in
  let rec := PrimFloat.div (of_int (tp c)) (Math_max 1 (of_int (tp c + fn c))) in
  PrimFloat.div (PrimFloat.mul (PrimFloat.mul 2 prec) rec)
                (Math_max 1e-9 (PrimFloat.add prec rec)).

(** One pass of the outer loop body at candidate [t]. *)
Definition try_threshold (p : list float) (y : list Z) (t : float) (best : best_t)
  : result best_t :=
  c ← confusion p y t {| tp := 0; fp := 0; fn := 0 |};
  let f := f1_of c in
  Ok (if PrimFloat.ltb (f1 best) f then {| thr := round2 t; f1 := f |} else best).

(** [for (let t = 0.10; t <= 0.90; t += 0.01) body]. *)
Fixpoint scan {S : Type} (fuel : nat) (body : float -> S -> result S)
  (t : float) (s : S) : result S :=
  match fuel with
  | O => Stuck
  | Datatypes.S k =>
      if PrimFloat.leb t 0.90
      then s' ← body t s; scan k body (PrimFloat.add t 0.01) s'
      else Ok s
  end.

(** [#autoThreshold]: without a prepared dataset it only alerts; otherwise
    it scans and reports the best pair. *)
Definition autoThreshold (dataset : option (list float * list Z))
  : result (option best_t) :=
  match dataset with
  | None => Ok None
  | Some (p, y) =>
      b ← scan 128 (try_threshold p y) 0.10 {| thr := 0.5; f1 := 0 |};
      Ok (Some b)
  end.

(** The candidates the loop visits, in order. *)
Definition candidates : list float :=
  match scan 128 (fun t acc => Ok (t :: acc)) 0.10%float [] with
  | Ok l => rev l
  | _ => []
  end.

(** The same scan over an explicit list of candidates. *)
Fixpoint scan_list {S : Type} (body : float -> S -> result S)
  (ts : list float) (s : S) : result S :=
  match ts with
  | [] => Ok s
  | t :: ts' => s' ← body t s; scan_list body ts' s'
  end.

End App.

(** ** Strings as JavaScript uses them in the loader *)

Module Str.
Local Open Scope string_scope.
Local Open Scope char_scope.

(** [s.split(c)] for a one-character separator: always at least one piece. *)
Fixpoint split (sep : ascii) (s : string) : list string :=
  match s with
  | EmptyString => [EmptyString]
  | String a s' =>
      if Ascii.eqb a sep then EmptyString :: split sep s'
      else match split sep s' with
           | h :: t => String a h :: t
           | [] => [String a EmptyString]
           end
  end.

(** [s.replace(/\r\n/g, '\n')]. *)
Fixpoint replace_crlf (s : string) : string :=
  match s with
  | EmptyString => EmptyString
  | String a s' =>
      match s' with
      | String b s'' =>
          if Ascii.eqb a "013" && Ascii.eqb b "010"
          then String "010" (replace_crlf s'')
          else String a (replace_crlf s')
      | EmptyString => String a EmptyString
      end
  end.

(** [s.replace(/\r/g, '\n')]. *)
Fixpoint replace_cr (s : string) : string :=
  match s with
  | EmptyString => EmptyString
  | String a s' => String (if Ascii.eqb a "013" then "010" else a) (replace_cr s')
  end.

(** White space and line terminators among the 8-bit code units. *)
Definition is_white (a : ascii) : bool :=
  match a with
  | "009" | "010" | "011" | "012" | "013" | " " | "160" => true
  | _ => false
  end.

Fixpoint trim_start (s : string) : string :=
  match s with
  | EmptyString => EmptyString
  | String a s' => if is_white a then trim_start s' else s
  end.

(** [s.trim()]. *)
Definition trim (s : string) : string :=
  String.rev (trim_start (String.rev (trim_start s))).

(** [Boolean(s)]: a string is truthy unless empty. *)
Definition truthy (s : string) : bool :=
  match s with EmptyString => false | _ => true end.

(** [arr.join(sep)]. *)
Fixpoint join (sep : string) (l : list string) : string :=
  match l with
  | [] => EmptyString
  | x :: l' =>
      match l' with
      | [] => x
      | _ :: _ => (x ++ sep ++ join sep l')%string
      end
  end.

(** A string that holds no carriage return and no line feed. *)
Definition one_line (s : string) : Prop :=
  ("013" ∉ list_ascii_of_string s) /\ ("010" ∉ list_ascii_of_string s).

(** [s.replace(/,/g, ';')]. *)
Fixpoint replace_comma (s : string) : string :=
  match s with
  | EmptyString => EmptyString
  | String a s' => String (if Ascii.eqb a "," then ";" else a) (replace_comma s')
  end.

End Str.

(** ** data-loader.js *)

Module DataLoader.
Import JS.
Local Open Scope string_scope.

(** A parsed CSV row, and a meta row: objects keyed by column name. *)
Abbreviation row := (gmap string string).

(** [{ value: index }] for one categorical column; the association list
    keeps the properties in creation order. *)
Abbreviation encoder := (list (string * nat)).

Record Scaler : Type := { mean : list float; std : list float }.

Record AugConfig : Type :=
  { enable : bool; targetRatio : float; noiseStd : float }.

(** The mutable fields of a [DataLoader] instance.  [scaler] is [null] and
    [_augCfg] is undefined until the first preparation. *)
Record t : Type := mk {
  headers : list string;
  raw : list row;
  catCols : list string;
  encoders : gmap string encoder;
  featureOrder : list string;
  scaler : option Scaler;
  metaRows : list row;
  kept : list string;
  augCfg : option AugConfig
}.

(** The fields the constructor sets once and nothing changes. *)
Definition labelKey : string := "Attrition".

Definition baseNum : list string :=
  [ "Age"; "DailyRate"; "DistanceFromHome"; "Education";
    "EnvironmentSatisfaction"; "HourlyRate"; "JobInvolvement"; "JobLevel";
    "JobSatisfaction"; "MonthlyIncome"; "MonthlyRate"; "NumCompaniesWorked";
    "PercentSalaryHike"; "PerformanceRating"; "RelationshipSatisfaction";
    "StockOptionLevel"; "TotalWorkingYears"; "TrainingTimesLastYear";
    "WorkLifeBalance"; "YearsAtCompany"; "YearsInCurrentRole";
    "YearsSinceLastPromotion"; "YearsWithCurrManager" ].

Definition dropped : list string :=
  [ "EmployeeNumber"; "EmployeeCount"; "StandardHours"; "Over18" ].

Definition catKnown : list string :=
  [ "BusinessTravel"; "Department"; "EducationField"; "Gender"; "JobRole";
    "MaritalStatus"; "OverTime" ].

(** The names of [engineeredSpec] (the descriptions only feed the report). *)
Definition engineered : list string :=
  [ "TenureRatio"; "NoPromotionRatio"; "IncomePerLevel"; "OvertimeStress";
    "TravelFreq"; "IsSingle"; "LongDistance" ].

Definition metaFields : list string :=
  [ "EmployeeNumber"; "JobRole"; "OverTime"; "YearsAtCompany"; "MonthlyIncome" ].

(** The state [new DataLoader()] leaves. *)
Definition init : t :=
  {| headers := []; raw := []; catCols := []; encoders := ∅;
     featureOrder := []; scaler := None; metaRows := []; kept := [];
     augCfg := None |}.

(** [arr.includes(x)] on strings. *)
Definition includes (l : list string) (x : string) : bool :=
  bool_decide (x ∈ l).

(** *** Loading *)

(** The non-empty lines of the text, after line-ending normalisation. *)
Definition lines_of (text : string) : list string :=
  List.filter Str.truthy
    (Str.split "010"%char (Str.replace_cr (Str.replace_crlf text))).

Definition header_of (line : string) : list string :=
  map Str.trim (Str.split ","%char line).

(** [obj[headers[j]] = parts[j].trim()] for [j] below [headers.length]:
    a later column of the same name overwrites an earlier one. *)
Definition row_of (hs parts : list string) : row :=
  fold_left (fun (obj : row) hp => <[hp.1 := Str.trim hp.2]> obj) (zip hs parts) ∅.

(** The loop over the data lines: a line whose number of fields differs
    from the header's is skipped by [continue]. *)
Fixpoint parse_rows (hs : list string) (lines : list string) : list row :=
  match lines with
  | [] => []
  | line :: rest =>
      let parts := Str.split ","%char line in
      if negb (length parts =? length hs)%nat then parse_rows hs rest
      else row_of hs parts :: parse_rows hs rest
  end.

Definition parseCSV (text : string) : result (list string * list row) :=
  let lines := lines_of text in
  if (length lines <? 2)%nat then Throw "CSV has no data."
  else
    let hs := header_of (default "" (head lines)) in
    Ok (hs, parse_rows hs (tail lines)).

(** [for (const k of headers) if (allowed.has(k)) obj[k] = r[k]]. *)
Definition restrict (hs allowed : list string) (r : row) : row :=
  fold_left (fun (obj : row) k =>
               if includes allowed k
               then match r !! k with Some v => <[k := v]> obj | None => obj end
               else obj) hs ∅.

(** [for (const f of this.metaFields) m[f] = r[f] ?? '']. *)
Definition meta_of (r : row) : row :=
  fold_left (fun (m : row) f => <[f := default "" (r !! f)]> m) metaFields ∅.

(** [fromFile]: [file] is the text of the selected file, if one is
    selected (reading it is the host's business). *)
Definition fromFile (file : option string) (dl : t) : result t :=
  match file with
  | None => Throw "No file selected."
  | Some text =>
      '(hs, rows) ← parseCSV text;
      if negb (includes hs labelKey)
      then Throw ("Missing required column: " ++ labelKey)
      else
        let cats := List.filter (includes catKnown) hs in
        let allowed := (baseNum ++ cats ++ [labelKey] ++ metaFields ++ dropped)%list in
        let raw' := map (restrict hs allowed) rows in
        Ok {| headers := hs; raw := raw'; catCols := cats;
              encoders := encoders dl; featureOrder := featureOrder dl;
              scaler := scaler dl; metaRows := map meta_of raw';
              kept := kept dl; augCfg := augCfg dl |}
  end.

(** *** Objects as records, sets of strings *)

(** [obj[k] = v]: an existing property keeps its place. *)
Fixpoint obj_set {V : Type} (o : list (string * V)) (k : string) (v : V)
  : list (string * V) :=
  match o with
  | [] => [(k, v)]
  | (k', v') :: o' =>
      if String.eqb k' k then (k', v) :: o' else (k', v') :: obj_set o' k v
  end.

(** [obj[k]], undefined when absent. *)
Fixpoint obj_get {V : Type} (o : list (string * V)) (k : string) : option V :=
  match o with
  | [] => None
  | (k', v') :: o' => if String.eqb k' k then Some v' else obj_get o' k
  end.

Fixpoint digits_value (s : string) (acc : N) : option N :=
  match s with
  | EmptyString => Some acc
  | String a s' =>
      match Ascii.is_nat a with
      | Some d => digits_value s' (10 * acc + N.of_nat d)%N
      | None => None
      end
  end.

(** A property name that is an array index: a canonical decimal numeral
    below 2^32 - 1. *)
Definition array_index (s : string) : option N :=
  match s with
  | EmptyString => None
  | String a s' =>
      if Ascii.eqb a "0"%char && Str.truthy s' then None
      else match digits_value s 0 with
           | Some n => if (n <? 2 ^ 32 - 1)%N then Some n else None
           | None => None
           end
  end.

Definition index_le (a b : N * string) : Prop := (a.1 <= b.1)%N.

Global Instance index_le_dec : RelDecision index_le.
Proof. intros a b. unfold index_le. apply _. Defined.

(** [Object.keys(obj)]: the array indices in ascending order, then the
    other names in creation order. *)
Definition Object_keys {V : Type} (o : list (string * V)) : list string :=
  let ks := map fst o in
  let idx := omap (fun k => match array_index k with
                            | Some n => Some (n, k)
                            | None => None
                            end) ks in
  (map snd (merge_sort index_le idx)
   ++ List.filter (fun k => match array_index k with
                            | Some _ => false
                            | None => true
                            end) ks)%list.

(** [set.add(x)] on a [Set] of strings, kept in insertion order. *)
Definition set_add (s : list string) (x : string) : list string :=
  if includes s x then s else (s ++ [x])%list.

(** [arr.sort()] on strings: ascending by code units.  The values sorted
    here are distinct, so every sorting algorithm returns the same array. *)
Definition sort (l : list string) : list string := merge_sort String.le l.

(** [r[k] ?? '']. *)
Definition get (r : row) (k : string) : string := default "" (r !! k).

(** *** [#fitCategoricals] *)

Definition distinct_values (rows : list row) (c : string) : list string :=
  fold_left (fun s r => set_add s (get r c)) rows [].

(** [cats.forEach((v,i) => enc[v] = i)], from index [i] on. *)
Fixpoint assign_indices (cats : list string) (i : nat) (enc : encoder) : encoder :=
  match cats with
  | [] => enc
  | v :: cats' => assign_indices cats' (S i) (obj_set enc v i)
  end.

Definition fit_column (rows : list row) (c : string) : encoder :=
  assign_indices (sort (distinct_values rows c)) 0 [].

Definition fitCategoricals (rows : list row) (cols : list string)
  : gmap string encoder :=
  fold_left (fun (encs : gmap string encoder) c => <[c := fit_column rows c]> encs)
            cols ∅.

(** *** [#rowToFeatures] *)

(** [arr[i] = x] on an array of numbers; past the end the array grows and
    the holes read as undefined (NaN in arithmetic). *)
Definition js_set (arr : list float) (i : nat) (x : float) : list float :=
  if (i <? length arr)%nat then <[i := x]> arr
  else (arr ++ replicate (i - length arr) NaN ++ [x])%list.

Definition attritionMap : gmap string Z := {[ "Yes" := 1%Z; "No" := 0%Z ]}.

(** [this.attritionMap[String(r[this.labelKey] || 'No')] ?? 0]. *)
Definition label_of (r : row) : Z :=
  let v := match r !! labelKey with
           | Some s => if Str.truthy s then s else "No"
           | None => "No"
           end in
  default 0%Z (attritionMap !! v).

(** The one-hot block of column [c]; [Object.keys] of a missing encoder
    throws. *)
Definition one_hot (encs : gmap string encoder) (r : row) (c : string)
  : result (list float) :=
  match encs !! c with
  | None => Throw "TypeError"
  | Some enc =>
      let vec := replicate (length (Object_keys enc)) 0%float in
      Ok (match obj_get enc (get r c) with
          | Some idx => js_set vec idx 1%float
          | None => vec
          end)
  end.

(** The width of the one-hot block of column [c], and the number of
    entries of a block that equal 1. *)
Definition block_size (encs : gmap string encoder) (c : string) : nat :=
  match encs !! c with
  | Some enc => length (Object_keys enc)
  | None => 0
  end.


(** The number of features of a row: the base numerics, the engineered
    features and the one-hot blocks of the categorical columns. *)
Definition width (dl : t) : nat :=
  length baseNum + length engineered
  + sum_list (map (block_size (encoders dl)) (catCols dl)).

Section Host.

(** [Number(s)] on a string is the host's numeric-literal reader. *)
Variable Number : string -> float.

(** [Number(r[k] ?? d)]. *)
Definition num (r : row) (k : string) (d : float) : float :=
  match r !! k with
  | Some s => Number s
  | None => d
  end.

Definition base_features (r : row) : list float :=
  map (fun col => let v := num r col 0 in if isFinite v then v else 0%float) baseNum.

Definition engineered_features (r : row) : list float :=
  let YA := Math_max 1 (num r "YearsAtCompany" 0) in
  let TW := Math_max 1 (num r "TotalWorkingYears" 0) in
  let YP := num r "YearsSinceLastPromotion" 0 in
  let JL := Math_max 1 (num r "JobLevel" 1) in
  let MI := num r "MonthlyIncome" 0 in
  let JS := num r "JobSatisfaction" 0 in
  let DF := num r "DistanceFromHome" 0 in
  let OT := if String.eqb (get r "OverTime") "Yes" then 1%float else 0%float in
  let BT := get r "BusinessTravel" in
  let MS := get r "MaritalStatus" in
  let TenureRatio := PrimFloat.div (num r "YearsAtCompany" 0) TW in
  let NoPromotionRatio := PrimFloat.div YP YA in
  let IncomePerLevel := PrimFloat.div MI JL in
  let OvertimeStress := PrimFloat.mul OT (PrimFloat.sub 4 JS) in
  let TravelFreq := if String.eqb BT "Travel_Frequently" then 1%float else 0%float in
  let IsSingle := if String.eqb MS "Single" then 1%float else 0%float in
  let LongDistance := if PrimFloat.ltb 20 DF then 1%float else 0%float in
  [ TenureRatio; NoPromotionRatio; IncomePerLevel; OvertimeStress;
    TravelFreq; IsSingle; LongDistance ].

Definition rowToFeatures (dl : t) (r : row) : result (list float * Z) :=
  blocks ← mapM (one_hot (encoders dl) r) (catCols dl);
  Ok ((base_features r ++ engineered_features r ++ concat blocks)%list, label_of r).

End Host.

(** *** The stratified split of [prepareTensors] *)

(** [(labels[i]===1 ? posIdx : negIdx).push(i)] from index [i] on. *)
Fixpoint bucket (labels : list Z) (i : nat) : list nat * list nat :=
  match labels with
  | [] => ([], [])
  | y :: rest =>
      let '(pos, neg) := bucket rest (S i) in
      if (y =? 1)%Z then (i :: pos, neg) else (pos, i :: neg)
  end.

(** [seed = (seed*1664525 + 1013904223) % 2**32]; with [seed] below 2^32
    the product stays below 2^53, so the binary64 result is this integer. *)
Definition lcg (seed : Z) : Z := ((seed * 1664525 + 1013904223) mod 2 ^ 32)%Z.

(** [Math.floor(rand() * (i+1))] with [rand() = seed / 2**32]: the division
    by a power of two is exact, and so is the product for [i + 1 < 2^21]. *)
Definition pick (seed : Z) (i : nat) : nat :=
  Z.to_nat (seed * Z.of_nat (i + 1) / 2 ^ 32).

(** The same index computed in binary64, as the code writes it. *)
Definition pick_binary64 (seed : Z) (i : nat) : option Z :=
  Math_floor (PrimFloat.mul (PrimFloat.div (of_int seed) 4294967296)
                            (of_int (Z.of_nat (i + 1)))).

(** The seeds [rand()] goes through in its first [n] calls. *)
Fixpoint seeds (n : nat) (seed : Z) : list Z :=
  match n with
  | O => []
  | S n' => lcg seed :: seeds n' (lcg seed)
  end.

(** [[arr[i],arr[j]] = [arr[j],arr[i]]]; both indices are inside the array
    at every call (see [pick_le]). *)
Definition swap (arr : list nat) (i j : nat) : list nat :=
  match arr !! i, arr !! j with
  | Some ai, Some aj => <[j := ai]> (<[i := aj]> arr)
  | _, _ => arr
  end.

(** [for (let i = ...; i > 0; i--)], entered at index [i]. *)
Fixpoint shuffle_from (i : nat) (seed : Z) (arr : list nat) : list nat :=
  match i with
  | O => arr
  | S i' =>
      let seed' := lcg seed in
      shuffle_from i' seed' (swap arr i (pick seed' i))
  end.

(** The closure [shuffle]: [seed] is a local, set to 1337 at every call. *)
Definition shuffle (arr : list nat) : list nat :=
  shuffle_from (length arr - 1) 1337 arr.

Record Split : Type := {
  nTest : jsint;
  testPos : jsint;
  testNeg : jsint;
  posIdx : list nat;
  negIdx : list nat;
  testIdx : list nat;
  trainIdx : list nat
}.

Definition clampSplit (testSplit : float) : float :=
  Math_min (Math_max testSplit 0.05) 0.9.

Definition stratifiedSplit (labels : list Z) (testSplit : float) : Split :=
  let n := Z.of_nat (length labels) in
  let '(pos0, neg0) := bucket labels 0 in
  let pos := shuffle pos0 in
  let neg := shuffle neg0 in
  let nT := jmax (JInt 1) (floor (PrimFloat.mul (of_int n) (clampSplit testSplit))) in
  let tP0 := round (PrimFloat.mul (of_jsint nT)
                      (PrimFloat.div (of_int (Z.of_nat (length pos)))
                                     (of_int (Z.max 1 n)))) in
  let tP := jmax (JInt 0) (jmin tP0 (JInt (Z.of_nat (length pos)))) in
  let tN := jmin (jsub nT tP) (JInt (Z.of_nat (length neg))) in
  {| nTest := nT; testPos := tP; testNeg := tN; posIdx := pos; negIdx := neg;
     testIdx := (slice_to pos tP ++ slice_to neg tN)%list;
     trainIdx := (slice_from pos tP ++ slice_from neg tN)%list |}.

(** *** [#fitScaler] and [#applyScaler] *)

(** The inner loop over the rows for column [j]: the sums [s] and [s2]. *)
Definition column_sums (X : list (list float)) (j : nat) : float * float :=
  fold_left (fun acc row =>
               let v := nth j row NaN in
               (PrimFloat.add acc.1 v, PrimFloat.add acc.2 (PrimFloat.mul v v)))
            X (0%float, 0%float).

Definition column_stats (X : list (list float)) (n : float) (j : nat) : float * float :=
  let '(s, s2) := column_sums X j in
  let m := PrimFloat.div s n in
  (m, PrimFloat.sqrt (Math_max 1e-9 (PrimFloat.sub (PrimFloat.div s2 n) (PrimFloat.mul m m)))).

Definition fitScaler (X : list (list float)) : Scaler :=
  let d := length (default [] (head X)) in
  let n := of_int (Z.of_nat (if (length X =? 0)%nat then 1 else length X)) in
  let stats := map (column_stats X n) (seq 0 d) in
  {| mean := map fst stats; std := map snd stats |}.

Definition applyScaler (sc : Scaler) (X : list (list float)) : list (list float) :=
  map (imap (fun j v => PrimFloat.div (PrimFloat.sub v (nth j (mean sc) NaN))
                                      (nth j (std sc) NaN))) X.

(** *** [#augmentPositivesOnScaled] *)

(** [while (u === 0) u = Math.random()]: the draws still to come are given
    as a list; running out of them leaves the call without a result. *)
Fixpoint next_nonzero (draws : list float) : result (float * list float) :=
  match draws with
  | [] => Stuck
  | u :: rest => if PrimFloat.eqb u 0 then next_nonzero rest else Ok (u, rest)
  end.

Section Noise.

(** [Math.log] and [Math.cos] are the host's approximations. *)
Variables Math_log Math_cos : float -> float.

Definition Math_PI : float := 3.141592653589793%float.

Definition gauss (draws : list float) : result (float * list float) :=
  '(u, d1) ← next_nonzero draws;
  '(v, d2) ← next_nonzero d1;
  Ok (PrimFloat.mul (PrimFloat.sqrt (PrimFloat.mul (-2) (Math_log u)))
                    (Math_cos (PrimFloat.mul (PrimFloat.mul 2 Math_PI) v)), d2).

(** [for (let d=0; d<numDim; d++) clone[d] = base[d] + gauss()*noiseStd],
    with [todo] passes left and [d] the next dimension. *)
Fixpoint perturb (todo d : nat) (base clone : list float) (noise : float)
  (draws : list float) : result (list float * list float) :=
  match todo with
  | O => Ok (clone, draws)
  | S todo' =>
      '(g, draws') ← gauss draws;
      perturb todo' (S d) base
              (js_set clone d (PrimFloat.add (nth d base NaN) (PrimFloat.mul g noise)))
              noise draws'
  end.

(** [for (let k=0; k<need; k++)], with [todo] passes left. *)
Fixpoint synthesize (todo k : nat) (Xtr : list (list float)) (pos : list nat)
  (numDim : nat) (noise : float) (outX : list (list float)) (outY : list (list Z))
  (draws : list float) : result (list (list float) * list (list Z) * list float) :=
  match todo with
  | O => Ok (outX, outY, draws)
  | S todo' =>
      match pos !! (k mod length pos)%nat with
      | None => Throw "TypeError"
      | Some j =>
          match Xtr !! j with
          | None => Throw "TypeError"
          | Some base =>
              '(clone, draws') ← perturb numDim 0 base base noise draws;
              synthesize todo' (S k) Xtr pos numDim noise
                         (outX ++ [clone])%list (outY ++ [[1%Z]])%list draws'
          end
      end
  end.

(** The indices [i] with [ytr[i][0] === 1], and the others. *)
Fixpoint bucket_rows (ytr : list (list Z)) (i : nat) : list nat * list nat :=
  match ytr with
  | [] => ([], [])
  | y :: rest =>
      let '(pos, neg) := bucket_rows rest (S i) in
      match y with
      | 1%Z :: _ => (i :: pos, neg)
      | _ => (pos, i :: neg)
      end
  end.

Definition wantPos (targetRatio : float) (N : nat) : jsint :=
  floor (PrimFloat.div (PrimFloat.mul targetRatio (of_int (Z.of_nat N)))
                       (PrimFloat.sub 1 targetRatio)).

Definition augmentPositivesOnScaled (Xtr : list (list float)) (ytr : list (list Z))
  (numDim : nat) (targetRatio noise : float) (draws : list float)
  : result (list (list float) * list (list Z) * list float) :=
  let '(pos, neg) := bucket_rows ytr 0 in
  let P := length pos in
  let N := length neg in
  if (P =? 0)%nat then Ok (Xtr, ytr, draws)
  else
    match jmax (JInt 0) (jsub (wantPos targetRatio N) (JInt (Z.of_nat P))) with
    | JInt need =>
        if (need <=? 0)%Z then Ok (Xtr, ytr, draws)
        else synthesize (Z.to_nat need) 0 Xtr pos numDim noise Xtr ytr draws
    | JNaN => Ok (Xtr, ytr, draws)
    | JInf _ => Stuck
    end.

(** *** [prepareTensors] *)

Variable Number : string -> float.

Record Config : Type := { testSplit : option float; augment : option AugConfig }.

(** The same request with the augmentation left out. *)
Definition unaugmented (cfg : Config) : Config :=
  {| testSplit := testSplit cfg; augment := None |}.

(** What [prepareTensors] returns, with the arrays the tensors are built
    from.  [splitIdx] is not returned by the code: it records the local
    index arrays of the call. *)
Record Prepared : Type := {
  xTrain : list (list float);
  yTrain : list (list Z);
  xTest : list (list float);
  yTest : list (list Z);
  testMeta : list row;
  outAttritionMap : gmap string Z;
  outFeatureOrder : list string;
  splitIdx : Split
}.

(** [`${c}__${v}`] for the values of column [c] in [Object.keys] order. *)
Definition block_names (encs : gmap string encoder) (c : string)
  : result (list string) :=
  match encs !! c with
  | None => Throw "TypeError"
  | Some enc => Ok (map (fun v => c ++ "__" ++ v) (Object_keys enc))
  end.

Definition numDim : nat := length baseNum + length engineered.

Definition clampRatio (x : float) : float :=
  Math_min (Math_max (or_else x 0.5) 0.2) 0.8.

Definition clampNoise (x : float) : float :=
  Math_min (Math_max (or_else x 0.05) 0.0) 0.2.

(** [augment || {enable:false}]: the missing fields read as undefined. *)
Definition defaultAug : AugConfig :=
  {| enable := false; targetRatio := NaN; noiseStd := NaN |}.

(** The feature order: base numerics, engineered names, one-hot names. *)
Definition featureOrder_of (encs : gmap string encoder) (cols : list string)
  : result (list string) :=
  names ← mapM (block_names encs) cols;
  Ok (baseNum ++ engineered ++ concat names)%list.

(** [idx.map(i => feats[i])] and [idx.map(i => [labels[i]])]. *)
Definition rows_at (feats : list (list float)) (idx : list nat) : list (list float) :=
  map (fun i => nth i feats []) idx.

Definition labels_at (labels : list Z) (idx : list nat) : list (list Z) :=
  map (fun i => [nth i labels 0%Z]) idx.

(** The block guarded by [if (this._augCfg.enable)]. *)
Definition augment_step (aug : AugConfig) (XtrS : list (list float))
  (ytr : list (list Z)) (draws : list float)
  : result (list (list float) * list (list Z) * list float) :=
  if enable aug
  then augmentPositivesOnScaled XtrS ytr numDim
         (clampRatio (targetRatio aug)) (clampNoise (noiseStd aug)) draws
  else Ok (XtrS, ytr, draws).

(** The loader once the encoders and the feature order of this call are
    stored, and once the call is over. *)
Definition fitted (dl : t) (aug : AugConfig) (order : list string) : t :=
  {| headers := headers dl; raw := raw dl; catCols := catCols dl;
     encoders := fitCategoricals (raw dl) (catCols dl); featureOrder := order;
     scaler := scaler dl; metaRows := metaRows dl; kept := kept dl;
     augCfg := Some aug |}.

Definition prepared (dl : t) (aug : AugConfig) (order : list string) (sc : Scaler) : t :=
  {| headers := headers dl; raw := raw dl; catCols := catCols dl;
     encoders := fitCategoricals (raw dl) (catCols dl); featureOrder := order;
     scaler := Some sc; metaRows := metaRows dl;
     kept := (baseNum ++ engineered ++ catCols dl)%list;
     augCfg := Some aug |}.

Definition prepareTensors (cfg : Config) (dl : t) (draws : list float)
  : result (Prepared * t * list float) :=
  if (length (raw dl) =? 0)%nat then Throw "Dataset not loaded."
  else
    let aug := default defaultAug (augment cfg) in
    order ← featureOrder_of (fitCategoricals (raw dl) (catCols dl)) (catCols dl);
    fl ← mapM (rowToFeatures Number (fitted dl aug order)) (raw dl);
    let feats := map fst fl in
    let labels := map snd fl in
    let sp := stratifiedSplit labels (default 0.2%float (testSplit cfg)) in
    let Xtr := rows_at feats (trainIdx sp) in
    let ytr := labels_at labels (trainIdx sp) in
    let Xte := rows_at feats (testIdx sp) in
    let yte := labels_at labels (testIdx sp) in
    let sc := fitScaler Xtr in
    let XtrS := applyScaler sc Xtr in
    let XteS := applyScaler sc Xte in
    '(X, Y, draws') ← augment_step aug XtrS ytr draws;
    Ok ({| xTrain := X; yTrain := Y; xTest := XteS; yTest := yte;
           testMeta := map (fun i => nth i (metaRows dl) ∅) (testIdx sp);
           outAttritionMap := attritionMap; outFeatureOrder := order;
           splitIdx := sp |},
        prepared dl aug order sc, draws').

End Noise.

(** *** [eda]: the class balance *)

(** Of the report of [eda] the class balance is modelled; the correlations
    and the attrition rates by category come after it and cannot throw. *)
Record Balance : Type := { positive : Z; negative : Z; rate : float }.

(** [String(r[this.labelKey]) === 'Yes']. *)
Definition says_yes (r : row) : bool :=
  match r !! labelKey with
  | Some s => String.eqb s "Yes"
  | None => false
  end.

(** [for (const r of this.raw) (...) ? pos++ : neg++]. *)
Definition count_classes (rows : list row) : Z * Z :=
  fold_left (fun (acc : Z * Z) r =>
               if says_yes r then (acc.1 + 1, acc.2)%Z else (acc.1, acc.2 + 1)%Z)
            rows (0, 0)%Z.

Definition eda_balance (dl : t) : result Balance :=
  if (length (raw dl) =? 0)%nat then Throw "Load data first."
  else
    let '(pos, neg) := count_classes (raw dl) in
    Ok {| positive := pos; negative := neg;
          rate := PrimFloat.div (of_int pos)
                    (of_int (Z.max 1 (Z.of_nat (length (raw dl))))) |}.

(** *** [featureReport] *)

Definition engineeredSpec : list (string * string) :=
  [ ("TenureRatio", "YearsAtCompany / max(1, TotalWorkingYears)");
    ("NoPromotionRatio", "YearsSinceLastPromotion / max(1, YearsAtCompany)");
    ("IncomePerLevel", "MonthlyIncome / max(1, JobLevel)");
    ("OvertimeStress", "(OverTime=='Yes') * (4 - JobSatisfaction)");
    ("TravelFreq", "BusinessTravel=='Travel_Frequently' ? 1 : 0");
    ("IsSingle", "MaritalStatus=='Single' ? 1 : 0");
    ("LongDistance", "DistanceFromHome > 20 ? 1 : 0") ].

(** [this.created = this.engineeredSpec.map(x=>x.name)]. *)
Definition created : list string := map fst engineeredSpec.

(** [Object.fromEntries(entries)]. *)
Definition Object_fromEntries {V : Type} (entries : list (string * V))
  : list (string * V) :=
  fold_left (fun o kv => obj_set o kv.1 kv.2) entries [].

Record FeatureReport : Type := {
  r_kept : list string;
  r_dropped : list string;
  r_created : list string;
  createdDescriptions : list (string * string)
}.

Definition featureReport (dl : t) : FeatureReport :=
  {| r_kept := kept dl; r_dropped := dropped; r_created := created;
     createdDescriptions := Object_fromEntries engineeredSpec |}.

End DataLoader.

(** ** gru.js: the training loop of [fit] *)

Module GRUClassifier.
Import JS.

(** What the trainer hands to [onEpochEnd]: [loss] may be missing, and
    [val_loss] is kept only when it is a number. *)
Record Logs : Type := { loss : option float; val_loss : option float }.

Record History : Type := { h_loss : list float; h_val_loss : list float }.

(** The variables the callback closes over, and the model's stop flag. *)
Record FitState : Type := {
  hist : History;
  best : float;
  bad : Z;
  stopTraining : bool
}.

Definition fit_init : FitState :=
  {| hist := {| h_loss := []; h_val_loss := [] |};
     best := Infinity; bad := 0; stopTraining := false |}.

(** [Math.max(2, patience|0)]. *)
Definition patience_of (patience : Z) : Z := Z.max 2 (toInt32 patience).

(** [Math.max(1, epochs|0)]. *)
Definition epochs_of (epochs : Z) : nat := Z.to_nat (Z.max 1 (toInt32 epochs)).

Definition lossOf (logs : Logs) : float := default NaN (loss logs).
Definition valLossOf (logs : Logs) : float := default NaN (val_loss logs).

(** The callback [onEpochEnd]. *)
Definition onEpochEnd (patience : Z) (logs : Logs) (s : FitState) : FitState :=
  let L := lossOf logs in
  let VL := valLossOf logs in
  let h := {| h_loss := h_loss (hist s) ++ [L];
              h_val_loss := if isNaN VL then h_val_loss (hist s)
                            else h_val_loss (hist s) ++ [VL] |} in
  if isFinite VL then
    let improved := PrimFloat.ltb (PrimFloat.add VL 1e-6) (best s) in
    let best' := if improved then VL else best s in
    let bad' := if improved then 0%Z else (bad s + 1)%Z in
    {| hist := h; best := best'; bad := bad';
       stopTraining := if (patience_of patience <=? bad')%Z then true
                       else stopTraining s |}
  else {| hist := h; best := best s; bad := bad s; stopTraining := stopTraining s |}.

Section Trainer.

(** The logs the trainer reports at the end of epoch 0, 1, ... (they depend
    on the data and the network, not on the callback). *)
Variable epoch_logs : nat -> Logs.

(** The trainer's loop: after each epoch it runs the callback and leaves
    when the stop flag is set. *)
Fixpoint train (todo epoch : nat) (patience : Z) (s : FitState) : FitState :=
  match todo with
  | O => s
  | S todo' =>
      let s' := onEpochEnd patience (epoch_logs epoch) s in
      if stopTraining s' then s' else train todo' (S epoch) patience s'
  end.

(** [fit]: [built] says whether [this.model] is set; a missing [epochs] or
    [patience] takes its default. *)
Definition fit (built : bool) (epochs patience : option Z) : result History :=
  if negb built then Throw "Build the model first."
  else Ok (hist (train (epochs_of (default 45%Z epochs)) 0
                       (default 6%Z patience) fit_init)).

(** The validation loss of epoch [e], NaN when there is none. *)
Definition VL (e : nat) : float := valLossOf (epoch_logs e).

(** The validation loss recorded as best before epoch [e], and whether
    epoch [e] improves on it by more than the tolerance. *)
Fixpoint best_before (e : nat) : float :=
  match e with
  | O => Infinity
  | S k =>
      if isFinite (VL k) && PrimFloat.ltb (PrimFloat.add (VL k) 1e-6) (best_before k)
      then VL k else best_before k
  end.

Definition improves (e : nat) : bool :=
  isFinite (VL e) && PrimFloat.ltb (PrimFloat.add (VL e) 1e-6) (best_before e).

(** Among the first [n] epochs, those with a finite validation loss that
    come after the last improving epoch. *)
Definition stale_epochs (n : nat) : list nat :=
  List.filter (fun e => isFinite (VL e)
                        && forallb (fun k => negb (improves k)) (seq e (n - e)))
              (seq 0 n).

(** What the variables of the callback hold after [e] epochs: the two
    histories, the best validation loss and the count of stale epochs. *)
Definition tracks (e : nat) (s : FitState) : Prop :=
  h_loss (hist s) = map (fun k => lossOf (epoch_logs k)) (seq 0 e)
  /\ h_val_loss (hist s) = List.filter (fun v => negb (isNaN v)) (map VL (seq 0 e))
  /\ best s = best_before e
  /\ bad s = Z.of_nat (length (stale_epochs e)).

End Trainer.

(** *** [build] *)

(** An argument the caller may leave out. *)
Inductive arg : Type :=
| Undefined
| Num (x : float).

(** The layers handed to [tf.sequential()], with the options the code sets. *)
Inductive Layer : Type :=
| gru (units : Z) (inputShape : option (list float)) (returnSequences : bool)
      (dropout : float) (kernelInitializer : string)
| dense (units : Z) (activation : string) (kernelInitializer : option string)
| dropout (rate : float).

(** The compiled model and the [inputShape] field of the classifier. *)
Record Model : Type := {
  layers : list Layer;
  learningRate : float;
  loss_name : string;
  metrics : list string;
  model_inputShape : list float
}.

Section Build.

(** The text of a number in a template literal is the host's. *)
Variable Number_toString : float -> string.

Definition template (a : arg) : string :=
  match a with
  | Undefined => "undefined"%string
  | Num x => Number_toString x
  end.

(** [!Number.isInteger(a) || a < 1]. *)
Definition invalid (a : arg) : bool :=
  match a with
  | Undefined => true
  | Num x => negb (Number_isInteger x) || PrimFloat.ltb x 1
  end.

Definition number_of (a : arg) : float :=
  match a with
  | Undefined => NaN
  | Num x => x
  end.

(** [build({ timesteps = 1, features, units = 128, layers = 1, lr = 1e-3 })]:
    [units] and [layers] are integers when given. *)
Definition build (timesteps features : arg) (units layers : option Z) (lr : arg)
  : result Model :=
  let timesteps := match timesteps with Undefined => Num 1 | _ => timesteps end in
  if invalid features
  then Throw ("Invalid features: " ++ template features)%string
  else if invalid timesteps
  then Throw ("Invalid timesteps: " ++ template timesteps)%string
  else
    let shape := [number_of timesteps; number_of features] in
    let U := Z.max 8 (toInt32 (default 128%Z units)) in
    let L := Z.max 1 (toInt32 (default 1%Z layers)) in
    let first := gru U (Some shape) (1 <? L)%Z 0.2 "heNormal" in
    let more := map (fun i => gru U None (negb (i =? L - 1)%Z) 0.2 "heNormal")
                    (seqZ 1 (L - 1)) in
    Ok {| layers := (first :: more
                     ++ [ dense 64 "relu" (Some "heNormal"%string);
                          dropout 0.2;
                          dense 1 "sigmoid" None ])%list;
          learningRate := match lr with Undefined => 1e-3 | Num x => x end;
          loss_name := "binaryCrossentropy";
          metrics := ["binaryAccuracy"%string];
          model_inputShape := shape |}.

End Build.

End GRUClassifier.

(** ** app.js: what [#prepare] asks of the loader *)

Module Requests.
Import JS DataLoader.

Section Fields.

(** [Number(s)] on the text of an input field is the host's. *)
Variable Number : string -> float.

(** The argument of [this.dl.prepareTensors] in [#prepare], from the texts
    of the test-split, ratio and noise fields and the augmentation check
    box. *)
Definition prepare_config (testSplitValue : string) (augEnable : bool)
  (augRatio augNoise : string) : Config :=
  {| testSplit := Some (or_else (PrimFloat.div (Number testSplitValue) 100) 0.2);
     augment := Some {| enable := augEnable;
                        targetRatio := or_else (Number augRatio) 0.5;
                        noiseStd := or_else (Number augNoise) 0.05 |} |}.

End Fields.

End Requests.

(** ** app.js: the exported predictions *)

Module Predictions.
Import JS DataLoader.
Local Open Scope string_scope.

(** One row of [lastPreds]. *)
Record Prediction : Type := {
  EmployeeNumber : string;
  JobRole : string;
  OverTime : string;
  YearsAtCompany : string;
  MonthlyIncome : string;
  Probability : float;
  Predicted : string;
  True_ : string
}.

(** The body of the loop of [#collectPredictions] at one test row. *)
Definition predict_row (prob : float) (gt : Z) (m : row) (threshold : float)
  : Prediction :=
  {| EmployeeNumber := get m "EmployeeNumber";
     JobRole := get m "JobRole";
     OverTime := get m "OverTime";
     YearsAtCompany := get m "YearsAtCompany";
     MonthlyIncome := get m "MonthlyIncome";
     Probability := round6 prob;
     Predicted := if PrimFloat.leb threshold prob then "Yes" else "No";
     True_ := if (gt =? 1)%Z then "Yes" else "No" |}.

(** [#collectPredictions]: [p] and [y] are column 0 of the predicted
    probabilities and of the test labels, [meta] is [testMeta || []];
    reading [yArr[i][0]] past the end of [yArr] throws, a missing meta row
    reads as [{}]. *)
Fixpoint collectPredictions (p : list float) (y : list Z) (meta : list row)
  (threshold : float) : result (list Prediction) :=
  match p with
  | [] => Ok []
  | prob :: p' =>
      match y with
      | [] => Throw "TypeError"
      | gt :: y' =>
          out ← collectPredictions p' y' (tail meta) threshold;
          Ok (predict_row prob gt (default ∅ (head meta)) threshold :: out)
      end
  end.

Definition cols : list string :=
  [ "EmployeeNumber"; "JobRole"; "OverTime"; "YearsAtCompany"; "MonthlyIncome";
    "Probability"; "Predicted"; "True" ].

Section Download.

(** [String(x)] on a number is the host's. *)
Variable Number_toString : float -> string.

(** [cols.map(c => String(r[c] ?? ''))]. *)
Definition cells (r : Prediction) : list string :=
  [ EmployeeNumber r; JobRole r; OverTime r; YearsAtCompany r; MonthlyIncome r;
    Number_toString (Probability r); Predicted r; True_ r ].

Definition line_of (r : Prediction) : string :=
  Str.join "," (map Str.replace_comma (cells r)).

(** [#downloadCSV]: the text of the file offered for download; without
    predictions there is only an alert. *)
Definition downloadCSV (lastPreds : option (list Prediction)) : option string :=
  match lastPreds with
  | None | Some [] => None
  | Some preds => Some (Str.join (String "010"%char "")
                          (Str.join "," cols :: map line_of preds))
  end.

End Download.

End Predictions.

(** ** Sample inputs *)

Module Samples.
Import JS DataLoader.
Local Open Scope string_scope.

Definition nl : string := String "010"%char "".

(** [Number] on the unsigned decimal integers the samples use; any other
    string reads as NaN. *)
Definition decimal (s : string) : float :=
  match digits_value s 0 with
  | Some n => of_int (Z.of_N n)
  | None => NaN
  end.

(** The [Math.log] and [Math.cos] of the sample host: crude approximations
    (no property below depends on their values). *)
Definition host_log (u : float) : float := PrimFloat.sub u 1.
Definition host_cos (v : float) : float := 1%float.

(** Ten employees, two of whom left; one row has no OverTime value. *)
Definition csv : string :=
  "Age,Attrition,OverTime,DistanceFromHome" ++ nl ++
  "41,Yes,No,3" ++ nl ++ "30,No,Yes,25" ++ nl ++ "35,No,No,7" ++ nl ++
  "22,No,,9" ++ nl ++ "50,Yes,Yes,21" ++ nl ++ "28,No,No,1" ++ nl ++
  "33,No,No,2" ++ nl ++ "44,No,Yes,20" ++ nl ++ "39,No,No,5" ++ nl ++
  "27,No,No,4".

Definition loaded : t :=
  match fromFile (Some csv) init with
  | Ok dl => dl
  | _ => init
  end.

Definition labels : list Z := map label_of (raw loaded).

Definition plain (fraction : float) : Config :=
  {| testSplit := Some fraction; augment := None |}.

Definition augmented (fraction : float) : Config :=
  {| testSplit := Some fraction;
     augment := Some {| enable := true; targetRatio := 0.3; noiseStd := 0.05 |} |}.

(** Enough non-zero values of [Math.random()] for the samples. *)
Definition draws : list float := repeat 0.5%float 64.

(** Trainer logs with the given validation losses, epoch by epoch. *)
Definition logs_of (val_losses : list float) (e : nat) : GRUClassifier.Logs :=
  {| GRUClassifier.loss := Some (of_int (Z.of_nat e));
     GRUClassifier.val_loss := val_losses !! e |}.

(** A run that diverges after its first epoch, and a run that stalls. *)
Definition diverging : list float := [1; NaN; NaN; NaN; NaN]%float.
Definition stalling : list float := [1; 1; 1; 1]%float.
Definition improving : list float := [1; 0.5; 0.6; 0.7; 0.1; 0.2; 0.3]%float.

(** Two test rows: a leaver scored 0.90625, a stayer scored 0.8984375. *)
Definition scores : list float := [0.90625; 0.8984375]%float.
Definition truth : list Z := [1%Z; 0%Z].

(** A loader whose second row has no OverTime property at all. *)
Definition leaver : row := {[ "Attrition" := "Yes"; "OverTime" := "Yes" ]}.


(** What a preparation returned: the result, the loader afterwards and
    the random draws left ([nothing] stands in for a call that fails). *)
Definition nothing : Prepared * t * list float :=
  ({| xTrain := []; yTrain := []; xTest := []; yTest := []; testMeta := [];
      outAttritionMap := ∅; outFeatureOrder := [];
      splitIdx := stratifiedSplit [] 0 |}, init, []).

Definition returned (r : result (Prepared * t * list float))
  : Prepared * t * list float :=
  match r with
  | Ok x => x
  | _ => nothing
  end.

Definition out_of (x : Prepared * t * list float) : Prepared := x.1.1.
Definition state_of (x : Prepared * t * list float) : t := x.1.2.
Definition rest_of (x : Prepared * t * list float) : list float := x.2.

Definition prepare_sample (cfg : Config) (dl : t) (ds : list float)
  : result (Prepared * t * list float) :=
  prepareTensors host_log host_cos decimal cfg dl ds.

(** Thirty per cent held out, without and with augmentation; five per cent
    held out; and the augmented preparation run a second time. *)
Definition plain_run := returned (prepare_sample (plain 0.3) loaded []).
Definition augmented_run := returned (prepare_sample (augmented 0.3) loaded draws).
Definition bare_run :=
  returned (prepare_sample (unaugmented (augmented 0.3)) loaded draws).

(** Four scaled training rows of two features, the first one a leaver, and
    what the augmenter makes of them at ratio 0.5 with one numeric column. *)
Definition tiny_X : list (list float) := [[0.5; 1]; [1.5; 0]; [0.25; 0]; [2; 1]]%float.
Definition tiny_y : list (list Z) := [[1]; [0]; [0]; [0]]%Z.

Definition tiny_augmented : list (list float) * list (list Z) * list float :=
  match augmentPositivesOnScaled host_log host_cos tiny_X tiny_y 1 0.5 0.05 draws with
  | Ok x => x
  | _ => ([], [], [])
  end.

(** A host that prints every number as 0.5. *)
Definition as_half (x : float) : string := "0.5".

(** A network of two recurrent layers on 33 features. *)
Definition no_model : GRUClassifier.Model :=
  {| GRUClassifier.layers := []; GRUClassifier.learningRate := 0;
     GRUClassifier.loss_name := ""; GRUClassifier.metrics := [];
     GRUClassifier.model_inputShape := [] |}.

Definition two_layers : GRUClassifier.Model :=
  match GRUClassifier.build as_half GRUClassifier.Undefined (GRUClassifier.Num 33)
          None (Some 2%Z) GRUClassifier.Undefined with
  | Ok m => m
  | _ => no_model
  end.

(** One exported prediction, with a comma in the job role. *)
Definition exported : list Predictions.Prediction :=
  [ {| Predictions.EmployeeNumber := "7";
       Predictions.JobRole := "Sales, Executive";
       Predictions.OverTime := "Yes";
       Predictions.YearsAtCompany := "3";
       Predictions.MonthlyIncome := "5000";
       Predictions.Probability := 0.5;
       Predictions.Predicted := "Yes";
       Predictions.True_ := "No" |} ].

Definition exported_csv : string :=
  default "" (Predictions.downloadCSV as_half (Some exported)).

End Samples.

(** * Properties *)

(** ** The seeded shuffle and the split *)

Module SplitFacts.
Import JS DataLoader.

Lemma lcg_range seed : (0 <= lcg seed < 2 ^ 32)%Z.
Proof. unfold lcg. apply Z.mod_pos_bound. lia. Qed.

(** The index the shuffle draws never leaves the prefix it shuffles. *)
Lemma pick_le seed i : (0 <= seed < 2 ^ 32)%Z -> pick seed i <= i.
Proof.
  intros Hs. unfold pick.
  assert (seed * Z.of_nat (i + 1) / 2 ^ 32 < Z.of_nat (i + 1))%Z.
  { apply Z.div_lt_upper_bound; [lia | nia]. }
  assert (0 <= seed * Z.of_nat (i + 1) / 2 ^ 32)%Z.
  { apply Z.div_pos; lia. }
  lia.
Qed.

(** On the first hundred seeds and every prefix of up to a hundred cells
    the binary64 computation of the index gives the integer of [pick]. *)
Lemma pick_binary64_agrees :
  forallb (fun seed =>
             forallb (fun i => match pick_binary64 seed i with
                               | Some j => (j =? Z.of_nat (pick seed i))%Z
                               | None => false
                               end)
                     (seq 0 100))
          (seeds 100 1337) = true.
Proof. vm_compute. reflexivity. Qed.

Lemma swap_Permutation arr i j : swap arr i j ≡ₚ arr.
Proof.
  unfold swap.
  destruct (arr !! i) as [ai|] eqn:Hi; [|reflexivity].
  destruct (arr !! j) as [aj|] eqn:Hj; [|reflexivity].
  by apply Permutation_insert_swap.
Qed.

Lemma swap_length arr i j : length (swap arr i j) = length arr.
Proof. apply Permutation_length, swap_Permutation. Qed.

(** Inside the array the swap is the exchange of the two cells. *)
Lemma swap_lookup arr i j :
  i < length arr -> j < length arr ->
  swap arr i j !! i = arr !! j /\ swap arr i j !! j = arr !! i.
Proof.
  intros Hi Hj. unfold swap.
  destruct (lookup_lt_is_Some_2 arr i Hi) as [ai Hai].
  destruct (lookup_lt_is_Some_2 arr j Hj) as [aj Haj].
  rewrite Hai, Haj. split.
  - destruct (decide (i = j)) as [->|Hne].
    + rewrite list_lookup_insert_eq by (rewrite length_insert; lia). congruence.
    + rewrite list_lookup_insert_ne by congruence.
      by rewrite list_lookup_insert_eq by lia.
  - by rewrite list_lookup_insert_eq by (rewrite length_insert; lia).
Qed.

Lemma shuffle_from_Permutation i seed arr : shuffle_from i seed arr ≡ₚ arr.
Proof.
  revert seed arr. induction i as [|i IH]; intros seed arr; simpl; [reflexivity|].
  rewrite IH. apply swap_Permutation.
Qed.

Lemma shuffle_Permutation arr : shuffle arr ≡ₚ arr.
Proof. apply shuffle_from_Permutation. Qed.

Lemma bucket_Permutation labels i :
  (bucket labels i).1 ++ (bucket labels i).2 ≡ₚ seq i (length labels).
Proof.
  revert i. induction labels as [|y rest IH]; intros i; simpl; [reflexivity|].
  specialize (IH (S i)). destruct (bucket rest (S i)) as [pos neg]. simpl in IH.
  destruct (y =? 1)%Z; simpl.
  - by rewrite IH.
  - rewrite <- Permutation_middle. by rewrite IH.
Qed.


Lemma slice_to_from {A : Type} (arr : list A) k : slice_to arr k ++ slice_from arr k = arr.
Proof. apply take_drop. Qed.




Lemma slices_Permutation {A : Type} (pos neg : list A) a b :
  (slice_to pos a ++ slice_to neg b) ++ slice_from pos a ++ slice_from neg b
  ≡ₚ pos ++ neg.
Proof.
  rewrite <- (slice_to_from pos a) at 3. rewrite <- (slice_to_from neg b) at 3.
  rewrite <- !app_assoc. apply Permutation_app_head.
  rewrite !app_assoc. apply Permutation_app_tail. apply Permutation_app_comm.
Qed.

(** The split loses no index and duplicates none. *)
Lemma stratifiedSplit_Permutation labels ts :
  testIdx (stratifiedSplit labels ts) ++ trainIdx (stratifiedSplit labels ts)
  ≡ₚ seq 0 (length labels).
Proof.
  unfold stratifiedSplit.
  pose proof (bucket_Permutation labels 0) as Hb.
  destruct (bucket labels 0) as [pos0 neg0]. cbn [testIdx trainIdx fst snd] in *.
  rewrite slices_Permutation.
  by rewrite (shuffle_Permutation pos0), (shuffle_Permutation neg0).
Qed.

(** *** What a successful preparation computed *)

Lemma mapM_cons {A B : Type} (f : A -> result B) x l :
  mapM f (x :: l) =
  match f x with
  | Ok y => match mapM f l with
            | Ok k => Ok (y :: k)
            | Throw msg => Throw msg
            | Stuck => Stuck
            end
  | Throw msg => Throw msg
  | Stuck => Stuck
  end.
Proof. reflexivity. Qed.

Lemma mapM_Ok_Forall2 {A B : Type} (f : A -> result B) l k :
  mapM f l = Ok k <-> Forall2 (fun x y => f x = Ok y) l k.
Proof.
  revert k. induction l as [|x l IH]; intros k.
  - split.
    + intros [= <-]. constructor.
    + intros Hk. inversion Hk. reflexivity.
  - rewrite mapM_cons. split.
    + destruct (f x) as [y| |] eqn:Hx; try discriminate.
      destruct (mapM f l) as [k'| |] eqn:Hl; try discriminate.
      intros [= <-]. constructor; [done|]. by apply IH.
    + intros Hk. inversion Hk as [|? y ? k' Hx Hl]; subst.
      rewrite Hx. apply IH in Hl. rewrite Hl. reflexivity.
Qed.

Lemma mapM_Ok_length {A B : Type} (f : A -> result B) l k :
  mapM f l = Ok k -> length k = length l.
Proof. intros H%mapM_Ok_Forall2. symmetry. by eapply Forall2_length. Qed.

Section Prepare.
Variables Math_log Math_cos : float -> float.
Variable Number : string -> float.

Local Abbreviation prepare := (prepareTensors Math_log Math_cos Number).

(** A call that returns went through these steps. *)
Lemma prepareTensors_Ok cfg dl draws out dl' draws' :
  prepare cfg dl draws = Ok (out, dl', draws') ->
  exists order fl X Y,
    let aug := default defaultAug (augment cfg) in
    let sp := stratifiedSplit (map snd fl) (default 0.2%float (testSplit cfg)) in
    let sc := fitScaler (rows_at (map fst fl) (trainIdx sp)) in
    raw dl <> []
    /\ featureOrder_of (fitCategoricals (raw dl) (catCols dl)) (catCols dl) = Ok order
    /\ mapM (rowToFeatures Number (fitted dl aug order)) (raw dl) = Ok fl
    /\ augment_step Math_log Math_cos aug
         (applyScaler sc (rows_at (map fst fl) (trainIdx sp)))
         (labels_at (map snd fl) (trainIdx sp)) draws = Ok (X, Y, draws')
    /\ out = {| xTrain := X; yTrain := Y;
                xTest := applyScaler sc (rows_at (map fst fl) (testIdx sp));
                yTest := labels_at (map snd fl) (testIdx sp);
                testMeta := map (fun i => nth i (metaRows dl) ∅) (testIdx sp);
                outAttritionMap := attritionMap; outFeatureOrder := order;
                splitIdx := sp |}
    /\ dl' = prepared dl aug order sc.
Proof.
  intros H. unfold prepareTensors in H.
  destruct (length (raw dl) =? 0)%nat eqn:Hlen; [discriminate|].
  destruct (featureOrder_of _ _) as [order| |] eqn:Horder; try discriminate.
  cbn [mbind result_bind] in H.
  destruct (mapM _ (raw dl)) as [fl| |] eqn:Hfl; try discriminate.
  cbn [mbind result_bind] in H. cbv zeta in H.
  destruct (augment_step _ _ _ _ _ _) as [[[X Y] d2]| |] eqn:Haug; try discriminate.
  cbn [mbind result_bind] in H. injection H as <- <- <-.
  exists order, fl, X, Y. cbv zeta. repeat split; try done.
  intros Hnil. rewrite Hnil in Hlen. discriminate.
Qed.

Lemma rowToFeatures_ext d1 d2 r :
  encoders d1 = encoders d2 -> catCols d1 = catCols d2 ->
  rowToFeatures Number d1 r = rowToFeatures Number d2 r.
Proof. intros H1 H2. unfold rowToFeatures. by rewrite H1, H2. Qed.

Lemma featurize_ext d1 d2 rows :
  encoders d1 = encoders d2 -> catCols d1 = catCols d2 ->
  mapM (rowToFeatures Number d1) rows = mapM (rowToFeatures Number d2) rows.
Proof.
  intros H1 H2. induction rows as [|r rows IH]; [done|].
  by rewrite !mapM_cons, IH, (rowToFeatures_ext d1 d2 r H1 H2).
Qed.

Lemma rowToFeatures_label dl r v y :
  rowToFeatures Number dl r = Ok (v, y) -> y = label_of r.
Proof.
  unfold rowToFeatures. destruct (mapM _ _); cbn [mbind result_bind]; congruence.
Qed.

Lemma featurize_labels dl rows fl :
  mapM (rowToFeatures Number dl) rows = Ok fl -> map snd fl = map label_of rows.
Proof.
  intros H%mapM_Ok_Forall2. induction H as [|r [v y] rows fl Hr _ IH]; [done|].
  simpl. f_equal; [|done]. by eapply rowToFeatures_label.
Qed.

(** The split of a call that returns is the split of the rows' labels. *)
Lemma prepareTensors_split cfg dl draws out dl' draws' :
  prepare cfg dl draws = Ok (out, dl', draws') ->
  splitIdx out = stratifiedSplit (map label_of (raw dl))
                                 (default 0.2%float (testSplit cfg)).
Proof.
  intros (order & fl & X & Y & H)%prepareTensors_Ok. cbv zeta in H.
  destruct H as (_ & _ & Hfl & _ & -> & _). simpl.
  by rewrite (featurize_labels _ _ _ Hfl).
Qed.

End Prepare.

(** Replace the hypothesis that a preparation returned by its steps. *)
Tactic Notation "prepare_steps" hyp(H) "as" ident(order) ident(fl) ident(X) ident(Y) :=
  apply prepareTensors_Ok in H as (order & fl & X & Y & H); cbv zeta in H.


(** C1: the train and test index sets of a preparation that returns are
    disjoint and together hold every row index exactly once, whatever the
    requested test fraction. *)
Theorem split_partitions_rows Math_log Math_cos Number cfg dl draws out dl' draws' :
  prepareTensors Math_log Math_cos Number cfg dl draws = Ok (out, dl', draws') ->
  let train := trainIdx (splitIdx out) in
  let test := testIdx (splitIdx out) in
  NoDup (test ++ train)
  /\ (forall i, i ∈ test -> i ∉ train)
  /\ (forall i, i < length (raw dl) <-> i ∈ train \/ i ∈ test).
Proof.
  intros Hsp%prepareTensors_split. cbv zeta. rewrite Hsp.
  set (sp := stratifiedSplit _ _).
  pose proof (stratifiedSplit_Permutation (map label_of (raw dl))
                (default 0.2%float (testSplit cfg))) as Hp.
  fold sp in Hp. rewrite length_map in Hp.
  assert (Hnd : NoDup (testIdx sp ++ trainIdx sp)).
  { rewrite Hp. apply NoDup_seq. }
  split; [done|]. split.
  - intros i Hi Hi'. apply NoDup_app in Hnd as (_ & Hdisj & _). by apply (Hdisj i).
  - intros i. transitivity (i ∈ seq 0 (length (raw dl))).
    + rewrite elem_of_seq. lia.
    + rewrite <- Hp, elem_of_app. tauto.
Qed.

(** The sample preparations return. *)
Lemma plain_run_returns :
  Samples.prepare_sample (Samples.plain 0.3) Samples.loaded []
  = Ok (Samples.out_of Samples.plain_run, Samples.state_of Samples.plain_run,
        Samples.rest_of Samples.plain_run).
Proof.
  vm_cast_no_check
    (eq_refl (Ok (Samples.out_of Samples.plain_run, Samples.state_of Samples.plain_run,
                  Samples.rest_of Samples.plain_run))).
Qed.


Lemma augmented_run_returns :
  Samples.prepare_sample (Samples.augmented 0.3) Samples.loaded Samples.draws
  = Ok (Samples.out_of Samples.augmented_run, Samples.state_of Samples.augmented_run,
        Samples.rest_of Samples.augmented_run).
Proof.
  vm_cast_no_check
    (eq_refl (Ok (Samples.out_of Samples.augmented_run,
                  Samples.state_of Samples.augmented_run,
                  Samples.rest_of Samples.augmented_run))).
Qed.

Lemma bare_run_returns :
  Samples.prepare_sample (unaugmented (Samples.augmented 0.3)) Samples.loaded
    Samples.draws
  = Ok (Samples.out_of Samples.bare_run, Samples.state_of Samples.bare_run,
        Samples.rest_of Samples.bare_run).
Proof.
  vm_cast_no_check
    (eq_refl (Ok (Samples.out_of Samples.bare_run, Samples.state_of Samples.bare_run,
                  Samples.rest_of Samples.bare_run))).
Qed.


Lemma split_partitions_rows_witness :
  Samples.prepare_sample (Samples.plain 0.3) Samples.loaded []
  = Ok (Samples.out_of Samples.plain_run, Samples.state_of Samples.plain_run,
        Samples.rest_of Samples.plain_run)
  /\ NoDup (testIdx (splitIdx (Samples.out_of Samples.plain_run))
            ++ trainIdx (splitIdx (Samples.out_of Samples.plain_run)))
  /\ testIdx (splitIdx (Samples.out_of Samples.plain_run)) = [0; 3; 9]
  /\ trainIdx (splitIdx (Samples.out_of Samples.plain_run)) = [4; 6; 7; 1; 2; 5; 8].
Proof.
  split; [exact plain_run_returns|].
  split; [|split; vm_compute; reflexivity].
  apply (split_partitions_rows _ _ _ _ _ _ _ _ _ plain_run_returns).
Defined.

(** *** Sizes *)

Lemma shuffle_length arr : length (shuffle arr) = length arr.
Proof. apply Permutation_length, shuffle_Permutation. Qed.






End SplitFacts.

(** ** The augmenter *)

Module AugmentFacts.
Import JS DataLoader SplitFacts.

Section Augment.
Variables Math_log Math_cos : float -> float.

Local Abbreviation augmentOn := (augmentPositivesOnScaled Math_log Math_cos).

Lemma length_js_set arr i x : i < length arr -> length (js_set arr i x) = length arr.
Proof.
  intros Hi. unfold js_set. destruct (Nat.ltb_spec i (length arr)); [|lia].
  apply length_insert.
Qed.

(** Writing the first [numDim] cells of a clone keeps its length. *)
Lemma perturb_length todo d base clone noise draws clone' draws' :
  perturb Math_log Math_cos todo d base clone noise draws = Ok (clone', draws') ->
  d + todo <= length clone -> length clone' = length clone.
Proof.
  revert d clone draws. induction todo as [|todo IH]; intros d clone draws; simpl.
  - by intros [= <- _].
  - destruct (gauss _ _ draws) as [[g d1]| |]; cbn [mbind result_bind]; try discriminate.
    intros H Hd. apply IH in H; rewrite length_js_set in * by lia; lia.
Qed.

(** The synthesis loop only appends: rows cloned from training rows, each
    labelled 1. *)
Lemma synthesize_appends todo k Xtr pos numDim noise outX outY draws X Y draws' :
  synthesize Math_log Math_cos todo k Xtr pos numDim noise outX outY draws
  = Ok (X, Y, draws') ->
  exists S, X = outX ++ S /\ Y = outY ++ replicate (length S) [1%Z]
            /\ length S = todo
            /\ Forall (fun row => exists base, base ∈ Xtr /\
                         (numDim <= length base -> length row = length base)) S.
Proof.
  revert k outX outY draws.
  induction todo as [|todo IH]; intros k outX outY draws; simpl.
  - intros [= <- <- _]. exists []. by rewrite !app_nil_r.
  - destruct (pos !! _) as [j|]; [|discriminate].
    destruct (Xtr !! j) as [base|] eqn:Hbase; [|discriminate].
    destruct (perturb _ _ _ _ _ _ _ _) as [[clone d1]| |] eqn:Hp;
      cbn [mbind result_bind]; try discriminate.
    intros (S & -> & -> & Hlen & HS)%IH.
    exists (clone :: S). rewrite <- !app_assoc. simpl.
    split; [done|]. split; [done|]. split; [by rewrite Hlen|].
    constructor; [|done]. exists base. split.
    + by eapply list_elem_of_lookup_2.
    + intros Hn. eapply perturb_length; [exact Hp|lia].
Qed.

Lemma bucket_rows_no_positive ytr i :
  (forall y, y ∈ ytr -> head y <> Some 1%Z) -> (bucket_rows ytr i).1 = [].
Proof.
  revert i. induction ytr as [|y ytr IH]; intros i Hy; simpl; [done|].
  specialize (IH (S i)). destruct (bucket_rows ytr (S i)) as [pos neg]. simpl in IH.
  assert (Hh : head y <> Some 1%Z) by (apply Hy; left).
  rewrite IH by (intros y' Hy'; apply Hy; by right).
  destruct y as [|[|[]|] ?]; try done.
Qed.

(** Whatever the augmenter returns starts with the rows and labels it was
    given. *)
Lemma augment_appends Xtr ytr numDim ratio noise draws X Y draws' :
  augmentOn Xtr ytr numDim ratio noise draws = Ok (X, Y, draws') ->
  exists S, X = Xtr ++ S /\ Y = ytr ++ replicate (length S) [1%Z]
            /\ Forall (fun row => exists base, base ∈ Xtr /\
                         (numDim <= length base -> length row = length base)) S.
Proof.
  unfold augmentPositivesOnScaled. destruct (bucket_rows ytr 0) as [pos neg].
  assert (Hnone : Ok (Xtr, ytr, draws) = Ok (X, Y, draws') ->
                  exists S : list (list float),
                    X = Xtr ++ S /\ Y = ytr ++ replicate (length S) [1%Z]
                    /\ Forall (fun row => exists base, base ∈ Xtr /\
                         (numDim <= length base -> length row = length base)) S).
  { intros [= <- <- _]. exists []. by rewrite !app_nil_r. }
  destruct (length pos =? 0); [done|].
  destruct (jmax _ _) as [|need|?]; [done| |discriminate].
  destruct (need <=? 0)%Z; [done|].
  intros (S & ? & ? & _ & ?)%synthesize_appends. by exists S.
Qed.

(** When the positives already number [wantPos] or more, nothing is
    synthesized and no random number is drawn. *)
Lemma augment_noop Xtr ytr numDim ratio noise draws w :
  wantPos ratio (length (bucket_rows ytr 0).2) = JInt w ->
  (w <= Z.of_nat (length (bucket_rows ytr 0).1))%Z ->
  augmentOn Xtr ytr numDim ratio noise draws = Ok (Xtr, ytr, draws).
Proof.
  unfold augmentPositivesOnScaled. destruct (bucket_rows ytr 0) as [pos neg]. simpl.
  intros -> Hw. destruct (length pos =? 0); [done|]. simpl.
  destruct (Z.leb_spec (Z.max 0 (w - Z.of_nat (length pos))) 0); [done|lia].
Qed.

(** *** The augmenter inside a preparation does not throw *)

Lemma next_nonzero_no_throw draws msg : next_nonzero draws <> Throw msg.
Proof. induction draws as [|u rest IH]; simpl; [done|]. by destruct (PrimFloat.eqb u 0). Qed.

Lemma gauss_no_throw draws msg : gauss Math_log Math_cos draws <> Throw msg.
Proof.
  unfold gauss. pose proof (next_nonzero_no_throw draws) as H1.
  destruct (next_nonzero draws) as [[u d1]|msg1|]; cbn [mbind result_bind];
    [|by destruct (H1 msg1)|done].
  pose proof (next_nonzero_no_throw d1) as H2.
  destruct (next_nonzero d1) as [[v d2]|msg2|]; cbn [mbind result_bind];
    [done|by destruct (H2 msg2)|done].
Qed.

Lemma perturb_no_throw todo d base clone noise draws msg :
  perturb Math_log Math_cos todo d base clone noise draws <> Throw msg.
Proof.
  revert d clone draws. induction todo as [|todo IH]; intros d clone draws; simpl; [done|].
  pose proof (gauss_no_throw draws) as Hg.
  destruct (gauss _ _ draws) as [[g d1]|msg1|]; cbn [mbind result_bind];
    [apply IH|by destruct (Hg msg1)|done].
Qed.

Lemma bucket_rows_range ytr i j :
  j ∈ (bucket_rows ytr i).1 -> i <= j < i + length ytr.
Proof.
  revert i. induction ytr as [|y ytr IH]; intros i; simpl; [by intros ?%elem_of_nil|].
  specialize (IH (S i)). destruct (bucket_rows ytr (S i)) as [pos neg]. simpl in IH.
  assert (Hin : j ∈ pos -> i <= j < i + S (length ytr)) by (intros ?%IH; lia).
  destruct y as [|[|[]|] ?]; simpl; try done.
  intros [->|?]%elem_of_cons; [lia|auto].
Qed.

Lemma synthesize_no_throw todo k Xtr pos numDim noise outX outY draws msg :
  pos <> [] -> (forall j, j ∈ pos -> j < length Xtr) ->
  synthesize Math_log Math_cos todo k Xtr pos numDim noise outX outY draws <> Throw msg.
Proof.
  intros Hpos Hrange. revert k outX outY draws.
  induction todo as [|todo IH]; intros k outX outY draws; simpl; [done|].
  destruct (lookup_lt_is_Some_2 pos (k mod length pos)) as [j Hj].
  { apply Nat.mod_upper_bound. by destruct pos. }
  rewrite Hj.
  destruct (lookup_lt_is_Some_2 Xtr j) as [base Hbase].
  { apply Hrange. by eapply list_elem_of_lookup_2. }
  rewrite Hbase. pose proof (perturb_no_throw numDim 0 base base noise draws) as Hp.
  destruct (perturb _ _ _ _ _ _ _ _) as [[clone d1]|msg1|]; cbn [mbind result_bind];
    [apply IH|by destruct (Hp msg1)|done].
Qed.

(** With as many rows as labels the augmenter returns, or waits for more
    random numbers; it does not throw. *)
Lemma augment_no_throw Xtr ytr numDim ratio noise draws msg :
  length Xtr = length ytr ->
  augmentOn Xtr ytr numDim ratio noise draws <> Throw msg.
Proof.
  intros Hlen. unfold augmentPositivesOnScaled.
  pose proof (bucket_rows_range ytr 0) as Hrange.
  destruct (bucket_rows ytr 0) as [pos neg]. simpl in Hrange.
  destruct (Nat.eqb_spec (length pos) 0) as [|Hpos]; [done|].
  destruct (jmax _ _) as [|need|?]; [done| |done].
  destruct (need <=? 0)%Z; [done|].
  apply synthesize_no_throw.
  - by destruct pos.
  - intros j Hj%Hrange. lia.
Qed.

(** C10: with no positive row in the training partition the augmenter
    returns the matrix and the labels it was given, draws no random number
    and never reaches [k % P] or the synthesis loop. *)
Theorem augment_without_positives Xtr ytr numDim ratio noise draws :
  (forall y, y ∈ ytr -> head y <> Some 1%Z) ->
  augmentOn Xtr ytr numDim ratio noise draws = Ok (Xtr, ytr, draws).
Proof.
  intros Hy. unfold augmentPositivesOnScaled.
  pose proof (bucket_rows_no_positive ytr 0 Hy) as Hpos.
  destruct (bucket_rows ytr 0) as [pos neg]. simpl in Hpos. by rewrite Hpos.
Qed.

Variable Number : string -> float.

Local Abbreviation prepare := (prepareTensors Math_log Math_cos Number).

(** C8: the augmented call returns what the un-augmented call returns, with
    synthetic rows labelled 1 appended to the training matrix and labels;
    the scaled training rows, their labels, the test matrix, labels, meta
    rows and indices and the scaler are the same.  When the positives of the
    training partition already number [wantPos] or more, nothing is
    appended. *)
Theorem augmentation_frame cfg dl draws out dl' draws' :
  prepare cfg dl draws = Ok (out, dl', draws') ->
  exists out0 dl0 S,
    prepare (unaugmented cfg) dl draws = Ok (out0, dl0, draws)
    /\ xTrain out = xTrain out0 ++ S
    /\ yTrain out = yTrain out0 ++ replicate (length S) [1%Z]
    /\ xTest out = xTest out0 /\ yTest out = yTest out0
    /\ testMeta out = testMeta out0 /\ splitIdx out = splitIdx out0
    /\ scaler dl' = scaler dl0
    /\ (forall w,
          wantPos (clampRatio (targetRatio (default defaultAug (augment cfg))))
                  (length (bucket_rows (yTrain out0) 0).2) = JInt w ->
          (w <= Z.of_nat (length (bucket_rows (yTrain out0) 0).1))%Z ->
          S = [] /\ draws' = draws).
Proof.
  intros H. prepare_steps H as order fl X Y.
  destruct H as (Hraw & Horder & Hfl & Haug & -> & ->).
  set (aug := default defaultAug (augment cfg)) in *.
  set (sp := stratifiedSplit (map snd fl) (default 0.2%float (testSplit cfg))) in *.
  set (sc := fitScaler (rows_at (map fst fl) (trainIdx sp))) in *.
  set (XtrS := applyScaler sc (rows_at (map fst fl) (trainIdx sp))) in *.
  set (ytr := labels_at (map snd fl) (trainIdx sp)) in *.
  assert (H0 : prepare (unaugmented cfg) dl draws
               = Ok ({| xTrain := XtrS; yTrain := ytr;
                        xTest := applyScaler sc (rows_at (map fst fl) (testIdx sp));
                        yTest := labels_at (map snd fl) (testIdx sp);
                        testMeta := map (fun i => nth i (metaRows dl) ∅) (testIdx sp);
                        outAttritionMap := attritionMap; outFeatureOrder := order;
                        splitIdx := sp |},
                     prepared dl defaultAug order sc, draws)).
  { assert (Hlen : (length (raw dl) =? 0) = false) by (by destruct (raw dl)).
    unfold prepareTensors. rewrite Hlen, Horder. cbn [mbind result_bind unaugmented augment testSplit default].
    rewrite (featurize_ext Number (fitted dl defaultAug order) (fitted dl aug order))
      by done.
    rewrite Hfl. cbn [mbind result_bind]. reflexivity. }
  assert (HS : exists S, X = XtrS ++ S /\ Y = ytr ++ replicate (length S) [1%Z]
                /\ (forall w,
                      wantPos (clampRatio (targetRatio aug))
                              (length (bucket_rows ytr 0).2) = JInt w ->
                      (w <= Z.of_nat (length (bucket_rows ytr 0).1))%Z ->
                      S = [] /\ draws' = draws)).
  { unfold augment_step in Haug. destruct (enable aug).
    - pose proof Haug as (S & HX & HY & _)%augment_appends.
      exists S. split; [done|]. split; [done|]. intros w Hw Hle.
      rewrite (augment_noop _ _ _ _ _ _ w Hw Hle) in Haug.
      injection Haug as HX' _ Hd. split; [|done].
      rewrite <- HX' in HX. rewrite <- (app_nil_r XtrS) in HX at 1.
      by apply app_inv_head in HX.
    - injection Haug as <- <- <-. exists []. by rewrite !app_nil_r. }
  destruct HS as (S & -> & -> & Hnoop).
  eexists _, _, S. split; [exact H0|]. cbn [xTrain yTrain xTest yTest testMeta splitIdx].
  repeat (split; [done|]). exact Hnoop.
Qed.

End Augment.

Lemma augmentation_frame_witness :
  Samples.prepare_sample (Samples.augmented 0.3) Samples.loaded Samples.draws
  = Ok (Samples.out_of Samples.augmented_run, Samples.state_of Samples.augmented_run,
        Samples.rest_of Samples.augmented_run)
  /\ length (xTrain (Samples.out_of Samples.bare_run)) = 7
  /\ length (xTrain (Samples.out_of Samples.augmented_run)) = 8
  /\ exists S,
       xTrain (Samples.out_of Samples.augmented_run)
       = xTrain (Samples.out_of Samples.bare_run) ++ S
       /\ yTrain (Samples.out_of Samples.augmented_run)
          = yTrain (Samples.out_of Samples.bare_run) ++ replicate (length S) [1%Z]
       /\ xTest (Samples.out_of Samples.augmented_run)
          = xTest (Samples.out_of Samples.bare_run)
       /\ yTest (Samples.out_of Samples.augmented_run)
          = yTest (Samples.out_of Samples.bare_run).
Proof.
  split; [exact augmented_run_returns|].
  split; [vm_compute; reflexivity|]. split; [vm_compute; reflexivity|].
  destruct (augmentation_frame _ _ _ _ _ _ _ _ _ augmented_run_returns)
    as (out0 & dl0 & S & H0 & HX & HY & HXt & HYt & _).
  pose proof bare_run_returns as Hb. unfold Samples.prepare_sample in Hb.
  rewrite Hb in H0.
  assert (Hout : Samples.out_of Samples.bare_run = out0) by congruence.
  rewrite Hout.
  exists S. auto.
Defined.

Lemma augment_without_positives_witness :
  (forall y, y ∈ [[0%Z]; [0%Z]] -> head y <> Some 1%Z)
  /\ augmentPositivesOnScaled Samples.host_log Samples.host_cos
       [[0.5%float]; [1.5%float]] [[0%Z]; [0%Z]] 1 0.5 0.05 []
     = Ok ([[0.5%float]; [1.5%float]], [[0%Z]; [0%Z]], []).
Proof.
  assert (H : forall y, y ∈ [[0%Z]; [0%Z]] -> head y <> Some 1%Z).
  { intros y Hy. repeat (apply elem_of_cons in Hy as [->|Hy]; [discriminate|]).
    by apply elem_of_nil in Hy. }
  split; [exact H|].
  exact (augment_without_positives Samples.host_log Samples.host_cos
           [[0.5%float]; [1.5%float]] [[0%Z]; [0%Z]] 1 0.5 0.05 [] H).
Defined.

End AugmentFacts.

(** ** Encoders and feature vectors *)

Module FeatureFacts.
Import JS DataLoader SplitFacts AugmentFacts.

Lemma length_Object_keys {V : Type} (o : list (string * V)) :
  length (Object_keys o) = length o.
Proof.
  unfold Object_keys. rewrite length_app, length_map.
  rewrite (Permutation_length (merge_sort_Permutation _ _)).
  transitivity (length (map fst o)); [|apply length_map].
  unfold omap. induction (map fst o) as [|k ks IH]; [done|].
  simpl. destruct (array_index k); simpl; lia.
Qed.

Lemma obj_set_fresh {V : Type} (o : list (string * V)) k v :
  k ∉ map fst o -> obj_set o k v = o ++ [(k, v)].
Proof.
  induction o as [|[k' v'] o IH]; simpl; [done|].
  intros Hk. apply not_elem_of_cons in Hk as [Hne Hk].
  destruct (String.eqb_spec k' k); [congruence|]. by rewrite IH.
Qed.

Lemma assign_indices_fresh cats i enc :
  NoDup cats -> (forall k, k ∈ cats -> k ∉ map fst enc) ->
  assign_indices cats i enc = enc ++ zip cats (seq i (length cats)).
Proof.
  revert i enc. induction cats as [|v cats IH]; intros i enc Hnd Hfresh; simpl.
  - by rewrite app_nil_r.
  - apply NoDup_cons in Hnd as [Hv Hnd].
    rewrite obj_set_fresh by (apply Hfresh; left).
    rewrite IH; [by rewrite <- app_assoc|done|].
    intros k Hk. rewrite map_app, elem_of_app. simpl.
    intros [Hin|Hin%list_elem_of_singleton].
    + by apply (Hfresh k); [right|].
    + congruence.
Qed.

Lemma obj_get_zip cats i v :
  v ∈ cats ->
  exists j, obj_get (zip cats (seq i (length cats))) v = Some (i + j)
            /\ j < length cats.
Proof.
  revert i. induction cats as [|c cats IH]; intros i Hv; [by apply elem_of_nil in Hv|].
  simpl. destruct (String.eqb_spec c v) as [->|Hne].
  - exists 0. split; [f_equal; lia|lia].
  - apply elem_of_cons in Hv as [->|Hv]; [done|].
    destruct (IH (S i) Hv) as (j & Hj & Hlt). exists (S j).
    split; [rewrite Hj; f_equal; lia|lia].
Qed.

Lemma set_add_elem s x y : y ∈ set_add s x <-> y ∈ s \/ y = x.
Proof.
  unfold set_add, includes. case_bool_decide.
  - split; [auto|]. intros [?| ->]; done.
  - rewrite elem_of_app, list_elem_of_singleton. done.
Qed.

Lemma set_add_NoDup s x : NoDup s -> NoDup (set_add s x).
Proof.
  intros Hs. unfold set_add, includes. case_bool_decide; [done|].
  apply NoDup_app. split; [done|]. split; [|apply NoDup_singleton].
  intros y Hy ->%list_elem_of_singleton. done.
Qed.

Lemma distinct_values_spec rows c :
  NoDup (distinct_values rows c)
  /\ (forall v, v ∈ distinct_values rows c <-> exists r, r ∈ rows /\ get r c = v).
Proof.
  unfold distinct_values.
  assert (H : forall s, NoDup s ->
    NoDup (fold_left (fun s r => set_add s (get r c)) rows s)
    /\ (forall v, v ∈ fold_left (fun s r => set_add s (get r c)) rows s
                  <-> v ∈ s \/ exists r, r ∈ rows /\ get r c = v)).
  { induction rows as [|r rows IH]; intros s Hs; simpl.
    - split; [done|]. intros v. split; [auto|].
      intros [?|(r & Hr & _)]; [done|by apply elem_of_nil in Hr].
    - destruct (IH (set_add s (get r c)) (set_add_NoDup _ _ Hs)) as [Hnd Hel].
      split; [done|]. intros v. rewrite Hel, set_add_elem. split.
      + intros [[?| ->]|(r' & Hr' & <-)]; [auto| |].
        * right. exists r. split; [left|done].
        * right. exists r'. split; [by right|done].
      + intros [?|(r' & Hr' & <-)]; [auto|].
        apply elem_of_cons in Hr' as [->|Hr']; [auto|].
        right. by exists r'. }
  destruct (H [] (NoDup_nil_2)) as [Hnd Hel]. split; [done|].
  intros v. rewrite Hel. split; [|auto].
  intros [Hv|?]; [by apply elem_of_nil in Hv|done].
Qed.

(** The encoder of a column numbers its sorted distinct values 0, 1, ... *)
Lemma fit_column_zip rows c :
  fit_column rows c =
  zip (sort (distinct_values rows c))
      (seq 0 (length (sort (distinct_values rows c)))).
Proof.
  unfold fit_column. rewrite assign_indices_fresh; [done| |].
  - unfold sort. rewrite merge_sort_Permutation. apply distinct_values_spec.
  - intros k _ Hk. by apply elem_of_nil in Hk.
Qed.

Lemma fit_column_lookup rows c r :
  r ∈ rows ->
  exists i, obj_get (fit_column rows c) (get r c) = Some i
            /\ i < length (Object_keys (fit_column rows c)).
Proof.
  intros Hr. rewrite length_Object_keys, fit_column_zip.
  destruct (obj_get_zip (sort (distinct_values rows c)) 0 (get r c)) as (j & Hj & Hlt).
  { unfold sort. rewrite merge_sort_Permutation.
    apply distinct_values_spec. by exists r. }
  exists j. split; [done|].
  rewrite length_zip_with, length_seq. lia.
Qed.

Lemma fitCategoricals_lookup rows cols c :
  c ∈ cols -> fitCategoricals rows cols !! c = Some (fit_column rows c).
Proof.
  unfold fitCategoricals.
  assert (H : forall m : gmap string encoder,
    (c ∈ cols \/ m !! c = Some (fit_column rows c)) ->
    fold_left (fun (encs : gmap string encoder) c => <[c := fit_column rows c]> encs)
              cols m !! c = Some (fit_column rows c)).
  { induction cols as [|c' cols IH]; intros m Hc; simpl.
    - destruct Hc as [Hc|Hc]; [by apply elem_of_nil in Hc|done].
    - apply IH. destruct (decide (c' = c)) as [->|Hne].
      + right. apply lookup_insert_eq.
      + destruct Hc as [Hc|Hc].
        * apply elem_of_cons in Hc as [->|Hc]; [done|by left].
        * right. by rewrite lookup_insert_ne. }
  intros Hc. apply H. by left.
Qed.



Lemma length_one_hot_block (k i : nat) :
  length (<[i := 1%float]> (replicate k 0%float)) = k.
Proof. by rewrite length_insert, length_replicate. Qed.

(** For a row the encoders were fitted on, the block of a fitted column is
    all zeros but one cell. *)
Lemma one_hot_fitted rows cols r c :
  r ∈ rows -> c ∈ cols ->
  exists i, i < block_size (fitCategoricals rows cols) c
    /\ one_hot (fitCategoricals rows cols) r c
       = Ok (<[i := 1%float]>
               (replicate (block_size (fitCategoricals rows cols) c) 0%float)).
Proof.
  intros Hr Hc. unfold one_hot, block_size.
  rewrite (fitCategoricals_lookup rows cols c Hc).
  destruct (fit_column_lookup rows c r Hr) as (i & -> & Hi).
  exists i. split; [done|]. unfold js_set. rewrite length_replicate.
  by destruct (Nat.ltb_spec i (length (Object_keys (fit_column rows c)))); [|lia].
Qed.


Lemma mapM_Ok_intro {A B : Type} (f : A -> result B) (P : A -> B -> Prop) l :
  (forall x, x ∈ l -> exists y, f x = Ok y /\ P x y) ->
  exists k, mapM f l = Ok k /\ Forall2 P l k.
Proof.
  induction l as [|x l IH]; intros H.
  - exists []. split; [done|constructor].
  - destruct (H x) as (y & Hy & HP); [left|].
    destruct IH as (k & Hk & HF); [intros x' Hx'; apply H; by right|].
    exists (y :: k). split; [|by constructor].
    by rewrite mapM_cons, Hy, Hk.
Qed.

Lemma one_hot_blocks rows cols r :
  r ∈ rows ->
  exists blocks,
    mapM (one_hot (fitCategoricals rows cols) r) cols = Ok blocks
    /\ Forall2 (fun c b => exists i, i < block_size (fitCategoricals rows cols) c
                   /\ b = <[i := 1%float]>
                            (replicate (block_size (fitCategoricals rows cols) c) 0%float))
               cols blocks.
Proof.
  intros Hr. apply mapM_Ok_intro. intros c Hc.
  destruct (one_hot_fitted rows cols r c Hr Hc) as (i & Hi & ->). eauto.
Qed.

Lemma block_names_fitted rows cols :
  exists names,
    mapM (block_names (fitCategoricals rows cols)) cols = Ok names
    /\ Forall2 (fun c ns => length ns = block_size (fitCategoricals rows cols) c)
               cols names.
Proof.
  apply mapM_Ok_intro. intros c Hc. unfold block_names, block_size.
  rewrite (fitCategoricals_lookup rows cols c Hc). eexists. split; [done|].
  apply length_map.
Qed.

Lemma length_concat_blocks {A : Type} (size : string -> nat) cols (blocks : list (list A)) :
  Forall2 (fun c b => length b = size c) cols blocks ->
  length (concat blocks) = sum_list (map size cols).
Proof. induction 1 as [|c b cols blocks Hb _ IH]; simpl; [done|]. rewrite length_app. lia. Qed.

Section Features.
Variable Number : string -> float.

Lemma length_base_features r : length (base_features Number r) = length baseNum.
Proof. apply length_map. Qed.

Lemma length_engineered_features r :
  length (engineered_features Number r) = length engineered.
Proof. reflexivity. Qed.

(** Featurizing a row of the dataset the encoders were fitted on. *)
Lemma rowToFeatures_fitted dl r :
  encoders dl = fitCategoricals (raw dl) (catCols dl) ->
  r ∈ raw dl ->
  exists blocks,
    rowToFeatures Number dl r
    = Ok (base_features Number r ++ engineered_features Number r ++ concat blocks,
          label_of r)
    /\ Forall2 (fun c b => exists i, i < block_size (encoders dl) c
                   /\ b = <[i := 1%float]> (replicate (block_size (encoders dl) c) 0%float))
               (catCols dl) blocks
    /\ length (base_features Number r ++ engineered_features Number r ++ concat blocks)
       = width dl.
Proof.
  intros Henc Hr. unfold rowToFeatures, width. rewrite Henc.
  destruct (one_hot_blocks (raw dl) (catCols dl) r Hr) as (blocks & -> & HF).
  exists blocks. cbn [mbind result_bind]. split; [done|]. split; [done|].
  rewrite !length_app, length_base_features, length_engineered_features.
  rewrite (length_concat_blocks (block_size (fitCategoricals (raw dl) (catCols dl)))
             (catCols dl) blocks); [lia|].
  eapply Forall2_impl; [exact HF|]. intros c b (i & _ & ->).
  apply length_one_hot_block.
Qed.

Lemma featureOrder_of_fitted rows cols :
  exists order,
    featureOrder_of (fitCategoricals rows cols) cols = Ok order
    /\ length order = length baseNum + length engineered
                      + sum_list (map (block_size (fitCategoricals rows cols)) cols).
Proof.
  unfold featureOrder_of.
  destruct (block_names_fitted rows cols) as (names & -> & HF).
  eexists. cbn [mbind result_bind]. split; [done|].
  rewrite !length_app. by rewrite (length_concat_blocks _ _ _ HF).
Qed.




End Features.

(** The indices of a split are row indices. *)
Lemma split_indices_in_range labels fraction :
  Forall (fun i => i < length labels) (testIdx (stratifiedSplit labels fraction))
  /\ Forall (fun i => i < length labels) (trainIdx (stratifiedSplit labels fraction)).
Proof.
  pose proof (stratifiedSplit_Permutation labels fraction) as Hp.
  assert (H : Forall (fun i => i < length labels)
                (testIdx (stratifiedSplit labels fraction)
                 ++ trainIdx (stratifiedSplit labels fraction))).
  { rewrite Hp. apply Forall_forall. intros i Hi%elem_of_seq. lia. }
  by apply Forall_app in H.
Qed.

Section Vectors.
Variables Math_log Math_cos : float -> float.
Variable Number : string -> float.

(** A preparation of a loaded dataset returns; only an augmentation that
    needs more values of [Math.random()] than it is given is left waiting.
    Without rows it throws. *)
Lemma prepareTensors_returns cfg dl draws :
  raw dl <> [] ->
  (exists out dl' rest,
     prepareTensors Math_log Math_cos Number cfg dl draws = Ok (out, dl', rest))
  \/ (prepareTensors Math_log Math_cos Number cfg dl draws = Stuck
      /\ enable (default defaultAug (augment cfg)) = true).
Proof.
  intros Hraw. unfold prepareTensors.
  assert (Hlen : (length (raw dl) =? 0) = false) by (by destruct (raw dl)).
  rewrite Hlen.
  destruct (featureOrder_of_fitted (raw dl) (catCols dl)) as (order & -> & _).
  cbn [mbind result_bind].
  set (aug := default defaultAug (augment cfg)).
  destruct (mapM_Ok_intro (rowToFeatures Number (fitted dl aug order))
              (fun _ _ => True) (raw dl)) as (fl & -> & _).
  { intros r Hr.
    destruct (rowToFeatures_fitted Number (fitted dl aug order) r eq_refl Hr)
      as (blocks & -> & _). eauto. }
  cbn [mbind result_bind]. cbv zeta.
  set (sp := stratifiedSplit _ _). set (sc := fitScaler _).
  unfold augment_step. destruct (enable aug) eqn:Hen; cbn [mbind result_bind].
  - pose proof (augment_no_throw Math_log Math_cos
                  (applyScaler sc (rows_at (map fst fl) (trainIdx sp)))
                  (labels_at (map snd fl) (trainIdx sp)) numDim
                  (clampRatio (targetRatio aug)) (clampNoise (noiseStd aug)) draws) as Hno.
    destruct (augmentPositivesOnScaled _ _ _ _ _ _ _ _) as [[[X Y] d']|msg|];
      cbn [mbind result_bind].
    + left. eauto.
    + exfalso. apply (Hno msg); [|done].
      unfold applyScaler, rows_at, labels_at. by rewrite !length_map.
    + right. done.
  - left. eauto.
Qed.

Lemma prepareTensors_empty cfg dl draws :
  raw dl = [] ->
  prepareTensors Math_log Math_cos Number cfg dl draws = Throw "Dataset not loaded.".
Proof. intros Hraw. unfold prepareTensors. by rewrite Hraw. Qed.



End Vectors.



End FeatureFacts.

(** ** Loading *)

Module LoadFacts.
Import JS DataLoader.

Lemma parse_rows_filter hs lines :
  length (parse_rows hs lines)
  = length (List.filter (fun line => (length (Str.split ","%char line) =? length hs)%nat)
                        lines).
Proof.
  induction lines as [|line rest IH]; [done|]. simpl.
  destruct (length (Str.split ","%char line) =? length hs)%nat; simpl; by rewrite IH.
Qed.

(** A line with the wrong number of fields leaves no trace in the rows. *)
Lemma parse_rows_skips hs before line after :
  length (Str.split ","%char line) <> length hs ->
  parse_rows hs (before ++ line :: after) = parse_rows hs (before ++ after).
Proof.
  intros Hne. induction before as [|l before IH]; simpl.
  - by destruct (Nat.eqb_spec (length (Str.split ","%char line)) (length hs)).
  - by rewrite IH.
Qed.

(** C3: loading a text fails exactly when it has no non-empty line after
    the header line or the header lacks the label column Attrition, each
    with its own message; a data line whose field count differs from the
    header's is skipped and plays no part in whether loading fails. *)
Theorem load_fails_exactly_when (text : string) (dl : t) :
  let lines := lines_of text in
  let hs := header_of (default ""%string (head lines)) in
  let wellFormed := fun line => (length (Str.split ","%char line) =? length hs)%nat in
  (fromFile (Some text) dl = Throw "CSV has no data." <-> length lines < 2)
  /\ (fromFile (Some text) dl = Throw "Missing required column: Attrition"
      <-> 2 <= length lines /\ labelKey ∉ hs)
  /\ ((exists msg, fromFile (Some text) dl = Throw msg)
      <-> length lines < 2 \/ labelKey ∉ hs)
  /\ ((exists dl', fromFile (Some text) dl = Ok dl'
                   /\ headers dl' = hs
                   /\ length (raw dl') = length (List.filter wellFormed (tail lines)))
      <-> 2 <= length lines /\ labelKey ∈ hs).
Proof.
  cbv zeta. unfold fromFile, parseCSV.
  destruct (Nat.ltb_spec (length (lines_of text)) 2) as [Hlt|Hge];
    cbn [mbind result_bind].
  - split; [split; [lia|done]|]. split; [split; [done|lia]|].
    split; [split; eauto|]. split; [by intros (? & ? & _)|lia].
  - unfold includes. case_bool_decide as Hlabel; cbn [negb].
    + split; [split; [done|lia]|]. split; [split; [done|tauto]|].
      split; [split; [by intros [? ?]|intros [?|?]; [lia|done]]|].
      split; [done|]. intros _. eexists. split; [done|]. split; [done|].
      cbn [raw]. by rewrite length_map, parse_rows_filter.
    + split; [split; [done|lia]|]. split; [split; [done|done]|].
      split; [split; eauto|]. split; [by intros (? & ? & _)|tauto].
Qed.

End LoadFacts.

(** ** Determinism of the preparation *)

Module DeterminismFacts.
Import JS DataLoader SplitFacts.

Section Twice.
Variables Math_log Math_cos : float -> float.
Variable Number : string -> float.

Local Abbreviation prepare := (prepareTensors Math_log Math_cos Number).

(** A preparation reads the headers, the rows, the categorical columns and
    the meta rows of the loader, nothing else. *)
Lemma prepare_reads cfg d1 d2 draws :
  headers d1 = headers d2 -> raw d1 = raw d2 -> catCols d1 = catCols d2 ->
  metaRows d1 = metaRows d2 ->
  prepare cfg d1 draws = prepare cfg d2 draws.
Proof.
  intros Hh Hr Hc Hm. unfold prepareTensors. rewrite Hr, Hc, Hm.
  destruct (length (raw d2) =? 0); [done|].
  destruct (featureOrder_of _ _) as [order| |]; cbn [mbind result_bind]; try done.
  rewrite (featurize_ext Number (fitted d1 (default defaultAug (augment cfg)) order)
                         (fitted d2 (default defaultAug (augment cfg)) order)).
  2: { cbn [encoders fitted]. by rewrite Hr, Hc. }
  2: { done. }
  destruct (mapM _ (raw d2)) as [fl| |]; cbn [mbind result_bind]; try done.
  cbv zeta. destruct (augment_step _ _ _ _ _ _) as [[[X Y] d']| |];
    cbn [mbind result_bind]; try done.
  unfold prepared. by rewrite Hh, Hr, Hc, Hm.
Qed.

(** C6: a second preparation of the same loaded dataset with the same
    configuration yields the same split indices and the same scaler (and
    leaves the loader in the same state); with the same values of
    [Math.random()] it returns the very same result.  The shuffle takes its
    seed 1337 anew at every call. *)
Theorem preparation_is_deterministic cfg dl draws out dl' rest :
  prepare cfg dl draws = Ok (out, dl', rest) ->
  prepare cfg dl' draws = Ok (out, dl', rest)
  /\ (forall draws2 out2 dl2 rest2,
        prepare cfg dl' draws2 = Ok (out2, dl2, rest2) ->
        trainIdx (splitIdx out2) = trainIdx (splitIdx out)
        /\ testIdx (splitIdx out2) = testIdx (splitIdx out)
        /\ scaler dl2 = scaler dl'
        /\ xTest out2 = xTest out /\ yTest out2 = yTest out
        /\ dl2 = dl')
  /\ (forall arr, shuffle arr = shuffle_from (length arr - 1) 1337 arr).
Proof.
  intros H.
  assert (Hsame : forall draws2, prepare cfg dl' draws2 = prepare cfg dl draws2).
  { intros draws2. prepare_steps H as order fl X Y.
    destruct H as (_ & _ & _ & _ & _ & ->). by apply prepare_reads. }
  split; [by rewrite Hsame|]. split; [|done].
  intros draws2 out2 dl2 rest2 H2. rewrite Hsame in H2.
  prepare_steps H as order fl X Y. prepare_steps H2 as order2 fl2 X2 Y2.
  destruct H as (_ & Ho & Hfl & _ & -> & ->).
  destruct H2 as (_ & Ho2 & Hfl2 & _ & -> & ->).
  rewrite Ho in Ho2. injection Ho2 as <-.
  rewrite Hfl in Hfl2. injection Hfl2 as <-. done.
Qed.

End Twice.

Lemma preparation_is_deterministic_witness :
  Samples.prepare_sample (Samples.augmented 0.3) Samples.loaded Samples.draws
  = Ok (Samples.out_of Samples.augmented_run, Samples.state_of Samples.augmented_run,
        Samples.rest_of Samples.augmented_run)
  /\ Samples.prepare_sample (Samples.augmented 0.3)
       (Samples.state_of Samples.augmented_run) Samples.draws
     = Ok (Samples.out_of Samples.augmented_run, Samples.state_of Samples.augmented_run,
           Samples.rest_of Samples.augmented_run)
  /\ testIdx (splitIdx (Samples.out_of Samples.augmented_run)) = [0; 3; 9].
Proof.
  split; [exact augmented_run_returns|]. split; [|vm_compute; reflexivity].
  apply (preparation_is_deterministic _ _ _ _ _ _ _ _ _ augmented_run_returns).
Defined.

End DeterminismFacts.

(** ** Early stopping *)

Module FitFacts.
Import JS GRUClassifier.

Section Run.
Variable epoch_logs : nat -> Logs.
Variable patience : Z.

Local Abbreviation VL := (VL epoch_logs).
Local Abbreviation improves := (improves epoch_logs).
Local Abbreviation best_before := (best_before epoch_logs).
Local Abbreviation stale_epochs := (stale_epochs epoch_logs).
Local Abbreviation P := (patience_of patience).
Local Abbreviation tracks := (tracks epoch_logs).

Lemma forallb_seq_snoc (f : nat -> bool) e n :
  e <= n -> forallb f (seq e (S n - e)) = forallb f (seq e (n - e)) && f n.
Proof.
  intros He. replace (S n - e) with ((n - e) + 1) by lia.
  rewrite seq_app, forallb_app. simpl. replace (e + (n - e)) with n by lia.
  by rewrite andb_true_r.
Qed.

(** One more epoch: an improvement empties the list of stale epochs, a
    finite loss that does not improve joins it, any other loss is ignored. *)
Lemma stale_epochs_S n :
  stale_epochs (S n) =
  if improves n then []
  else if isFinite (VL n) then stale_epochs n ++ [n] else stale_epochs n.
Proof.
  unfold GRUClassifier.stale_epochs. rewrite seq_S, List.filter_app.
  cbn [List.filter Nat.add]. rewrite Nat.sub_succ_l, Nat.sub_diag by lia.
  cbn [seq forallb]. rewrite andb_true_r.
  rewrite (List.filter_ext_in _
             (fun e => negb (improves n)
                       && (isFinite (VL e)
                           && forallb (fun k => negb (improves k)) (seq e (n - e))))).
  2: { intros e He%in_seq. rewrite forallb_seq_snoc by lia.
       destruct (isFinite (VL e)), (forallb _ _), (improves n); reflexivity. }
  destruct (improves n) eqn:Hn; cbn [negb andb].
  - rewrite andb_false_r. simpl.
    induction (seq 0 n) as [|? ? IH]; [done|]. simpl. by rewrite IH.
  - rewrite andb_true_r. destruct (isFinite (VL n)); [done|by rewrite app_nil_r].
Qed.

Lemma onEpochEnd_tracks e s :
  tracks e s -> stopTraining s = false ->
  tracks (S e) (onEpochEnd patience (epoch_logs e) s)
  /\ stopTraining (onEpochEnd patience (epoch_logs e) s)
     = isFinite (VL e) && (P <=? Z.of_nat (length (stale_epochs (S e))))%Z.
Proof.
  intros (Hl & Hv & Hb & Hbad) Hstop. unfold onEpochEnd, GRUClassifier.tracks.
  fold (VL e). rewrite stale_epochs_S. unfold GRUClassifier.improves.
  cbn [GRUClassifier.best_before]. rewrite <- Hb.
  assert (Hvl : forall F : list float,
            (if isNaN (VL e) then F else F ++ [VL e])
            = F ++ (if negb (isNaN (VL e)) then [VL e] else [])).
  { intros F. destruct (isNaN (VL e)); simpl; by rewrite ?app_nil_r. }
  rewrite Hstop.
  destruct (isFinite (VL e)) eqn:Hfin; cbn [hist best bad stopTraining h_loss h_val_loss andb].
  - rewrite !seq_S, !map_app, List.filter_app, Hl, Hv, Hvl. cbn [map List.filter Nat.add].
    destruct (PrimFloat.ltb (PrimFloat.add (VL e) 1e-6) (best s)) eqn:Himp.
    + repeat split; try done. change (Z.of_nat (length [])) with 0%Z.
      by destruct (P <=? 0)%Z.
    + repeat split; try done.
      * rewrite length_app, Hbad. cbn [length]. lia.
      * rewrite length_app, Hbad. cbn [length].
        replace (Z.of_nat (length (stale_epochs e) + 1))
          with (Z.of_nat (length (stale_epochs e)) + 1)%Z by lia.
        by destruct (P <=? _)%Z.
  - rewrite !seq_S, !map_app, List.filter_app, Hl, Hv, Hvl. cbn [map List.filter Nat.add].
    repeat split; done.
Qed.

Lemma train_tracks todo e s :
  tracks e s -> stopTraining s = false ->
  (Z.of_nat (length (stale_epochs e)) < P)%Z ->
  exists run,
    e <= run <= e + todo /\ (0 < todo -> e < run)
    /\ tracks run (train epoch_logs todo e patience s)
    /\ (forall n, e <= n < run -> (Z.of_nat (length (stale_epochs n)) < P)%Z)
    /\ (run < e + todo -> (P <= Z.of_nat (length (stale_epochs run)))%Z).
Proof.
  revert e s. induction todo as [|todo IH]; intros e s Ht Hstop Hlt; cbn [train].
  - exists e. split; [lia|]. split; [lia|]. split; [exact Ht|]. split; intros; lia.
  - destruct (onEpochEnd_tracks e s Ht Hstop) as [Ht' Hstop'].
    destruct (stopTraining (onEpochEnd patience (epoch_logs e) s)) eqn:Hs.
    + symmetry in Hstop'. apply andb_true_iff in Hstop' as [_ Hle%Z.leb_le].
      exists (S e). split; [lia|]. split; [lia|]. split; [exact Ht'|]. split.
      * intros n Hn. by replace n with e by lia.
      * intros _. exact Hle.
    + assert (Hlt' : (Z.of_nat (length (stale_epochs (S e))) < P)%Z).
      { symmetry in Hstop'. apply andb_false_iff in Hstop' as [Hfin|Hle%Z.leb_gt]; [|done].
        rewrite stale_epochs_S. unfold GRUClassifier.improves. rewrite Hfin. done. }
      destruct (IH (S e) _ Ht' Hs Hlt') as (run & Hr & _ & Htr & Hbefore & Hafter).
      exists run. split; [lia|]. split; [lia|]. split; [exact Htr|]. split.
      * intros n Hn. destruct (decide (n = e)) as [->|Hne]; [done|]. apply Hbefore. lia.
      * intros Hrun. apply Hafter. lia.
Qed.

(** After an improving epoch [k], as long as every epoch has a finite loss
    and none improves, the stale epochs are all the epochs since. *)
Lemma stale_after_improvement k n :
  k < n -> improves k = true ->
  (forall e, k < e < n -> isFinite (VL e) = true /\ improves e = false) ->
  stale_epochs n = seq (S k) (n - S k).
Proof.
  intros Hkn Hk. induction n as [|n IH]; [lia|]. intros Hall.
  rewrite stale_epochs_S. destruct (decide (n = k)) as [->|Hne].
  - rewrite Hk. by rewrite Nat.sub_diag.
  - destruct (Hall n) as [Hfin Himp]; [lia|]. rewrite Himp, Hfin.
    rewrite IH by (try lia; intros e He; apply Hall; lia).
    replace (S n - S k) with (S (n - S k)) by lia. rewrite seq_S. do 2 f_equal. lia.
Qed.

End Run.

(** C4 (as amended): [fit] runs at least one and at most [max(1, epochs|0)]
    epochs and records one training loss per epoch run.  After each epoch
    whose validation loss is finite it compares that loss, with tolerance
    1e-6, to the best recorded; it halts after the first epoch at which
    [max(2, patience|0)] epochs with a finite validation loss have passed
    since the last improvement, and not before.  Hence, when the validation
    losses after the last improvement are all finite, it halts no later
    than [max(2, patience|0)] epochs after that improvement. *)
Theorem early_stopping (epoch_logs : nat -> Logs) (epochs patience : option Z) :
  let E := epochs_of (default 45%Z epochs) in
  let P := patience_of (default 6%Z patience) in
  exists h run,
    fit epoch_logs true epochs patience = Ok h
    /\ 1 <= run <= E
    /\ length (h_loss h) = run
    /\ h_loss h = map (fun k => lossOf (epoch_logs k)) (seq 0 run)
    /\ h_val_loss h
       = List.filter (fun v => negb (isNaN v)) (map (VL epoch_logs) (seq 0 run))
    /\ (forall n, n < run -> (Z.of_nat (length (stale_epochs epoch_logs n)) < P)%Z)
    /\ (run < E -> (P <= Z.of_nat (length (stale_epochs epoch_logs run)))%Z)
    /\ (forall k, k < run -> improves epoch_logs k = true ->
          (forall e, k < e < run ->
             isFinite (VL epoch_logs e) = true /\ improves epoch_logs e = false) ->
          (Z.of_nat run <= Z.of_nat k + 1 + P)%Z).
Proof.
  cbv zeta. unfold fit. cbn [negb].
  set (E := epochs_of (default 45%Z epochs)).
  set (patience' := default 6%Z patience).
  assert (HE : 1 <= E) by (unfold E, epochs_of; lia).
  assert (HP : (2 <= patience_of patience')%Z) by (unfold patience_of; lia).
  destruct (train_tracks epoch_logs patience' E 0 fit_init)
    as (run & Hr & Hpos & (Hl & Hv & _ & _) & Hbefore & Hafter).
  { by unfold tracks. }
  { done. }
  { change (Z.of_nat (length (stale_epochs epoch_logs 0))) with 0%Z. lia. }
  exists (hist (train epoch_logs E 0 patience' fit_init)), run.
  split; [done|]. split; [lia|]. split; [by rewrite Hl, length_map, length_seq|].
  split; [done|]. split; [done|]. split; [intros n Hn; apply Hbefore; lia|].
  split; [intros Hrun; apply Hafter; lia|].
  intros k Hk Himp Hall.
  destruct (decide (run <= S k)) as [|Hgt]; [lia|].
  pose proof (Hbefore (run - 1) ltac:(lia)) as Hlt.
  rewrite (stale_after_improvement epoch_logs k (run - 1)) in Hlt;
    [|lia|done|intros e He; apply Hall; lia].
  rewrite length_seq in Hlt. lia.
Qed.

(** C4 as stated fails twice.  With validation losses 1, NaN, NaN, NaN, NaN
    and patience 2 all five epochs run, although only the first improves.
    With patience 1 and validation losses 1, 1, 1, 1 three epochs run: two
    after the only improvement. *)
Lemma early_stopping_counterexample :
  (exists h,
     fit (Samples.logs_of Samples.diverging) true (Some 5%Z) (Some 2%Z) = Ok h
     /\ length (h_loss h) = 5
     /\ map (improves (Samples.logs_of Samples.diverging)) (seq 0 5)
        = [true; false; false; false; false])
  /\ (exists h,
        fit (Samples.logs_of Samples.stalling) true (Some 4%Z) (Some 1%Z) = Ok h
        /\ length (h_loss h) = 3
        /\ map (improves (Samples.logs_of Samples.stalling)) (seq 0 3)
           = [true; false; false]).
Proof. split; eexists; repeat split; vm_compute; reflexivity. Qed.

End FitFacts.

(** ** The threshold scan *)

Module ThresholdFacts.
Import JS App.

(** The loop visits exactly the candidates of [candidates]. *)
Lemma scan_candidates {S : Type} (body : float -> S -> result S) (s : S) :
  scan 128 body 0.10 s = scan_list body candidates s.
Proof. vm_compute. reflexivity. Qed.

(** A candidate replaces the best pair only with a strictly greater F1. *)
Lemma try_threshold_strict p y t best best' :
  try_threshold p y t best = Ok best' ->
  best' = best
  \/ (PrimFloat.ltb (f1 best) (f1 best') = true /\ thr best' = round2 t).
Proof.
  unfold try_threshold. destruct (confusion p y t _) as [c| |];
    cbn [mbind result_bind]; try discriminate.
  destruct (PrimFloat.ltb (f1 best) (f1_of c)) eqn:Hlt; intros [= <-]; auto.
Qed.

(** C5 fails on the upper end of the grid: adding 0.01 eighty times to 0.10
    in binary64 overshoots 0.90, so the loop visits 80 candidates, rounded
    to 0.10, 0.11, ..., 0.89, and never tries 0.90.  For a leaver scored
    0.90625 and a stayer scored 0.8984375 the scan reports threshold 0.10
    with F1 = 2/3, while threshold 0.90 separates them with F1 = 1. *)
Theorem threshold_scan_stops_short :
  length candidates = 80
  /\ map toFixed2 candidates = map (fun k => Some (Z.of_nat k)) (seq 10 80)
  /\ forallb (fun t => PrimFloat.ltb t 0.90) candidates = true
  /\ last candidates = Some 0.89000000000000068%float
  /\ PrimFloat.leb (PrimFloat.add 0.89000000000000068 0.01) 0.90 = false
  /\ (forall p y,
        autoThreshold (Some (p, y))
        = (b ← scan_list (try_threshold p y) candidates {| thr := 0.5; f1 := 0 |};
           Ok (Some b)))
  /\ autoThreshold (Some (Samples.scores, Samples.truth))
     = Ok (Some {| thr := 0.1; f1 := 0.66666666666666663 |})
  /\ try_threshold Samples.scores Samples.truth 0.90 {| thr := 0.5; f1 := 0 |}
     = Ok {| thr := 0.9; f1 := 1 |}.
Proof.
  split; [vm_compute; reflexivity|]. split; [vm_compute; reflexivity|].
  split; [vm_compute; reflexivity|]. split; [vm_compute; reflexivity|].
  split; [vm_compute; reflexivity|]. split.
  { intros p y. unfold autoThreshold. by rewrite scan_candidates. }
  split; vm_compute; reflexivity.
Qed.

End ThresholdFacts.

(** ** Lines, cells and the loaded state *)

Module ParseFacts.
Import JS DataLoader.
Local Open Scope char_scope.

Local Abbreviation CR := "013"%char.
Local Abbreviation LF := "010"%char.

Lemma split_cons sep a s :
  Str.split sep (String a s) =
  if Ascii.eqb a sep then EmptyString :: Str.split sep s
  else String a (default EmptyString (head (Str.split sep s))) :: tail (Str.split sep s).
Proof.
  simpl. destruct (Ascii.eqb a sep); [done|]. by destruct (Str.split sep s).
Qed.






Lemma replace_crlf_cons a b s :
  Str.replace_crlf (String a (String b s)) =
  if Ascii.eqb a "013" && Ascii.eqb b "010" then String "010" (Str.replace_crlf s)
  else String a (Str.replace_crlf (String b s)).
Proof. reflexivity. Qed.

(** Without a carriage return there is nothing for the first replacement
    to do. *)
Lemma replace_crlf_id s :
  (forall a, a ∈ list_ascii_of_string s -> a <> CR) -> Str.replace_crlf s = s.
Proof.
  induction s as [|b s IH]; intros Hs; [done|].
  assert (Hb : Ascii.eqb b "013" = false).
  { apply Ascii.eqb_neq, Hs. left. }
  assert (IH' : Str.replace_crlf s = s).
  { apply IH. intros a Ha. apply Hs. by right. }
  destruct s as [|c s]; [done|]. by rewrite replace_crlf_cons, Hb, IH'.
Qed.













(** *** Rows and the loaded state *)

Lemma fold_insert_lookup {V : Type} (g : string -> V) (l : list string)
  (m : gmap string V) (k : string) :
  fold_left (fun (acc : gmap string V) f => <[f := g f]> acc) l m !! k
  = if bool_decide (k ∈ l) then Some (g k) else m !! k.
Proof.
  revert m. induction l as [|f l IH]; intros m; simpl; [done|].
  rewrite IH. case_bool_decide as Hl.
  - rewrite bool_decide_true; [done|by right].
  - destruct (decide (k = f)) as [->|Hne].
    + rewrite lookup_insert_eq. by rewrite bool_decide_true; [|left].
    + rewrite lookup_insert_ne by done.
      rewrite bool_decide_false; [done|]. by intros [->|?]%elem_of_cons.
Qed.

Lemma meta_of_lookup r k :
  meta_of r !! k = if bool_decide (k ∈ metaFields) then Some (get r k) else None.
Proof. unfold meta_of. by rewrite (fold_insert_lookup (fun f => get r f)). Qed.

Lemma restrict_lookup hs allowed r k :
  restrict hs allowed r !! k
  = if bool_decide (k ∈ hs) && includes allowed k then r !! k else None.
Proof.
  unfold restrict.
  set (f := fun (obj : row) k =>
              if includes allowed k
              then match r !! k with Some v => <[k := v]> obj | None => obj end
              else obj).
  assert (H : forall m : row,
    m !! k = None \/ m !! k = r !! k ->
    fold_left f hs m !! k
    = if bool_decide (k ∈ hs) && includes allowed k then r !! k else m !! k).
  { induction hs as [|h hs IH]; intros m Hm; cbn [fold_left]; [done|].
    assert (Hfm : f m h !! k = None \/ f m h !! k = r !! k).
    { unfold f. destruct (includes allowed h); [|done].
      destruct (r !! h) as [v|] eqn:Hv; [|done].
      destruct (decide (k = h)) as [->|Hne].
      - right. by rewrite lookup_insert_eq.
      - by rewrite lookup_insert_ne. }
    rewrite (IH _ Hfm).
    destruct (decide (k = h)) as [->|Hne].
    - rewrite (bool_decide_true (h ∈ h :: hs)) by left. cbn [andb].
      unfold f. destruct (includes allowed h) eqn:Ha.
      + rewrite andb_true_r.
        destruct (r !! h) as [v|] eqn:Hv.
        * rewrite lookup_insert_eq. by destruct (bool_decide (h ∈ hs)).
        * destruct (bool_decide (h ∈ hs)); [done|]. destruct Hm; congruence.
      + by rewrite andb_false_r.
    - assert (Heq : bool_decide (k ∈ h :: hs) = bool_decide (k ∈ hs)).
      { apply bool_decide_ext. rewrite elem_of_cons. split; [by intros [?|?]|by right]. }
      rewrite Heq. destruct (bool_decide (k ∈ hs) && includes allowed k); [done|].
      unfold f. destruct (includes allowed h); [|done].
      destruct (r !! h); [|done]. by rewrite lookup_insert_ne. }
  rewrite H by (left; apply lookup_empty). by rewrite lookup_empty.
Qed.

Lemma fold_cells_untouched (hp : list (string * string)) (m : row) k :
  k ∉ hp.*1 ->
  fold_left (fun (obj : row) hp => <[hp.1 := Str.trim hp.2]> obj) hp m !! k = m !! k.
Proof.
  revert m. induction hp as [|[h p] hp IH]; intros m Hk; cbn [fold_left]; [done|].
  rewrite fmap_cons in Hk. apply not_elem_of_cons in Hk as [Hne Hk].
  rewrite IH by done. by rewrite lookup_insert_ne.
Qed.

Lemma zip_fst_subset (hs parts : list string) k : k ∈ (zip hs parts).*1 -> k ∈ hs.
Proof.
  intros Hin. apply list_elem_of_fmap in Hin as ([h p] & -> & Hin).
  by apply elem_of_zip_l in Hin.
Qed.

Lemma row_of_lookup_None hs parts k : k ∉ hs -> row_of hs parts !! k = None.
Proof.
  intros Hk. unfold row_of. rewrite fold_cells_untouched; [done|].
  intros Hin. by apply Hk, (zip_fst_subset hs parts).
Qed.

Lemma row_of_lookup hs parts j k p :
  NoDup hs -> hs !! j = Some k -> parts !! j = Some p ->
  row_of hs parts !! k = Some (Str.trim p).
Proof.
  unfold row_of. generalize (∅ : row).
  revert parts j. induction hs as [|h hs IH]; intros parts j m Hnd Hk Hp; [done|].
  apply NoDup_cons in Hnd as [Hh Hnd].
  destruct parts as [|q parts]; [by destruct j|].
  destruct j as [|j]; cbn [zip zip_with fold_left fst snd] in *.
  - injection Hk as ->. injection Hp as ->.
    rewrite fold_cells_untouched; [by rewrite lookup_insert_eq|].
    intros Hin. by apply Hh, (zip_fst_subset hs parts).
  - by eapply IH.
Qed.

Lemma parse_rows_map hs lines :
  parse_rows hs lines
  = map (fun line => row_of hs (Str.split ","%char line))
        (List.filter (fun line => (length (Str.split ","%char line) =? length hs)%nat)
                     lines).
Proof.
  induction lines as [|line rest IH]; [done|]. cbn [parse_rows List.filter].
  destruct (length (Str.split ","%char line) =? length hs)%nat; cbn [negb map]; by rewrite IH.
Qed.



Lemma parse_rows_row_of hs lines row :
  row ∈ parse_rows hs lines -> exists parts, row = row_of hs parts.
Proof.
  rewrite parse_rows_map. intros (line & -> & _)%list_elem_of_fmap. eauto.
Qed.

(** X3: a successful load keeps the header as parsed, which holds the label
    column; the categorical columns are the known categoricals the header
    names; each parsed row gives one raw row, reduced to the known columns
    (base numerics, known categoricals, label, meta fields, dropped
    fields), and one meta row with exactly the five meta fields, a missing
    one reading as the empty string. *)
Theorem loaded_rows (text : string) (dl0 dl : t) :
  fromFile (Some text) dl0 = Ok dl ->
  let known := (baseNum ++ catKnown ++ [labelKey] ++ metaFields ++ dropped)%list in
  exists rows,
    parseCSV text = Ok (headers dl, rows)
    /\ labelKey ∈ headers dl
    /\ (forall c, c ∈ catCols dl <-> c ∈ headers dl /\ c ∈ catKnown)
    /\ length (raw dl) = length rows /\ length (metaRows dl) = length rows
    /\ forall i row, rows !! i = Some row ->
         exists r m,
           raw dl !! i = Some r /\ metaRows dl !! i = Some m
           /\ (forall k, r !! k = if bool_decide (k ∈ known) then row !! k else None)
           /\ (forall f, m !! f = if bool_decide (f ∈ metaFields)
                                  then Some (default ""%string (row !! f)) else None).
Proof.
  intros H. cbv zeta. unfold fromFile in H.
  destruct (parseCSV text) as [[hs rows]| |] eqn:Hparse; cbn [mbind result_bind] in H;
    try discriminate.
  destruct (includes hs labelKey) eqn:Hlabel; cbn [negb] in H; [|discriminate].
  injection H as <-. cbn [headers raw catCols metaRows].
  exists rows. split; [done|]. split; [by apply bool_decide_eq_true in Hlabel|].
  assert (Hcats : forall c, c ∈ List.filter (includes catKnown) hs
                            <-> c ∈ hs /\ c ∈ catKnown).
  { intros c. rewrite list_elem_of_In, filter_In, <- list_elem_of_In.
    unfold includes. by rewrite bool_decide_eq_true. }
  split; [done|]. split; [by rewrite length_map|]. split; [by rewrite !length_map|].
  intros i row Hrow.
  assert (Hparts : exists parts, row = row_of hs parts).
  { unfold parseCSV in Hparse. destruct (length (lines_of text) <? 2)%nat; [discriminate|].
    injection Hparse as <- <-. eapply parse_rows_row_of, list_elem_of_lookup_2, Hrow. }
  destruct Hparts as [parts ->].
  set (allowed := (baseNum ++ List.filter (includes catKnown) hs ++ [labelKey]
                   ++ metaFields ++ dropped)%list).
  assert (Hr : forall k, restrict hs allowed (row_of hs parts) !! k
                 = if bool_decide (k ∈ (baseNum ++ catKnown ++ [labelKey]
                                         ++ metaFields ++ dropped)%list)
                   then row_of hs parts !! k else None).
  { intros k. rewrite restrict_lookup.
    destruct (decide (k ∈ hs)) as [Hk|Hk].
    - rewrite (bool_decide_true _ Hk). cbn [andb]. unfold includes.
      assert (Heq : bool_decide (k ∈ allowed)
                    = bool_decide (k ∈ (baseNum ++ catKnown ++ [labelKey]
                                          ++ metaFields ++ dropped)%list)).
      { apply bool_decide_ext. unfold allowed. rewrite !elem_of_app, Hcats. tauto. }
      by rewrite Heq.
    - rewrite (bool_decide_false _ Hk). cbn [andb].
      rewrite (row_of_lookup_None hs parts k Hk). by destruct (bool_decide _). }
  exists (restrict hs allowed (row_of hs parts)),
         (meta_of (restrict hs allowed (row_of hs parts))).
  split; [by rewrite list_lookup_fmap, Hrow|].
  split; [by rewrite !list_lookup_fmap, Hrow|]. split; [exact Hr|].
  intros f. rewrite meta_of_lookup. case_bool_decide as Hf; [|done].
  unfold get. rewrite Hr. rewrite bool_decide_true; [done|].
  rewrite !elem_of_app. tauto.
Qed.

(** The sample file loads. *)
Lemma loaded_returns : fromFile (Some Samples.csv) init = Ok Samples.loaded.
Proof.
  unfold Samples.loaded.
  assert (H : exists dl, fromFile (Some Samples.csv) init = Ok dl).
  { unfold fromFile, parseCSV.
    assert (Hlines : (length (lines_of Samples.csv) <? 2)%nat = false)
      by (vm_compute; reflexivity).
    rewrite Hlines. cbn [mbind result_bind].
    assert (Hlabel : includes (header_of (default ""%string (head (lines_of Samples.csv))))
                              labelKey = true) by (vm_compute; reflexivity).
    rewrite Hlabel. cbn [negb]. eauto. }
  destruct H as [dl ->]. reflexivity.
Qed.


Lemma loaded_rows_witness :
  fromFile (Some Samples.csv) init = Ok Samples.loaded
  /\ labelKey ∈ headers Samples.loaded
  /\ exists rows, parseCSV Samples.csv = Ok (headers Samples.loaded, rows)
                  /\ length (raw Samples.loaded) = length rows.
Proof.
  split; [exact loaded_returns|].
  destruct (loaded_rows _ _ _ loaded_returns) as (rows & Hparse & Hlabel & _ & Hlen & _).
  split; [exact Hlabel|]. exists rows. by split.
Defined.

End ParseFacts.

(** ** Class balance, label layout and the test rows *)

Module BalanceFacts.
Import JS DataLoader SplitFacts AugmentFacts FeatureFacts ParseFacts.

(** The label of a row is 1 when its Attrition cell is exactly "Yes", else 0. *)
Lemma label_of_says_yes r : label_of r = if says_yes r then 1%Z else 0%Z.
Proof.
  unfold label_of, says_yes. destruct (r !! labelKey) as [s|]; [|done].
  destruct (String.eqb_spec s "Yes") as [->|Hyes]; [done|].
  destruct s as [|a s]; [done|]. cbn [Str.truthy]. unfold attritionMap.
  rewrite lookup_insert_ne by done.
  destruct (decide ("No"%string = String a s)) as [<-|Hno]; [done|].
  by rewrite lookup_singleton_ne.
Qed.


Lemma count_classes_bucket rows i :
  count_classes rows
  = (Z.of_nat (length (bucket (map label_of rows) i).1),
     Z.of_nat (length (bucket (map label_of rows) i).2)).
Proof.
  unfold count_classes.
  assert (H : forall a b i,
    fold_left (fun (acc : Z * Z) r =>
                 if says_yes r then (acc.1 + 1, acc.2)%Z else (acc.1, acc.2 + 1)%Z)
              rows (a, b)
    = (a + Z.of_nat (length (bucket (map label_of rows) i).1),
       b + Z.of_nat (length (bucket (map label_of rows) i).2))%Z).
  { clear i. induction rows as [|r rows IH]; intros a b i; cbn [fold_left map bucket].
    - simpl. f_equal; lia.
    - specialize (IH (if says_yes r then a + 1 else a)%Z
                     (if says_yes r then b else b + 1)%Z (S i)).
      destruct (bucket (map label_of rows) (S i)) as [pos neg].
      rewrite label_of_says_yes. cbn [fst snd] in *.
      destruct (says_yes r); rewrite IH; simpl; f_equal; lia. }
  by rewrite (H 0%Z 0%Z i).
Qed.

Lemma bucket_says_yes rows i :
  length (bucket (map label_of rows) i).1 = length (List.filter says_yes rows).
Proof.
  revert i. induction rows as [|r rows IH]; intros i; [done|]. cbn [map bucket List.filter].
  specialize (IH (S i)). destruct (bucket (map label_of rows) (S i)) as [pos neg].
  rewrite label_of_says_yes. cbn [fst] in *.
  destruct (says_yes r); simpl; by rewrite IH.
Qed.

Section Balance.
Variables Math_log Math_cos : float -> float.
Variable Number : string -> float.

(** X4: [eda] throws 'Load data first.' when no row is loaded; otherwise
    its class balance counts as positive the rows whose Attrition cell is
    exactly "Yes", positive and negative add up to the number of rows, and
    they are the sizes of the positive and the negative bucket of every
    preparation of the same rows. *)
Theorem class_balance_matches_split (dl : t) :
  (raw dl = [] -> eda_balance dl = Throw "Load data first.")
  /\ (raw dl <> [] ->
      exists b,
        eda_balance dl = Ok b
        /\ positive b = Z.of_nat (length (List.filter says_yes (raw dl)))
        /\ (positive b + negative b = Z.of_nat (length (raw dl)))%Z
        /\ forall cfg draws out dl' rest,
             prepareTensors Math_log Math_cos Number cfg dl draws = Ok (out, dl', rest) ->
             Z.of_nat (length (posIdx (splitIdx out))) = positive b
             /\ Z.of_nat (length (negIdx (splitIdx out))) = negative b).
Proof.
  split.
  - intros Hraw. unfold eda_balance. by rewrite Hraw.
  - intros Hraw. unfold eda_balance.
    assert (Hlen : (length (raw dl) =? 0) = false) by (by destruct (raw dl)).
    rewrite Hlen, (count_classes_bucket (raw dl) 0).
    eexists. split; [done|]. cbn [positive negative].
    pose proof (bucket_Permutation (map label_of (raw dl)) 0) as Hp.
    apply Permutation_length in Hp. rewrite length_app, length_seq, length_map in Hp.
    split; [by rewrite bucket_says_yes|]. split; [lia|].
    intros cfg draws out dl' rest Hsp%prepareTensors_split. rewrite Hsp.
    unfold stratifiedSplit. destruct (bucket (map label_of (raw dl)) 0) as [pos neg].
    cbn [posIdx negIdx fst snd]. by rewrite !shuffle_length.
Qed.









Lemma fromFile_metaRows text dl0 dl :
  fromFile (Some text) dl0 = Ok dl -> metaRows dl = map meta_of (raw dl).
Proof.
  unfold fromFile. destruct (parseCSV text) as [[hs rows]| |]; cbn [mbind result_bind];
    try discriminate.
  destruct (negb _); [discriminate|]. by intros [= <-].
Qed.

(** The test row at position [i] comes from the dataset row [testIdx[i]]:
    its features, its label and its meta row. *)
Lemma prepared_test_row text dl0 cfg dl draws out dl' rest i j :
  fromFile (Some text) dl0 = Ok dl ->
  prepareTensors Math_log Math_cos Number cfg dl draws = Ok (out, dl', rest) ->
  testIdx (splitIdx out) !! i = Some j ->
  exists r v sc,
    raw dl !! j = Some r
    /\ rowToFeatures Number dl' r = Ok (v, label_of r)
    /\ scaler dl' = Some sc
    /\ xTest out !! i
       = Some (imap (fun c x => PrimFloat.div (PrimFloat.sub x (nth c (mean sc) NaN))
                                              (nth c (std sc) NaN)) v)
    /\ yTest out !! i = Some [label_of r]
    /\ testMeta out !! i = Some (meta_of r).
Proof.
  intros Hload H. apply fromFile_metaRows in Hload.
  prepare_steps H as order fl X Y.
  destruct H as (_ & _ & Hfl & _ & -> & ->).
  pose proof (featurize_labels _ _ _ _ Hfl) as Hlabels.
  cbn [xTest yTest testMeta splitIdx scaler prepared].
  set (sp := stratifiedSplit (map snd fl) (default 0.2%float (testSplit cfg))) in *.
  set (sc := fitScaler (rows_at (map fst fl) (trainIdx sp))).
  unfold applyScaler, rows_at, labels_at. intros Hj.
  destruct (split_indices_in_range (map snd fl) (default 0.2%float (testSplit cfg)))
    as [Hte _]. fold sp in Hte. rewrite length_map in Hte.
  rewrite Forall_forall in Hte. specialize (Hte j (list_elem_of_lookup_2 _ _ _ Hj)).
  apply mapM_Ok_Forall2 in Hfl.
  destruct (lookup_lt_is_Some_2 fl j Hte) as [[v y] Hvy].
  destruct (Forall2_lookup_r _ _ _ _ _ Hfl Hvy) as (r & Hr & Hrow).
  pose proof (rowToFeatures_label _ _ _ _ _ Hrow) as ->.
  exists r, v, sc. split; [done|]. split.
  { by rewrite <- Hrow; apply rowToFeatures_ext. }
  split; [done|]. rewrite !list_lookup_fmap, Hj. cbn [fmap option_fmap option_map].
  assert (Hv : nth j (map fst fl) [] = v).
  { apply nth_lookup_Some with (d := []). by rewrite list_lookup_fmap, Hvy. }
  assert (Hy : nth j (map snd fl) 0%Z = label_of r).
  { apply nth_lookup_Some with (d := 0%Z). by rewrite list_lookup_fmap, Hvy. }
  rewrite Hv, Hy. split; [done|]. split; [done|].
  f_equal. rewrite Hload. apply nth_lookup_Some with (d := ∅).
  by rewrite list_lookup_fmap, Hr.
Qed.

Lemma prepared_test_lengths cfg dl draws out dl' rest :
  prepareTensors Math_log Math_cos Number cfg dl draws = Ok (out, dl', rest) ->
  length (xTest out) = length (testIdx (splitIdx out))
  /\ length (yTest out) = length (testIdx (splitIdx out))
  /\ length (testMeta out) = length (testIdx (splitIdx out)).
Proof.
  intros H. prepare_steps H as order fl X Y.
  destruct H as (_ & _ & _ & _ & -> & _). cbn [xTest yTest testMeta splitIdx].
  unfold applyScaler, rows_at, labels_at. by rewrite !length_map.
Qed.

(** X6: the test matrix, the test labels and the test meta rows have one
    entry per test index, and entry [i] of each comes from the dataset row
    [testIdx[i]]: its feature vector scaled with the fitted statistics,
    its label, and its meta fields. *)
Theorem test_rows_aligned text dl0 cfg dl draws out dl' rest :
  fromFile (Some text) dl0 = Ok dl ->
  prepareTensors Math_log Math_cos Number cfg dl draws = Ok (out, dl', rest) ->
  length (xTest out) = length (testIdx (splitIdx out))
  /\ length (yTest out) = length (testIdx (splitIdx out))
  /\ length (testMeta out) = length (testIdx (splitIdx out))
  /\ forall i j, testIdx (splitIdx out) !! i = Some j ->
       exists r v sc,
         raw dl !! j = Some r
         /\ rowToFeatures Number dl' r = Ok (v, label_of r)
         /\ scaler dl' = Some sc
         /\ xTest out !! i
            = Some (imap (fun c x => PrimFloat.div (PrimFloat.sub x (nth c (mean sc) NaN))
                                                   (nth c (std sc) NaN)) v)
         /\ yTest out !! i = Some [label_of r]
         /\ testMeta out !! i = Some (meta_of r).
Proof.
  intros Hload H. destruct (prepared_test_lengths _ _ _ _ _ _ H) as (Hx & Hy & Hm).
  split; [done|]. split; [done|]. split; [done|]. intros i j Hj.
  by eapply prepared_test_row.
Qed.

End Balance.


Lemma test_rows_aligned_witness :
  fromFile (Some Samples.csv) init = Ok Samples.loaded
  /\ Samples.prepare_sample (Samples.plain 0.3) Samples.loaded []
     = Ok (Samples.out_of Samples.plain_run, Samples.state_of Samples.plain_run,
           Samples.rest_of Samples.plain_run)
  /\ length (xTest (Samples.out_of Samples.plain_run))
     = length (testIdx (splitIdx (Samples.out_of Samples.plain_run)))
  /\ length (testMeta (Samples.out_of Samples.plain_run))
     = length (testIdx (splitIdx (Samples.out_of Samples.plain_run))).
Proof.
  split; [exact loaded_returns|]. split; [exact plain_run_returns|].
  destruct (test_rows_aligned _ _ _ _ _ _ _ _ _ _ _ loaded_returns plain_run_returns)
    as (Hx & _ & Hm & _).
  by split.
Defined.

End BalanceFacts.

(** ** Encoders, feature names and the columns a row is read from *)

Module EncoderFacts.
Import JS DataLoader SplitFacts AugmentFacts FeatureFacts ParseFacts.
Local Open Scope string_scope.



Lemma sort_facts rows c :
  NoDup (sort (distinct_values rows c))
  /\ StronglySorted String.le (sort (distinct_values rows c))
  /\ forall v, v ∈ sort (distinct_values rows c) <-> exists r, r ∈ rows /\ get r c = v.
Proof.
  destruct (distinct_values_spec rows c) as [Hnd Hel]. unfold sort.
  split; [by rewrite merge_sort_Permutation|].
  split; [apply StronglySorted_merge_sort; apply _|].
  intros v. by rewrite merge_sort_Permutation.
Qed.




Lemma fst_zip_positions (l : list string) i : map fst (zip l (seq i (length l))) = l.
Proof. apply fst_zip. by rewrite length_seq. Qed.





Section AnyRow.
Variables Math_log Math_cos : float -> float.
Variable Number : string -> float.


Lemma fromFile_catCols text dl0 dl c :
  fromFile (Some text) dl0 = Ok dl -> c ∈ catCols dl -> c ∈ catKnown.
Proof.
  unfold fromFile. destruct (parseCSV text) as [[hs rows]| |]; cbn [mbind result_bind];
    try discriminate.
  destruct (negb _); [discriminate|]. intros [= <-]. cbn [catCols].
  rewrite list_elem_of_In, filter_In. intros [_ Hc]. by apply bool_decide_eq_true in Hc.
Qed.

Lemma mapM_ext_in {A B : Type} (f g : A -> result B) l :
  (forall x, x ∈ l -> f x = g x) -> mapM f l = mapM g l.
Proof.
  induction l as [|x l IH]; intros H; [done|].
  rewrite !mapM_cons, (H x) by left. rewrite IH; [done|].
  intros y Hy. apply H. by right.
Qed.

(** A column that is neither a base numeric, a known categorical nor the
    label plays no part in featurizing a row. *)
Lemma rowToFeatures_other_column d (r r' : row) k :
  k ∉ baseNum -> k ∉ catKnown -> k <> labelKey ->
  (forall c, c ∈ catCols d -> c ∈ catKnown) ->
  (forall c, c <> k -> r' !! c = r !! c) ->
  rowToFeatures Number d r' = rowToFeatures Number d r.
Proof.
  intros Hbase Hcat Hlabel Hcols Hsame.
  assert (Hb : forall c, bool_decide (c ∈ baseNum) = true -> r' !! c = r !! c).
  { intros c Hc%bool_decide_eq_true. apply Hsame. by intros ->. }
  assert (Hc : forall c, bool_decide (c ∈ catKnown) = true -> r' !! c = r !! c).
  { intros c Hc%bool_decide_eq_true. apply Hsame. by intros ->. }
  unfold rowToFeatures.
  assert (Hblocks : mapM (one_hot (encoders d) r') (catCols d)
                    = mapM (one_hot (encoders d) r) (catCols d)).
  { apply mapM_ext_in. intros c Hin. unfold one_hot, get.
    rewrite Hsame; [done|]. intros ->. by apply Hcat, Hcols. }
  assert (Hbf : base_features Number r' = base_features Number r).
  { unfold base_features. apply map_ext_in. intros c Hin%list_elem_of_In.
    unfold num. rewrite Hsame; [done|]. by intros ->. }
  assert (Hef : engineered_features Number r' = engineered_features Number r).
  { unfold engineered_features, num, get.
    by rewrite !(Hb "YearsAtCompany"), !(Hb "TotalWorkingYears"),
      !(Hb "YearsSinceLastPromotion"), !(Hb "JobLevel"), !(Hb "MonthlyIncome"),
      !(Hb "JobSatisfaction"), !(Hb "DistanceFromHome"),
      !(Hc "OverTime"), !(Hc "BusinessTravel"), !(Hc "MaritalStatus"). }
  assert (Hl : label_of r' = label_of r).
  { unfold label_of. by rewrite Hsame. }
  by rewrite Hblocks, Hbf, Hef, Hl.
Qed.

(** X10: after loading and preparing, the dropped columns (EmployeeNumber,
    EmployeeCount, StandardHours, Over18) have no influence on a feature
    vector or a label: setting or deleting one in a row leaves what the
    row featurizes to unchanged. *)
Theorem dropped_columns_ignored text dl0 cfg dl draws out dl' rest :
  fromFile (Some text) dl0 = Ok dl ->
  prepareTensors Math_log Math_cos Number cfg dl draws = Ok (out, dl', rest) ->
  forall (r : row) k v,
    k ∈ dropped ->
    rowToFeatures Number dl' (<[k := v]> r) = rowToFeatures Number dl' r
    /\ rowToFeatures Number dl' (delete k r) = rowToFeatures Number dl' r.
Proof.
  intros Hload H r k v Hk. prepare_steps H as order fl X Y.
  destruct H as (_ & _ & _ & _ & _ & ->).
  assert (Hout : (k ∉ baseNum) /\ (k ∉ catKnown) /\ k <> labelKey).
  { unfold dropped in Hk.
    repeat (apply elem_of_cons in Hk as [->|Hk];
            [by repeat split; apply (bool_decide_unpack _)|]).
    by apply elem_of_nil in Hk. }
  destruct Hout as (Hbase & Hcat & Hlabel).
  assert (Hcols : forall c, c ∈ catCols (prepared dl (default defaultAug (augment cfg))
                                           order
                                           (fitScaler (rows_at (map fst fl)
                                              (trainIdx (stratifiedSplit (map snd fl)
                                                 (default 0.2%float (testSplit cfg)))))))
                            -> c ∈ catKnown).
  { intros c. apply (fromFile_catCols text dl0 dl c Hload). }
  split; apply (rowToFeatures_other_column _ _ _ k Hbase Hcat Hlabel Hcols); intros c Hne.
  - by apply lookup_insert_ne.
  - by apply lookup_delete_ne.
Qed.

Lemma obj_get_elem_of {V : Type} (o : list (string * V)) k v :
  NoDup (map fst o) -> obj_get o k = Some v <-> (k, v) ∈ o.
Proof.
  induction o as [|[k0 v0] o IH]; intros Hnd; cbn [obj_get].
  - split; [done|]. by intros ?%elem_of_nil.
  - cbn [map fst] in Hnd. apply NoDup_cons in Hnd as [Hk0 Hnd].
    rewrite elem_of_cons. destruct (String.eqb_spec k0 k) as [->|Hne].
    + split.
      * intros [= ->]. by left.
      * intros [[= ->]|Hin]; [done|]. destruct Hk0.
        apply list_elem_of_fmap. by exists (k, v).
    + rewrite (IH Hnd). split; [by right|]. by intros [[= -> ->]|?].
Qed.

(** X11: after loading and preparing, the feature report lists as kept the
    23 base numerics, the 7 created features and the categorical columns
    of the file; the first 30 feature names returned are the base numerics
    and the created features; no kept name is a dropped one; and the
    created names are exactly the names with a description, each its own. *)
Theorem report_after_preparation text dl0 cfg dl draws out dl' rest :
  fromFile (Some text) dl0 = Ok dl ->
  prepareTensors Math_log Math_cos Number cfg dl draws = Ok (out, dl', rest) ->
  let rep := featureReport dl' in
  r_kept rep = (baseNum ++ r_created rep ++ catCols dl)%list
  /\ length (r_kept rep) = 30 + length (catCols dl)
  /\ take 30 (outFeatureOrder out) = (baseNum ++ r_created rep)%list
  /\ (forall k, k ∈ r_kept rep -> k ∉ r_dropped rep)
  /\ (forall k d, obj_get (createdDescriptions rep) k = Some d
                  <-> (k, d) ∈ engineeredSpec)
  /\ (forall k, k ∈ r_created rep <-> is_Some (obj_get (createdDescriptions rep) k)).
Proof.
  intros Hload H. prepare_steps H as order fl X Y.
  destruct H as (_ & Horder & _ & _ & -> & ->). cbv zeta.
  cbn [featureReport r_kept r_dropped r_created createdDescriptions kept prepared
       outFeatureOrder].
  assert (Hdesc : forall k d, obj_get (Object_fromEntries engineeredSpec) k = Some d
                              <-> (k, d) ∈ engineeredSpec).
  { intros k d. change (Object_fromEntries engineeredSpec) with engineeredSpec.
    apply obj_get_elem_of. by apply (bool_decide_unpack _). }
  split; [done|]. split; [by rewrite !length_app|]. split.
  { unfold featureOrder_of in Horder. destruct (mapM _ _) as [names| |];
      cbn [mbind result_bind] in Horder; try discriminate.
    by injection Horder as <-. }
  split.
  { intros k Hk Hd. rewrite !elem_of_app in Hk.
    assert (Hout : (k ∉ baseNum) /\ (k ∉ created) /\ (k ∉ catKnown)).
    { unfold dropped in Hd.
      repeat (apply elem_of_cons in Hd as [->|Hd];
              [by repeat split; apply (bool_decide_unpack _)|]).
      by apply elem_of_nil in Hd. }
    destruct Hout as (? & ? & Hcat). destruct Hk as [?|[?|Hc]]; [done..|].
    by apply Hcat, (fromFile_catCols text dl0 dl k Hload). }
  split; [exact Hdesc|]. intros k. split.
  - unfold created. intros ([k' d] & -> & Hin)%list_elem_of_fmap.
    exists d. by apply Hdesc.
  - intros [d Hd%Hdesc]. unfold created. apply list_elem_of_fmap. by exists (k, d).
Qed.

End AnyRow.



Lemma dropped_columns_ignored_witness :
  fromFile (Some Samples.csv) init = Ok Samples.loaded
  /\ Samples.prepare_sample (Samples.plain 0.3) Samples.loaded []
     = Ok (Samples.out_of Samples.plain_run, Samples.state_of Samples.plain_run,
           Samples.rest_of Samples.plain_run)
  /\ "Over18"%string ∈ dropped
  /\ rowToFeatures Samples.decimal (Samples.state_of Samples.plain_run)
       (<["Over18"%string := "Y"%string]> Samples.leaver)
     = rowToFeatures Samples.decimal (Samples.state_of Samples.plain_run) Samples.leaver.
Proof.
  assert (Hk : "Over18"%string ∈ dropped) by (by apply (bool_decide_unpack _)).
  split; [exact loaded_returns|]. split; [exact plain_run_returns|]. split; [exact Hk|].
  apply (dropped_columns_ignored _ _ _ _ _ _ _ _ _ _ _ loaded_returns plain_run_returns
           Samples.leaver "Over18"%string "Y"%string Hk).
Defined.

Lemma report_after_preparation_witness :
  fromFile (Some Samples.csv) init = Ok Samples.loaded
  /\ Samples.prepare_sample (Samples.plain 0.3) Samples.loaded []
     = Ok (Samples.out_of Samples.plain_run, Samples.state_of Samples.plain_run,
           Samples.rest_of Samples.plain_run)
  /\ length (r_kept (featureReport (Samples.state_of Samples.plain_run)))
     = 30 + length (catCols Samples.loaded)
  /\ catCols Samples.loaded = ["OverTime"%string].
Proof.
  split; [exact loaded_returns|]. split; [exact plain_run_returns|].
  destruct (report_after_preparation _ _ _ _ _ _ _ _ _ _ _ loaded_returns
              plain_run_returns) as (_ & Hlen & _).
  split; [exact Hlen|]. vm_compute. reflexivity.
Defined.

End EncoderFacts.

(** ** Clamped parameters and the scaler *)

Module NumberFacts.
Import JS DataLoader SplitFacts AugmentFacts FeatureFacts.

(** *** Order and NaN on binary64 numbers *)

Lemma SFcompare_antisym x y : SFcompare y x = option_map CompOpp (SFcompare x y).
Proof.
  destruct x as [sx|sx| |sx mx ex], y as [sy|sy| |sy my ey]; cbn [SFcompare option_map];
    try reflexivity; try (by destruct sx); try (by destruct sy);
    try (by destruct sx, sy).
  f_equal. destruct sx, sy; try reflexivity.
  - rewrite (Z.compare_antisym ex ey). destruct (ex ?= ey)%Z; cbn [CompOpp]; try reflexivity.
    f_equal. change (PosDef.Pos.compare_cont Eq my mx) with (Pos.compare my mx).
    change (PosDef.Pos.compare_cont Eq mx my) with (Pos.compare mx my).
    apply Pos.compare_antisym.
  - rewrite (Z.compare_antisym ex ey). destruct (ex ?= ey)%Z; cbn [CompOpp]; try reflexivity.
    change (PosDef.Pos.compare_cont Eq my mx) with (Pos.compare my mx).
    change (PosDef.Pos.compare_cont Eq mx my) with (Pos.compare mx my).
    apply Pos.compare_antisym.
Qed.

Lemma SFcompare_refl x : x <> S754_nan -> SFcompare x x = Some Eq.
Proof.
  destruct x as [s|s| |s m e]; cbn [SFcompare]; try done.
  - intros _. by destruct s.
  - intros _. rewrite Z.compare_refl.
    change (PosDef.Pos.compare_cont Eq m m) with (Pos.compare m m).
    rewrite Pos.compare_refl. by destruct s.
Qed.

Lemma isNaN_spec x : isNaN x = true <-> Prim2SF x = S754_nan.
Proof.
  unfold isNaN, is_nan. rewrite FloatAxioms.eqb_spec. unfold SFeqb. split.
  - intros H. destruct (Prim2SF x) as [s|s| |s m e] eqn:Hx; [| |done|].
    + rewrite SFcompare_refl in H by done. done.
    + rewrite SFcompare_refl in H by done. done.
    + rewrite SFcompare_refl in H by done. done.
  - by intros ->.
Qed.

Lemma isNaN_eq x : isNaN x = true -> x = NaN.
Proof.
  intros H%isNaN_spec. apply Prim2SF_inj. by rewrite H.
Qed.

Lemma isNaN_false x : isNaN x = false <-> Prim2SF x <> S754_nan.
Proof.
  rewrite <- isNaN_spec. by destruct (isNaN x).
Qed.

Lemma SFcompare_Some x y :
  x <> S754_nan -> y <> S754_nan -> exists c, SFcompare x y = Some c.
Proof. destruct x, y; cbn [SFcompare]; try done; eauto. Qed.

(** A comparison that is not [<] is [>=], unless a NaN takes part. *)
Lemma leb_of_not_ltb x y :
  isNaN x = false -> isNaN y = false ->
  PrimFloat.ltb x y = false -> PrimFloat.leb y x = true.
Proof.
  intros Hx%isNaN_false Hy%isNaN_false. rewrite FloatAxioms.ltb_spec, FloatAxioms.leb_spec.
  unfold SFltb, SFleb. rewrite (SFcompare_antisym (Prim2SF x) (Prim2SF y)).
  destruct (SFcompare_Some _ _ Hx Hy) as [c ->]. by destruct c.
Qed.

Lemma leb_not_NaN x y : PrimFloat.leb x y = true -> isNaN x = false /\ isNaN y = false.
Proof.
  rewrite FloatAxioms.leb_spec, !isNaN_false. unfold SFleb.
  destruct (Prim2SF x), (Prim2SF y); cbn [SFcompare]; done.
Qed.

(** [Math.min(Math.max(x, lo), hi)] lies between [lo] and [hi]. *)
Lemma clamp_bounds x lo hi :
  isNaN x = false -> PrimFloat.leb lo lo = true -> PrimFloat.leb hi hi = true ->
  PrimFloat.leb lo hi = true ->
  PrimFloat.leb lo (Math_min (Math_max x lo) hi) = true
  /\ PrimFloat.leb (Math_min (Math_max x lo) hi) hi = true.
Proof.
  intros Hx Hlo Hhi Hle. destruct (leb_not_NaN _ _ Hle) as [Hnlo Hnhi].
  unfold Math_max. rewrite Hx, Hnlo. cbn [orb].
  set (m := if PrimFloat.ltb x lo then lo else x).
  assert (Hm : isNaN m = false /\ PrimFloat.leb lo m = true).
  { unfold m. destruct (PrimFloat.ltb x lo) eqn:Hlt; [done|].
    split; [done|]. by apply leb_of_not_ltb. }
  destruct Hm as [Hnm Hlm]. unfold Math_min. rewrite Hnm, Hnhi. cbn [orb].
  destruct (PrimFloat.ltb hi m) eqn:Hlt; [done|].
  split; [done|]. by apply leb_of_not_ltb.
Qed.

Lemma or_else_not_NaN x d : isNaN d = false -> isNaN (or_else x d) = false.
Proof.
  intros Hd. unfold or_else. destruct (isNaN x) eqn:Hx; [done|].
  cbn [orb]. by destruct (PrimFloat.eqb x 0).
Qed.


Lemma mul_NaN_r x : PrimFloat.mul x NaN = NaN.
Proof.
  apply Prim2SF_inj. rewrite FloatAxioms.mul_spec. change (Prim2SF NaN) with S754_nan.
  unfold SF64mul. by destruct (Prim2SF x).
Qed.

Lemma mul_NaN_l x : PrimFloat.mul NaN x = NaN.
Proof.
  apply Prim2SF_inj. rewrite FloatAxioms.mul_spec. change (Prim2SF NaN) with S754_nan.
  unfold SF64mul. by destruct (Prim2SF x).
Qed.

(** X12: whatever the caller asks for, the augmenter is run with a target
    ratio between 0.2 and 0.8 and a noise level between 0 and 0.2, neither
    of them NaN; a request of NaN or 0 falls back to ratio 0.5 and noise
    0.05 (so a noise of zero cannot be asked for). *)
Theorem augmentation_parameters_bounded (x : float) :
  isNaN (clampRatio x) = false
  /\ PrimFloat.leb 0.2 (clampRatio x) = true
  /\ PrimFloat.leb (clampRatio x) 0.8 = true
  /\ isNaN (clampNoise x) = false
  /\ PrimFloat.leb 0 (clampNoise x) = true
  /\ PrimFloat.leb (clampNoise x) 0.2 = true
  /\ clampRatio NaN = 0.5%float /\ clampRatio 0 = 0.5%float
  /\ clampNoise NaN = 0.05%float /\ clampNoise 0 = 0.05%float.
Proof.
  assert (Hr : isNaN (or_else x 0.5) = false) by (by apply or_else_not_NaN).
  assert (Hn : isNaN (or_else x 0.05) = false) by (by apply or_else_not_NaN).
  destruct (clamp_bounds (or_else x 0.5) 0.2 0.8 Hr) as [Hr1 Hr2]; [done..|].
  destruct (clamp_bounds (or_else x 0.05) 0.0 0.2 Hn) as [Hn1 Hn2]; [done..|].
  unfold clampRatio, clampNoise.
  repeat split; try done.
  - by destruct (leb_not_NaN _ _ Hr1).
  - by destruct (leb_not_NaN _ _ Hn1).
Qed.


Lemma stratifiedSplit_NaN labels :
  let sp := stratifiedSplit labels NaN in
  nTest sp = JNaN /\ testIdx sp = []
  /\ trainIdx sp = (posIdx sp ++ negIdx sp)%list.
Proof.
  cbv zeta. unfold stratifiedSplit. destruct (bucket labels 0) as [pos neg].
  cbn [nTest testIdx trainIdx posIdx negIdx].
  change (clampSplit NaN) with NaN. rewrite mul_NaN_r.
  change (floor NaN) with JNaN. cbn [jmax of_jsint]. rewrite mul_NaN_l.
  change (round NaN) with JNaN. cbn [jmax jmin jsub].
  unfold slice_to, slice_from. cbn [rel_index]. by rewrite !take_0, !drop_0.
Qed.

(** X13: a test fraction that is a number is clamped into [0.05, 0.9].  A
    test fraction of NaN is not caught by the clamp: the test size is then
    NaN, the split puts no index in the test set and every index in the
    training set. *)
Theorem test_fraction_clamped :
  (forall f, isNaN f = false ->
     PrimFloat.leb 0.05 (clampSplit f) = true /\ PrimFloat.leb (clampSplit f) 0.9 = true)
  /\ forall labels f,
       isNaN f = true ->
       let sp := stratifiedSplit labels f in
       nTest sp = JNaN /\ testIdx sp = []
       /\ trainIdx sp = (posIdx sp ++ negIdx sp)%list.
Proof.
  split.
  - intros f Hf. by apply clamp_bounds.
  - intros labels f Hf. apply isNaN_eq in Hf as ->. apply stratifiedSplit_NaN.
Qed.

Section Statistics.
Variables Math_log Math_cos : float -> float.
Variable Number : string -> float.



End Statistics.

End NumberFacts.

(** ** The synthetic rows *)

Module SynthesisFacts.
Import JS DataLoader SplitFacts AugmentFacts FeatureFacts.

Section Synthesis.
Variables Math_log Math_cos : float -> float.

Local Abbreviation augmentOn := (augmentPositivesOnScaled Math_log Math_cos).

(** The noise loop writes the cells [d] to [d + todo - 1] and no other. *)
Lemma perturb_frame todo d base clone noise draws clone' draws' i :
  perturb Math_log Math_cos todo d base clone noise draws = Ok (clone', draws') ->
  d + todo <= length clone -> d + todo <= i -> clone' !! i = clone !! i.
Proof.
  revert d clone draws. induction todo as [|todo IH]; intros d clone draws; cbn [perturb].
  - by intros [= <- _].
  - destruct (gauss _ _ draws) as [[g d1]| |]; cbn [mbind result_bind]; try discriminate.
    intros H Hd Hi. apply IH in H; [|rewrite length_js_set by lia; lia|lia].
    rewrite H. unfold js_set. destruct (Nat.ltb_spec d (length clone)); [|lia].
    apply list_lookup_insert_ne. lia.
Qed.

Lemma perturb_tail numDim base noise draws clone draws' :
  perturb Math_log Math_cos numDim 0 base base noise draws = Ok (clone, draws') ->
  numDim <= length base ->
  length clone = length base /\ drop numDim clone = drop numDim base.
Proof.
  intros H Hn.
  assert (Hlen : length clone = length base) by (eapply perturb_length; [exact H|lia]).
  split; [done|]. apply list_eq. intros i. rewrite !lookup_drop.
  eapply perturb_frame; [exact H|lia|lia].
Qed.

(** The rows the synthesis loop appends: row [n] is cloned from the positive
    row at position [(k + n) mod P] of the positive indices. *)
Lemma synthesize_sources todo k Xtr pos numDim noise outX outY draws X Y draws' :
  synthesize Math_log Math_cos todo k Xtr pos numDim noise outX outY draws
  = Ok (X, Y, draws') ->
  exists new,
    X = outX ++ new /\ Y = outY ++ replicate (length new) [1%Z] /\ length new = todo
    /\ forall n row, new !! n = Some row ->
         exists j base,
           pos !! ((k + n) mod length pos) = Some j /\ Xtr !! j = Some base
           /\ (numDim <= length base ->
               length row = length base /\ drop numDim row = drop numDim base).
Proof.
  revert k outX outY draws.
  induction todo as [|todo IH]; intros k outX outY draws; cbn [synthesize].
  - intros [= <- <- _]. exists []. rewrite !app_nil_r. by repeat split.
  - destruct (pos !! _) as [j|] eqn:Hj; [|discriminate].
    destruct (Xtr !! j) as [base|] eqn:Hbase; [|discriminate].
    destruct (perturb _ _ _ _ _ _ _ _) as [[clone d1]| |] eqn:Hp;
      cbn [mbind result_bind]; try discriminate.
    intros (new & -> & -> & Hlen & HS)%IH.
    exists (clone :: new). rewrite <- !app_assoc. cbn [app length replicate].
    split; [done|]. split; [done|]. split; [by rewrite Hlen|].
    intros n row Hn. destruct n as [|n].
    + injection Hn as <-. exists j, base. rewrite Nat.add_0_r.
      split; [done|]. split; [done|]. intros Hdim. by eapply perturb_tail.
    + cbn [lookup list_lookup] in Hn. destruct (HS n row Hn) as (j' & base' & Hj' & ?).
      exists j', base'. split; [|done]. by replace (k + S n) with (S k + n) by lia.
Qed.

Lemma bucket_rows_positive ytr i j :
  j ∈ (bucket_rows ytr i).1 ->
  exists y, ytr !! (j - i) = Some y /\ head y = Some 1%Z.
Proof.
  revert i. induction ytr as [|y ytr IH]; intros i; cbn [bucket_rows];
    [by intros ?%elem_of_nil|].
  pose proof (bucket_rows_range ytr (S i) j) as Hrange.
  specialize (IH (S i)). destruct (bucket_rows ytr (S i)) as [pos neg]. cbn [fst] in *.
  assert (Hin : j ∈ pos -> exists y', (y :: ytr) !! (j - i) = Some y' /\ head y' = Some 1%Z).
  { intros Hj. destruct (IH Hj) as (y' & Hy' & Hh). exists y'. split; [|done].
    specialize (Hrange Hj). by replace (j - i) with (S (j - S i)) by lia. }
  destruct y as [|[|[]|] ?]; cbn [fst]; try done.
  intros [->|?]%elem_of_cons; [|auto]. rewrite Nat.sub_diag. eauto.
Qed.

(** X15: the augmenter appends rows and labels 1 and changes nothing else;
    synthetic row [n] is cloned from the training row of the positive at
    position [n mod P] of the positive indices, a row labelled 1, and when
    that row has at least [numDim] columns the clone has its length and
    its columns from [numDim] on: the noise touches the numeric columns
    only, the one-hot columns are copied. *)
Theorem synthetic_rows_copy_positives Xtr ytr numDim ratio noise draws X Y draws' :
  augmentOn Xtr ytr numDim ratio noise draws = Ok (X, Y, draws') ->
  let pos := (bucket_rows ytr 0).1 in
  exists S,
    X = Xtr ++ S /\ Y = ytr ++ replicate (length S) [1%Z]
    /\ forall n row, S !! n = Some row ->
         exists j base y,
           pos !! (n mod length pos) = Some j
           /\ Xtr !! j = Some base /\ ytr !! j = Some y /\ head y = Some 1%Z
           /\ (numDim <= length base ->
               length row = length base /\ drop numDim row = drop numDim base).
Proof.
  cbv zeta. unfold augmentPositivesOnScaled.
  pose proof (bucket_rows_positive ytr 0) as Hpositive.
  destruct (bucket_rows ytr 0) as [pos neg]. cbn [fst] in *.
  assert (Hnone : Ok (Xtr, ytr, draws) = Ok (X, Y, draws') ->
            exists S : list (list float),
              X = Xtr ++ S /\ Y = ytr ++ replicate (length S) [1%Z]
              /\ forall n row, S !! n = Some row ->
                   exists j base y,
                     pos !! (n mod length pos) = Some j
                     /\ Xtr !! j = Some base /\ ytr !! j = Some y /\ head y = Some 1%Z
                     /\ (numDim <= length base ->
                         length row = length base
                         /\ drop numDim row = drop numDim base)).
  { intros [= <- <- _]. exists []. rewrite !app_nil_r. by repeat split. }
  destruct (length pos =? 0); [done|].
  destruct (jmax _ _) as [|need|?]; [done| |discriminate].
  destruct (need <=? 0)%Z; [done|].
  intros (S & -> & -> & _ & HS)%synthesize_sources.
  exists S. split; [done|]. split; [done|]. intros n row Hn.
  destruct (HS n row Hn) as (j & base & Hj & Hbase & Htail). cbn [Nat.add] in Hj.
  destruct (Hpositive j) as (y & Hy & Hh); [by eapply list_elem_of_lookup_2|].
  rewrite Nat.sub_0_r in Hy. by exists j, base, y.
Qed.

Lemma bucket_rows_app a b i :
  bucket_rows (a ++ b) i
  = ((bucket_rows a i).1 ++ (bucket_rows b (i + length a)).1,
     (bucket_rows a i).2 ++ (bucket_rows b (i + length a)).2).
Proof.
  revert i. induction a as [|y a IH]; intros i; cbn [app bucket_rows length].
  - rewrite Nat.add_0_r. by destruct (bucket_rows b i).
  - rewrite IH. replace (S i + length a) with (i + S (length a)) by lia.
    destruct (bucket_rows a (S i)) as [pa na].
    destruct (bucket_rows b (i + S (length a))) as [pb nb]. cbn [fst snd].
    by destruct y as [|[|[]|] ?].
Qed.

Lemma bucket_rows_ones k i : bucket_rows (replicate k [1%Z]) i = (seq i k, []).
Proof.
  revert i. induction k as [|k IH]; intros i; cbn [replicate bucket_rows seq]; [done|].
  by rewrite IH.
Qed.

(** X16: when the training partition has a positive row and [wantPos] is an
    integer, the augmenter returns [max(wantPos, P)] positive rows and the
    negative rows it was given; it appends as many rows as labels, namely
    [max(0, wantPos - P)]. *)
Theorem augmented_class_counts Xtr ytr numDim ratio noise draws X Y draws' w :
  augmentOn Xtr ytr numDim ratio noise draws = Ok (X, Y, draws') ->
  (bucket_rows ytr 0).1 <> [] ->
  wantPos ratio (length (bucket_rows ytr 0).2) = JInt w ->
  Z.of_nat (length (bucket_rows Y 0).1)
  = Z.max w (Z.of_nat (length (bucket_rows ytr 0).1))
  /\ (bucket_rows Y 0).2 = (bucket_rows ytr 0).2
  /\ (length X - length Xtr = length Y - length ytr)%nat
  /\ Z.of_nat (length Y - length ytr)
     = Z.max 0 (w - Z.of_nat (length (bucket_rows ytr 0).1)).
Proof.
  unfold augmentPositivesOnScaled.
  destruct (bucket_rows ytr 0) as [pos neg] eqn:Hb. cbn [fst snd].
  intros H Hpos Hw. rewrite Hw in H.
  destruct (Nat.eqb_spec (length pos) 0) as [Hz|_]; [by destruct pos|].
  cbn [jsub jmax] in H.
  destruct (Z.leb_spec (Z.max 0 (w - Z.of_nat (length pos))) 0) as [Hle|Hgt].
  - injection H as <- <- _. rewrite Hb. cbn [fst snd]. rewrite !Nat.sub_diag.
    repeat split; lia.
  - apply synthesize_appends in H as (S & -> & -> & Hlen & _).
    rewrite bucket_rows_app, Hb, bucket_rows_ones. cbn [fst snd].
    rewrite !length_app, length_seq, length_replicate, app_nil_r.
    repeat split; lia.
Qed.

End Synthesis.

Lemma tiny_augmented_returns :
  augmentPositivesOnScaled Samples.host_log Samples.host_cos Samples.tiny_X
    Samples.tiny_y 1 0.5 0.05 Samples.draws
  = Ok (Samples.tiny_augmented.1.1, Samples.tiny_augmented.1.2, Samples.tiny_augmented.2).
Proof. vm_compute. reflexivity. Qed.

Lemma synthetic_rows_copy_positives_witness :
  augmentPositivesOnScaled Samples.host_log Samples.host_cos Samples.tiny_X
    Samples.tiny_y 1 0.5 0.05 Samples.draws
  = Ok (Samples.tiny_augmented.1.1, Samples.tiny_augmented.1.2, Samples.tiny_augmented.2)
  /\ length Samples.tiny_augmented.1.1 = 6
  /\ exists new,
       Samples.tiny_augmented.1.1 = Samples.tiny_X ++ new
       /\ Samples.tiny_augmented.1.2 = Samples.tiny_y ++ replicate (length new) [1%Z].
Proof.
  split; [exact tiny_augmented_returns|]. split; [vm_compute; reflexivity|].
  destruct (synthetic_rows_copy_positives _ _ _ _ _ _ _ _ _ _ _ tiny_augmented_returns)
    as (new & HX & HY & _).
  exists new. by split.
Defined.

Lemma augmented_class_counts_witness :
  augmentPositivesOnScaled Samples.host_log Samples.host_cos Samples.tiny_X
    Samples.tiny_y 1 0.5 0.05 Samples.draws
  = Ok (Samples.tiny_augmented.1.1, Samples.tiny_augmented.1.2, Samples.tiny_augmented.2)
  /\ (bucket_rows Samples.tiny_y 0).1 <> []
  /\ wantPos 0.5 (length (bucket_rows Samples.tiny_y 0).2) = JInt 3
  /\ Z.of_nat (length (bucket_rows Samples.tiny_augmented.1.2 0).1) = 3%Z.
Proof.
  assert (Hpos : (bucket_rows Samples.tiny_y 0).1 <> []) by done.
  assert (Hw : wantPos 0.5 (length (bucket_rows Samples.tiny_y 0).2) = JInt 3)
    by (vm_compute; reflexivity).
  split; [exact tiny_augmented_returns|]. split; [exact Hpos|]. split; [exact Hw|].
  destruct (augmented_class_counts _ _ _ _ _ _ _ _ _ _ _ _ tiny_augmented_returns Hpos Hw)
    as (Hcount & _).
  exact Hcount.
Defined.

End SynthesisFacts.

(** ** The shuffle as a rearrangement of positions *)

Module ShuffleFacts.
Import JS DataLoader SplitFacts AugmentFacts FeatureFacts.

Lemma swap_map (f : nat -> nat) arr i j : swap (map f arr) i j = map f (swap arr i j).
Proof.
  unfold swap. rewrite !list_lookup_fmap.
  destruct (arr !! i) as [ai|]; [|done]. destruct (arr !! j) as [aj|]; [|done].
  cbn [fmap option_fmap option_map]. by rewrite !list_fmap_insert.
Qed.

Lemma shuffle_from_map (f : nat -> nat) i seed arr :
  shuffle_from i seed (map f arr) = map f (shuffle_from i seed arr).
Proof.
  revert seed arr. induction i as [|i IH]; intros seed arr; cbn [shuffle_from]; [done|].
  by rewrite swap_map, IH.
Qed.

Lemma map_nth_seq (arr : list nat) : map (fun i => nth i arr 0) (seq 0 (length arr)) = arr.
Proof.
  apply list_eq. intros i. rewrite list_lookup_fmap.
  destruct (arr !! i) as [x|] eqn:Hx.
  - rewrite lookup_seq_lt by (by eapply lookup_lt_Some). cbn.
    f_equal. by apply nth_lookup_Some.
  - rewrite lookup_seq_ge; [done|]. by apply lookup_ge_None.
Qed.

(** X17: the shuffle rearranges the cells of an array and looks at no
    value: it commutes with renaming the cells, so every array of a given
    length is rearranged by the same fixed permutation, the one applied to
    0, 1, ..., n-1 (the seed starts at 1337 at every call).  The index
    drawn for cell [i] is never above [i], and an array of at most one
    cell is left as it is. *)
Theorem shuffle_is_positional (arr : list nat) :
  shuffle arr ≡ₚ arr
  /\ (forall f : nat -> nat, shuffle (map f arr) = map f (shuffle arr))
  /\ shuffle arr = map (fun i => nth i arr 0) (shuffle (seq 0 (length arr)))
  /\ (forall seed i, pick (lcg seed) i <= i)
  /\ (length arr <= 1 -> shuffle arr = arr).
Proof.
  assert (Hmap : forall f : nat -> nat, shuffle (map f arr) = map f (shuffle arr)).
  { intros f. unfold shuffle. by rewrite length_map, shuffle_from_map. }
  split; [apply shuffle_Permutation|]. split; [exact Hmap|]. split; [|split].
  - pose proof (shuffle_from_map (fun i => nth i arr 0) (length arr - 1) 1337
                  (seq 0 (length arr))) as H.
    rewrite map_nth_seq in H. unfold shuffle. by rewrite length_seq, <- H.
  - intros seed i. apply pick_le, lcg_range.
  - intros Hlen. unfold shuffle. by replace (length arr - 1) with 0 by lia.
Qed.

End ShuffleFacts.

(** ** The outcomes of a preparation *)

Module OutcomeFacts.
Import JS DataLoader SplitFacts AugmentFacts FeatureFacts.

Section Outcomes.
Variables Math_log Math_cos : float -> float.
Variable Number : string -> float.

(** X18: without rows a preparation throws 'Dataset not loaded.'.  With
    rows, computing the arrays the tensors are made of throws nothing: no
    encoder is missing and no index leaves its array; and with the
    augmentation off the arrays are computed without a random number, one
    training row and one training label per training index. *)
Theorem preparation_outcomes cfg dl draws :
  (raw dl = [] ->
   prepareTensors Math_log Math_cos Number cfg dl draws = Throw "Dataset not loaded.")
  /\ (raw dl <> [] ->
      (forall msg, prepareTensors Math_log Math_cos Number cfg dl draws <> Throw msg)
      /\ (enable (default defaultAug (augment cfg)) = false ->
          exists out dl',
            prepareTensors Math_log Math_cos Number cfg dl draws = Ok (out, dl', draws)
            /\ length (xTrain out) = length (trainIdx (splitIdx out))
            /\ length (yTrain out) = length (trainIdx (splitIdx out)))).
Proof.
  split; [apply prepareTensors_empty|]. intros Hraw.
  destruct (prepareTensors_returns Math_log Math_cos Number cfg dl draws Hraw)
    as [(out & dl' & rest & H)|[H Hen]].
  - split; [intros msg; by rewrite H|]. intros Hoff. exists out, dl'.
    pose proof H as H'. prepare_steps H' as order fl X Y.
    destruct H' as (_ & _ & _ & Haug & -> & _). unfold augment_step in Haug.
    rewrite Hoff in Haug. injection Haug as <- <- <-. cbn [xTrain yTrain splitIdx].
    split; [done|]. unfold applyScaler, rows_at, labels_at. by rewrite !length_map.
  - split; [intros msg; by rewrite H|]. intros Hoff. congruence.
Qed.

End Outcomes.

End OutcomeFacts.

(** ** gru.js: the layers [build] stacks *)

Module BuildFacts.
Import JS GRUClassifier.

Section Build.
Variable Number_toString : float -> string.

(** X19: a call of [build] that returns was given valid [features] and
    [timesteps] (a missing [timesteps] counting as 1), and has stacked
    [L = max(1, layers|0)] recurrent layers of [max(8, units|0)] units, so
    at least one layer of at least 8 units: the first one carries the
    input shape, every one but the last returns sequences, and they are
    followed by a dense layer of 64, a dropout and the sigmoid unit. *)
Theorem build_layer_stack timesteps features units nlayers lr m :
  build Number_toString timesteps features units nlayers lr = Ok m ->
  let U := Z.max 8 (toInt32 (default 128%Z units)) in
  let L := Z.max 1 (toInt32 (default 1%Z nlayers)) in
  let steps := match timesteps with Undefined => Num 1 | _ => timesteps end in
  invalid features = false /\ invalid steps = false
  /\ model_inputShape m = [number_of steps; number_of features]
  /\ (8 <= U)%Z /\ (1 <= L)%Z
  /\ length (layers m) = Z.to_nat L + 3
  /\ (forall i : nat, (Z.of_nat i < L)%Z ->
        layers m !! i
        = Some (gru U (if (i =? 0)%nat then Some (model_inputShape m) else None)
                    (bool_decide (Z.of_nat i + 1 < L)%Z) 0.2 "heNormal"))
  /\ drop (Z.to_nat L) (layers m)
     = [ dense 64 "relu" (Some "heNormal"%string); dropout 0.2; dense 1 "sigmoid" None ].
Proof.
  cbv zeta. unfold build.
  set (steps := match timesteps with Undefined => Num 1 | _ => timesteps end).
  destruct (invalid features) eqn:Hf; [discriminate|].
  destruct (invalid steps) eqn:Ht; [discriminate|].
  set (U := Z.max 8 (toInt32 (default 128%Z units))).
  set (L := Z.max 1 (toInt32 (default 1%Z nlayers))).
  intros [= <-]. cbn [layers model_inputShape].
  assert (HL : (1 <= L)%Z) by (unfold L; lia).
  set (more := map (fun i => gru U None (negb (i =? L - 1)%Z) 0.2 "heNormal")
                   (seqZ 1 (L - 1))).
  assert (Hmore : length more = Z.to_nat L - 1).
  { unfold more. rewrite length_map, length_seqZ. lia. }
  split; [done|]. split; [done|]. split; [done|]. split; [unfold U; lia|].
  split; [done|]. split; [cbn [length]; rewrite length_app, Hmore; cbn [length]; lia|].
  split.
  - intros i Hi. destruct i as [|i].
    + cbn [lookup list_lookup Nat.eqb]. do 2 f_equal.
      destruct (Z.ltb_spec 1 L); [by rewrite bool_decide_true by lia|].
      by rewrite bool_decide_false by lia.
    + rewrite lookup_cons_ne_0 by lia. cbn [Nat.pred Nat.eqb].
      rewrite lookup_app_l by (rewrite Hmore; lia).
      unfold more. rewrite list_lookup_fmap, lookup_seqZ_lt by lia.
      cbn [fmap option_fmap option_map]. do 2 f_equal.
      destruct (Z.eqb_spec (1 + Z.of_nat i) (L - 1)); cbn [negb].
      * by rewrite bool_decide_false by lia.
      * by rewrite bool_decide_true by lia.
  - replace (Z.to_nat L) with (S (length more)) by lia. cbn [drop].
    by rewrite drop_app_length.
Qed.

End Build.

Lemma two_layers_built :
  build Samples.as_half Undefined (Num 33) None (Some 2%Z) Undefined
  = Ok Samples.two_layers.
Proof. vm_compute. reflexivity. Qed.

Lemma build_layer_stack_witness :
  build Samples.as_half Undefined (Num 33) None (Some 2%Z) Undefined
  = Ok Samples.two_layers
  /\ length (layers Samples.two_layers) = 5
  /\ model_inputShape Samples.two_layers = [1%float; 33%float].
Proof.
  split; [exact two_layers_built|].
  destruct (build_layer_stack _ _ _ _ _ _ _ two_layers_built)
    as (_ & _ & Hshape & _ & _ & Hlen & _).
  split; [exact Hlen|exact Hshape].
Defined.

End BuildFacts.

(** ** app.js: what the threshold scan returns *)

Module ScanFacts.
Import JS App.

(** [0 / Math.max(1, y)] is 0, or NaN when [y] is. *)
Lemma zero_over_max y :
  PrimFloat.div 0 (Math_max 1 y) = 0%float \/ PrimFloat.div 0 (Math_max 1 y) = NaN.
Proof.
  unfold Math_max. change (isNaN 1) with false. cbn [orb].
  destruct (isNaN y); [by right|].
  destruct (PrimFloat.ltb 1 y) eqn:Hlt; [|by left]. left.
  rewrite FloatAxioms.ltb_spec in Hlt. apply Prim2SF_inj. rewrite FloatAxioms.div_spec.
  unfold SFltb in Hlt. unfold SF64div.
  change (Prim2SF 0) with (S754_zero false).
  destruct (Prim2SF y) as [s|s| |s mant e]; try done.
  - by destruct s.
  - by destruct s.
Qed.

Lemma tally_not_positive pi gt t c :
  gt <> 1%Z -> tp (tally pi gt t c) = tp c /\ fn (tally pi gt t c) = fn c.
Proof.
  intros Hgt. unfold tally. destruct (Z.eqb_spec gt 1) as [|_]; [done|].
  rewrite !andb_false_r. by destruct (_ && _).
Qed.

Lemma confusion_not_positive p y t c c' :
  Forall (fun gt => gt <> 1%Z) y -> confusion p y t c = Ok c' ->
  tp c' = tp c /\ fn c' = fn c.
Proof.
  revert y c. induction p as [|pi p IH]; intros y c Hy; cbn [confusion].
  - by intros [= <-].
  - destruct y as [|gt y]; [discriminate|]. apply Forall_cons in Hy as [Hgt Hy].
    intros H. destruct (IH _ _ Hy H) as [-> ->]. by apply tally_not_positive.
Qed.

Lemma confusion_returns p y t c :
  length p <= length y -> exists c', confusion p y t c = Ok c'.
Proof.
  revert y c. induction p as [|pi p IH]; intros y c Hlen; cbn [confusion]; [eauto|].
  destruct y as [|gt y]; [simpl in Hlen; lia|]. apply IH. simpl in Hlen. lia.
Qed.

Lemma confusion_throws p y t c :
  length y < length p -> confusion p y t c = Throw "TypeError".
Proof.
  revert y c. induction p as [|pi p IH]; intros y c Hlen; cbn [confusion];
    [simpl in Hlen; lia|].
  destruct y as [|gt y]; [done|]. apply IH. simpl in Hlen. lia.
Qed.

(** Without a true positive the F1 of a candidate is 0 or NaN: not above 0. *)
Lemma f1_of_no_true_positive c :
  tp c = 0%Z -> fn c = 0%Z -> PrimFloat.ltb 0 (f1_of c) = false.
Proof.
  intros Htp Hfn. unfold f1_of. rewrite Htp, Hfn.
  change (PrimFloat.div (of_int 0) (Math_max 1 (of_int (0 + 0)))) with 0%float.
  change (of_int 0) with 0%float.
  destruct (zero_over_max (of_int (0 + fp c))) as [-> | ->]; reflexivity.
Qed.

Lemma scan_list_fixed {S : Type} (body : float -> S -> result S) ts s :
  (forall t, t ∈ ts -> body t s = Ok s) -> scan_list body ts s = Ok s.
Proof.
  induction ts as [|t ts IH]; intros H; cbn [scan_list]; [done|].
  rewrite (H t) by left. cbn [mbind result_bind]. apply IH. intros t' Ht'. apply H. by right.
Qed.

(** X20: when no test row is labelled 1 no candidate has an F1 above 0, and
    the scan keeps its starting pair: threshold 0.5 with F1 0. *)
Theorem threshold_without_positives (p : list float) (y : list Z) :
  Forall (fun gt => gt <> 1%Z) y -> length p <= length y ->
  autoThreshold (Some (p, y)) = Ok (Some {| thr := 0.5; f1 := 0 |}).
Proof.
  intros Hy Hlen. unfold autoThreshold. rewrite ThresholdFacts.scan_candidates.
  rewrite scan_list_fixed; [done|]. intros t _. unfold try_threshold.
  destruct (confusion_returns p y t {| tp := 0; fp := 0; fn := 0 |} Hlen) as [c Hc].
  rewrite Hc. cbn [mbind result_bind].
  destruct (confusion_not_positive _ _ _ _ _ Hy Hc) as [Htp Hfn].
  cbn [f1]. by rewrite (f1_of_no_true_positive c Htp Hfn).
Qed.


Lemma candidates_hundredths :
  map round2 candidates
  = map (fun k => PrimFloat.div (of_int (Z.of_nat k)) 100) (seq 10 80).
Proof. vm_compute. reflexivity. Qed.

Lemma try_threshold_Ok p y t best c :
  confusion p y t {| tp := 0; fp := 0; fn := 0 |} = Ok c ->
  try_threshold p y t best
  = Ok (if PrimFloat.ltb (f1 best) (f1_of c)
        then {| thr := round2 t; f1 := f1_of c |} else best).
Proof. intros Hc. unfold try_threshold. by rewrite Hc. Qed.

Lemma try_threshold_Throw p y t best :
  length y < length p -> try_threshold p y t best = Throw "TypeError".
Proof. intros Hlen. unfold try_threshold. by rewrite confusion_throws. Qed.

(** What the scan over a list of candidates can return. *)
Lemma scan_list_outcome p y ts best :
  length p <= length y ->
  exists b,
    scan_list (try_threshold p y) ts best = Ok b
    /\ (b = best
        \/ exists t c, t ∈ ts /\ confusion p y t {| tp := 0; fp := 0; fn := 0 |} = Ok c
                       /\ b = {| thr := round2 t; f1 := f1_of c |}).
Proof.
  intros Hlen. revert best. induction ts as [|t ts IH]; intros best; cbn [scan_list].
  - exists best. by split; [|left].
  - destruct (confusion_returns p y t {| tp := 0; fp := 0; fn := 0 |} Hlen) as [c Hc].
    rewrite (try_threshold_Ok p y t best c Hc). cbn [mbind result_bind].
    destruct (IH (if PrimFloat.ltb (f1 best) (f1_of c)
                  then {| thr := round2 t; f1 := f1_of c |} else best))
      as (b & Hb & Hcase).
    exists b. split; [exact Hb|]. destruct Hcase as [->|(t' & c' & Ht' & Hc' & ->)].
    + destruct (PrimFloat.ltb (f1 best) (f1_of c)); [right|by left].
      exists t, c. split; [left|done].
    + right. exists t', c'. split; [by right|done].
Qed.

(** X21: without a dataset the scan returns nothing; with fewer labels than
    probabilities it throws a TypeError; otherwise it returns, and what it
    returns is either the starting pair (0.5, 0) or the F1 of a visited
    candidate together with a threshold [k/100] for an integer [k] from
    10 to 89. *)
Theorem threshold_scan_outcomes (p : list float) (y : list Z) :
  autoThreshold None = Ok None
  /\ (length y < length p -> autoThreshold (Some (p, y)) = Throw "TypeError")
  /\ (length p <= length y ->
      exists b,
        autoThreshold (Some (p, y)) = Ok (Some b)
        /\ (b = {| thr := 0.5; f1 := 0 |}
            \/ exists t c (k : nat),
                 t ∈ candidates
                 /\ confusion p y t {| tp := 0; fp := 0; fn := 0 |} = Ok c
                 /\ f1 b = f1_of c
                 /\ 10 <= k <= 89
                 /\ thr b = PrimFloat.div (of_int (Z.of_nat k)) 100)).
Proof.
  split; [done|]. unfold autoThreshold. rewrite ThresholdFacts.scan_candidates. split.
  - intros Hlen.
    assert (Hc : exists t ts, candidates = t :: ts) by (vm_compute; eauto).
    destruct Hc as (t & ts & ->). cbn [scan_list].
    by rewrite try_threshold_Throw.
  - intros Hlen.
    destruct (scan_list_outcome p y candidates {| thr := 0.5; f1 := 0 |} Hlen)
      as (b & -> & Hcase).
    exists b. split; [done|]. destruct Hcase as [->|(t & c & Ht & Hc & ->)]; [by left|].
    right. apply list_elem_of_lookup in Ht as [i Hi].
    assert (Hk : map round2 candidates !! i = Some (round2 t))
      by (by rewrite list_lookup_fmap, Hi).
    rewrite candidates_hundredths, list_lookup_fmap in Hk.
    destruct (seq 10 80 !! i) as [k|] eqn:Hseq; [|done].
    apply lookup_seq in Hseq as [-> Hlt]. injection Hk as Hk.
    exists t, c, (10 + i). split; [by eapply list_elem_of_lookup_2|].
    split; [done|]. split; [done|]. split; [lia|done].
Qed.

Lemma threshold_without_positives_witness :
  Forall (fun gt => gt <> 1%Z) [0%Z; 0%Z]
  /\ length Samples.scores <= length [0%Z; 0%Z]
  /\ autoThreshold (Some (Samples.scores, [0%Z; 0%Z]))
     = Ok (Some {| thr := 0.5; f1 := 0 |}).
Proof.
  assert (Hy : Forall (fun gt => gt <> 1%Z) [0%Z; 0%Z]) by (by repeat constructor).
  assert (Hlen : length Samples.scores <= length [0%Z; 0%Z]) by (simpl; lia).
  split; [exact Hy|]. split; [exact Hlen|].
  exact (threshold_without_positives Samples.scores [0%Z; 0%Z] Hy Hlen).
Defined.

End ScanFacts.

(** ** app.js: the exported predictions *)

Module ExportFacts.
Import JS DataLoader Predictions SplitFacts FeatureFacts ParseFacts BalanceFacts.
Local Open Scope string_scope.

Local Abbreviation chars := list_ascii_of_string.

Lemma chars_app s1 s2 : chars (s1 ++ s2) = (chars s1 ++ chars s2)%list.
Proof.
  induction s1 as [|a s1 IH]; [done|].
  change (a :: chars (s1 ++ s2) = a :: (chars s1 ++ chars s2)%list). by rewrite IH.
Qed.

Lemma join_cons sep x y l :
  Str.join sep (x :: y :: l) = x ++ sep ++ Str.join sep (y :: l).
Proof. reflexivity. Qed.

Lemma join_chars sep l a :
  a ∈ chars (Str.join sep l) -> a ∈ chars sep \/ exists x, x ∈ l /\ a ∈ chars x.
Proof.
  induction l as [|x l IH]; [by intros ?%elem_of_nil|].
  destruct l as [|y l].
  - intros Ha. right. exists x. split; [left|done].
  - rewrite join_cons, !chars_app, !elem_of_app.
    intros [Ha|[Ha|Ha]].
    + right. exists x. split; [left|done].
    + by left.
    + destruct (IH Ha) as [?|(z & Hz & ?)]; [by left|]. right. exists z. split; [by right|done].
Qed.

Lemma split_plain sep x : sep ∉ chars x -> Str.split sep x = [x].
Proof.
  induction x as [|a x IH]; [done|]. intros Hx. rewrite split_cons.
  cbn [list_ascii_of_string] in Hx. apply not_elem_of_cons in Hx as [Hne Hx].
  destruct (Ascii.eqb_spec a sep) as [->|_]; [done|]. by rewrite (IH Hx).
Qed.

Lemma split_app sep x rest :
  sep ∉ chars x ->
  Str.split sep (x ++ String sep rest) = x :: Str.split sep rest.
Proof.
  induction x as [|a x IH]; intros Hx.
  - change (EmptyString ++ String sep rest) with (String sep rest).
    rewrite split_cons. by rewrite Ascii.eqb_refl.
  - cbn [list_ascii_of_string] in Hx. apply not_elem_of_cons in Hx as [Hne Hx].
    change (String a x ++ String sep rest) with (String a (x ++ String sep rest)).
    rewrite split_cons.
    destruct (Ascii.eqb_spec a sep) as [->|_]; [done|]. by rewrite (IH Hx).
Qed.

(** Splitting what [join] glued gives back the pieces, when no piece holds
    the separator. *)
Lemma split_join sep l :
  l <> [] -> Forall (fun x => sep ∉ chars x) l ->
  Str.split sep (Str.join (String sep "") l) = l.
Proof.
  induction l as [|x l IH]; [done|]. intros _ Hl.
  apply Forall_cons in Hl as [Hx Hl]. destruct l as [|y l].
  - by apply split_plain.
  - rewrite join_cons.
    change (String sep "" ++ Str.join (String sep "") (y :: l))
      with (String sep (Str.join (String sep "") (y :: l))).
    rewrite split_app by done.
    f_equal. by apply IH.
Qed.

Lemma replace_comma_chars s a :
  a ∈ chars (Str.replace_comma s) ->
  a <> ","%char /\ (a = ";"%char \/ a ∈ chars s).
Proof.
  induction s as [|b s IH]; cbn [Str.replace_comma chars]; [by intros ?%elem_of_nil|].
  intros [->|Ha]%elem_of_cons.
  - destruct (Ascii.eqb_spec b ",") as [->|Hb]; [by split; [|left]|].
    split; [done|]. right. left.
  - destruct (IH Ha) as [? [?|?]]; [by split; [|left]|]. split; [done|]. right. by right.
Qed.

Section Exported.
Variable Number_toString : float -> string.

Local Abbreviation line_of := (line_of Number_toString).
Local Abbreviation cells := (cells Number_toString).
Local Abbreviation downloadCSV := (downloadCSV Number_toString).

Lemma split_line_of r : Str.split ","%char (line_of r) = map Str.replace_comma (cells r).
Proof.
  unfold Predictions.line_of. apply split_join; [done|].
  apply Forall_map, Forall_true. intros cell Hin.
  by destruct (replace_comma_chars _ _ Hin).
Qed.

(** X22: without predictions nothing is offered for download.  Otherwise
    the text is the header line and one line per prediction, joined by
    line feeds; splitting a line on commas gives back its eight cells with
    every comma of a cell replaced by a semicolon, so a comma inside a
    value never shifts the columns. *)
Theorem download_fields (preds : list Prediction) :
  downloadCSV None = None /\ downloadCSV (Some []) = None
  /\ (preds <> [] ->
      downloadCSV (Some preds)
      = Some (Str.join (String "010"%char "")
                (Str.join "," cols :: map line_of preds)))
  /\ Str.split ","%char (Str.join "," cols) = cols
  /\ forall r, r ∈ preds ->
       Str.split ","%char (line_of r) = map Str.replace_comma (cells r)
       /\ length (Str.split ","%char (line_of r)) = length cols.
Proof.
  split; [done|]. split; [done|]. split; [by destruct preds|]. split; [done|].
  intros r _. by rewrite split_line_of.
Qed.

Lemma replace_cr_id s : "013"%char ∉ chars s -> Str.replace_cr s = s.
Proof.
  induction s as [|a s IH]; [done|]. cbn [list_ascii_of_string Str.replace_cr].
  intros [Ha Hs]%not_elem_of_cons. rewrite (IH Hs).
  destruct (Ascii.eqb_spec a "013") as [->|_]; done.
Qed.

Local Abbreviation plain := Str.one_line.

Lemma line_of_plain r : Forall plain (cells r) -> plain (line_of r).
Proof.
  intros Hcells. unfold Predictions.line_of.
  assert (H : forall a, a ∈ chars (Str.join "," (map Str.replace_comma (cells r))) ->
                a <> "013"%char /\ a <> "010"%char).
  { intros a [Ha|(x & Hx & Ha)]%join_chars.
    - apply list_elem_of_singleton in Ha as ->. done.
    - apply list_elem_of_fmap in Hx as (cell & -> & Hcell).
      rewrite Forall_forall in Hcells. destruct (Hcells cell Hcell) as [Hcr Hlf].
      destruct (replace_comma_chars _ _ Ha) as [_ [->|Hin]]; [done|].
      split; by intros ->. }
  split; intros Hin; by destruct (H _ Hin).
Qed.

Lemma line_of_nonempty r : Str.truthy (line_of r) = true.
Proof.
  pose proof (split_line_of r) as Hs. destruct (line_of r); [discriminate|done].
Qed.

Lemma filter_all {A : Type} (f : A -> bool) l :
  Forall (fun x => f x = true) l -> List.filter f l = l.
Proof.
  induction 1 as [|x l Hx _ IH]; [done|]. cbn [List.filter]. by rewrite Hx, IH.
Qed.

(** The lines of the exported text, as the loader's reader sees them. *)
Lemma lines_of_download preds :
  Forall (fun r => Forall plain (cells r)) preds ->
  lines_of (Str.join (String "010"%char "") (Str.join "," cols :: map line_of preds))
  = Str.join "," cols :: map line_of preds.
Proof.
  intros Hplain.
  set (lines := Str.join "," cols :: map line_of preds).
  assert (Hlines : Forall plain lines).
  { apply Forall_cons. split.
    - split; apply (bool_decide_unpack _); by vm_compute.
    - apply Forall_map. eapply Forall_impl; [exact Hplain|]. apply line_of_plain. }
  assert (Hcr : "013"%char ∉ chars (Str.join (String "010"%char "") lines)).
  { intros [Ha|(x & Hx & Ha)]%join_chars.
    - by apply list_elem_of_singleton in Ha.
    - rewrite Forall_forall in Hlines. by destruct (Hlines x Hx). }
  unfold lines_of. rewrite replace_crlf_id by (by intros a Ha ->).
  rewrite replace_cr_id by done. rewrite split_join.
  - apply filter_all, Forall_cons. split; [done|].
    apply Forall_map, Forall_true. intros r. apply line_of_nonempty.
  - done.
  - eapply Forall_impl; [exact Hlines|]. by intros x [_ ?].
Qed.

(** X23: when no cell holds a line break, the loader's own reader reads the
    exported text back: the header is the eight column names, no line is
    skipped, and row [i] maps each column to the trimmed cell of
    prediction [i] (with its commas replaced). *)
Theorem download_reads_back (preds : list Prediction) (csv : string) :
  downloadCSV (Some preds) = Some csv ->
  Forall (fun r => Forall plain (cells r)) preds ->
  exists rows,
    parseCSV csv = Ok (cols, rows)
    /\ length rows = length preds
    /\ forall i r, preds !! i = Some r ->
         exists row,
           rows !! i = Some row
           /\ forall j c, cols !! j = Some c ->
                exists cell,
                  cells r !! j = Some cell
                  /\ row !! c = Some (Str.trim (Str.replace_comma cell)).
Proof.
  intros Hcsv Hplain.
  assert (Hne : preds <> []) by (by destruct preds).
  assert (Hc : csv = Str.join (String "010"%char "")
                       (Str.join "," cols :: map line_of preds)).
  { destruct preds; [done|]. by injection Hcsv as <-. }
  unfold parseCSV. rewrite Hc, (lines_of_download preds Hplain).
  cbn [length head tail default]. rewrite length_map.
  destruct (Nat.ltb_spec (S (length preds)) 2) as [Hlt|_].
  { destruct preds; [done|]. simpl in Hlt. lia. }
  change (header_of (id (Str.join "," cols))) with cols.
  eexists. split; [done|]. rewrite parse_rows_map.
  assert (Hall : List.filter (fun line => (length (Str.split ","%char line) =? length cols)%nat)
                             (map line_of preds) = map line_of preds).
  { apply filter_all, Forall_map, Forall_true. intros r.
    by rewrite split_line_of. }
  rewrite Hall, !length_map. split; [done|]. intros i r Hi.
  eexists. split; [by rewrite !list_lookup_fmap, Hi|].
  intros j c Hj. rewrite split_line_of.
  destruct (lookup_lt_is_Some_2 (cells r) j) as [cell Hcell].
  { apply lookup_lt_Some in Hj. exact Hj. }
  exists cell. split; [done|].
  eapply row_of_lookup; [by apply (bool_decide_unpack _)|exact Hj|].
  by rewrite list_lookup_fmap, Hcell.
Qed.

End Exported.


Lemma collect_throws p y meta thr :
  length y < length p -> collectPredictions p y meta thr = Throw "TypeError".
Proof.
  revert y meta. induction p as [|prob p IH]; intros y meta Hlen;
    cbn [collectPredictions]; [simpl in Hlen; lia|].
  destruct y as [|gt y]; [done|]. rewrite IH; [done|]. simpl in Hlen. lia.
Qed.

Lemma collect_returns p y meta thr :
  length p <= length y ->
  exists preds,
    collectPredictions p y meta thr = Ok preds
    /\ length preds = length p
    /\ forall i pr, preds !! i = Some pr ->
         exists prob gt,
           p !! i = Some prob /\ y !! i = Some gt
           /\ pr = predict_row prob gt (default ∅ (meta !! i)) thr.
Proof.
  revert y meta. induction p as [|prob p IH]; intros y meta Hlen;
    cbn [collectPredictions].
  - exists []. by repeat split.
  - destruct y as [|gt y]; [simpl in Hlen; lia|].
    destruct (IH y (tail meta)) as (preds & -> & Hl & Hrows); [simpl in Hlen; lia|].
    cbn [mbind result_bind]. eexists. split; [done|]. split; [by cbn [length]; rewrite Hl|].
    intros i pr Hi. destruct i as [|i].
    + injection Hi as <-. exists prob, gt. by rewrite head_lookup.
    + cbn [lookup list_lookup] in Hi. destruct (Hrows i pr Hi) as (prob' & gt' & ? & ? & ->).
      exists prob', gt'. by rewrite lookup_tail.
Qed.

Lemma get_meta_of r f : f ∈ metaFields -> get (meta_of r) f = get r f.
Proof.
  intros Hf. unfold get at 1. rewrite meta_of_lookup. by rewrite bool_decide_true.
Qed.

Section Collect.
Variables Math_log Math_cos : float -> float.
Variable Number : string -> float.

(** X24: collecting predictions for a loaded and prepared dataset throws a
    TypeError when there are more probabilities than test rows; otherwise
    it returns one row per probability, and row [i] carries the meta fields
    and the true label of the dataset row [testIdx[i]], the probability
    rounded to six decimals, and 'Yes' as prediction exactly when the
    probability reaches the threshold. *)
Theorem exported_rows_match_dataset text dl0 cfg dl draws out dl' rest
  (p : list float) (threshold : float) :
  fromFile (Some text) dl0 = Ok dl ->
  prepareTensors Math_log Math_cos Number cfg dl draws = Ok (out, dl', rest) ->
  let y := map (fun label => default 0%Z (head label)) (yTest out) in
  (length (xTest out) < length p ->
   collectPredictions p y (testMeta out) threshold = Throw "TypeError")
  /\ (length p <= length (xTest out) ->
      exists preds,
        collectPredictions p y (testMeta out) threshold = Ok preds
        /\ length preds = length p
        /\ forall i pr, preds !! i = Some pr ->
             exists j r prob,
               testIdx (splitIdx out) !! i = Some j /\ raw dl !! j = Some r
               /\ p !! i = Some prob
               /\ EmployeeNumber pr = get r "EmployeeNumber"
               /\ JobRole pr = get r "JobRole"
               /\ OverTime pr = get r "OverTime"
               /\ YearsAtCompany pr = get r "YearsAtCompany"
               /\ MonthlyIncome pr = get r "MonthlyIncome"
               /\ Probability pr = round6 prob
               /\ Predicted pr = (if PrimFloat.leb threshold prob then "Yes" else "No")
               /\ True_ pr = (if says_yes r then "Yes" else "No")).
Proof.
  intros Hload H. cbv zeta.
  destruct (prepared_test_lengths _ _ _ _ _ _ _ _ _ H) as (Hx & Hy & Hm).
  split.
  - intros Hlen. apply collect_throws. rewrite length_map. lia.
  - intros Hlen.
    destruct (collect_returns p (map (fun label => default 0%Z (head label)) (yTest out))
                (testMeta out) threshold) as (preds & Hc & Hl & Hrows).
    { rewrite length_map. lia. }
    exists preds. split; [done|]. split; [done|]. intros i pr Hi.
    destruct (Hrows i pr Hi) as (prob & gt & Hp & Hgt & ->).
    destruct (lookup_lt_is_Some_2 (testIdx (splitIdx out)) i) as [j Hj].
    { apply lookup_lt_Some in Hp. lia. }
    destruct (prepared_test_row _ _ _ _ _ _ _ _ _ _ _ _ _ Hload H Hj)
      as (r & v & sc & Hr & _ & _ & _ & Hyi & Hmi).
    exists j, r, prob. split; [done|]. split; [done|]. split; [done|].
    rewrite Hmi. change (default ∅ (Some (meta_of r))) with (meta_of r).
    cbn [predict_row EmployeeNumber JobRole OverTime YearsAtCompany
         MonthlyIncome Probability Predicted True_].
    rewrite !get_meta_of by (apply (bool_decide_unpack _); by vm_compute).
    repeat (split; [done|]).
    rewrite list_lookup_fmap, Hyi in Hgt. injection Hgt as <-. cbn [head default].
    rewrite label_of_says_yes. by destruct (says_yes r).
Qed.

End Collect.

Lemma exported_csv_offered :
  downloadCSV Samples.as_half (Some Samples.exported) = Some Samples.exported_csv.
Proof. reflexivity. Qed.

Lemma download_reads_back_witness :
  downloadCSV Samples.as_half (Some Samples.exported) = Some Samples.exported_csv
  /\ Forall (fun r => Forall Str.one_line (cells Samples.as_half r)) Samples.exported
  /\ exists rows,
       parseCSV Samples.exported_csv = Ok (cols, rows)
       /\ length rows = length Samples.exported.
Proof.
  assert (Hplain : Forall (fun r => Forall Str.one_line (cells Samples.as_half r))
                          Samples.exported).
  { unfold Str.one_line. apply (bool_decide_unpack _). vm_compute. exact I. }
  split; [exact exported_csv_offered|]. split; [exact Hplain|].
  destruct (download_reads_back Samples.as_half Samples.exported Samples.exported_csv
              exported_csv_offered Hplain) as (rows & Hparse & Hlen & _).
  exists rows. by split.
Defined.

Lemma exported_rows_match_dataset_witness :
  fromFile (Some Samples.csv) init = Ok Samples.loaded
  /\ Samples.prepare_sample (Samples.plain 0.3) Samples.loaded []
     = Ok (Samples.out_of Samples.plain_run, Samples.state_of Samples.plain_run,
           Samples.rest_of Samples.plain_run)
  /\ length [0.90625%float] <= length (xTest (Samples.out_of Samples.plain_run))
  /\ exists preds,
       collectPredictions [0.90625%float]
         (map (fun label => default 0%Z (head label))
              (yTest (Samples.out_of Samples.plain_run)))
         (testMeta (Samples.out_of Samples.plain_run)) 0.5
       = Ok preds
       /\ length preds = 1.
Proof.
  assert (Hlen : length [0.90625%float]
                 <= length (xTest (Samples.out_of Samples.plain_run))).
  { apply (bool_decide_unpack _). vm_compute. exact I. }
  split; [exact loaded_returns|]. split; [exact plain_run_returns|]. split; [exact Hlen|].
  destruct (exported_rows_match_dataset _ _ _ _ _ _ _ _ _ _ _ [0.90625%float] 0.5
              loaded_returns plain_run_returns) as [_ Hrows].
  destruct (Hrows Hlen) as (preds & Hc & Hl & _).
  exists preds. by split.
Defined.

End ExportFacts.

(** ** The names of the features *)

Module NameFacts.
Import JS DataLoader SplitFacts AugmentFacts FeatureFacts ParseFacts EncoderFacts ExportFacts.
Local Open Scope string_scope.

Local Abbreviation chars := list_ascii_of_string.

Lemma append_inv_head (c x y : string) : c ++ x = c ++ y -> x = y.
Proof. induction c as [|a c IH]; [done|]. intros [= H]. by apply IH. Qed.

(** The column a feature name of a one-hot block starts with. *)
Lemma block_name_column c v :
  "_"%char ∉ chars c -> head (Str.split "_" (c ++ "__" ++ v)) = Some c.
Proof.
  intros Hc. change (c ++ "__" ++ v) with (c ++ String "_" ("_" ++ v)).
  by rewrite split_app.
Qed.

Lemma block_names_distinct rows cols c :
  c ∈ cols ->
  exists names,
    block_names (fitCategoricals rows cols) c = Ok names
    /\ NoDup names /\ forall n, n ∈ names -> exists v, n = c ++ "__" ++ v.
Proof.
  intros Hc. unfold block_names. rewrite (fitCategoricals_lookup rows cols c Hc).
  eexists. split; [done|]. split.
  - apply NoDup_fmap_2.
    + intros v1 v2 H. apply append_inv_head in H. by apply append_inv_head in H.
    + destruct (sort_facts rows c) as (Hnd & _).
      assert (Hp : Object_keys (fit_column rows c) ≡ₚ sort (distinct_values rows c)).
      { unfold Object_keys. rewrite fit_column_zip, fst_zip_positions.
        generalize (sort (distinct_values rows c)). intros ks.
        rewrite (fmap_Permutation snd _ _ (merge_sort_Permutation index_le _)).
        induction ks as [|k ks IH]; [done|]. cbn [omap list_omap List.filter].
        destruct (array_index k) as [n|]; cbn [fmap list_fmap snd app].
        - by rewrite IH.
        - rewrite <- Permutation_middle. by rewrite IH. }
      by rewrite Hp.
  - intros n (v & -> & _)%list_elem_of_fmap. eauto.
Qed.

(** Blocks of names that start with distinct columns have no name in
    common. *)
Lemma concat_blocks_NoDup (cols : list string) (names : list (list string)) :
  NoDup cols ->
  Forall2 (fun c ns => NoDup ns
                       /\ forall n, n ∈ ns -> head (Str.split "_" n) = Some c)
          cols names ->
  NoDup (concat names)
  /\ forall n, n ∈ concat names -> exists c, c ∈ cols /\ head (Str.split "_" n) = Some c.
Proof.
  intros Hnd HF. induction HF as [|c ns cols names [Hns Hkey] _ IH]; cbn [concat].
  - split; [constructor|]. by intros n ?%elem_of_nil.
  - apply NoDup_cons in Hnd as [Hc Hnd]. destruct (IH Hnd) as [IHnd IHkey]. split.
    + apply NoDup_app. split; [done|]. split; [|done].
      intros n Hn Hn'. destruct (IHkey n Hn') as (c' & Hc' & Hk).
      rewrite (Hkey n Hn) in Hk. injection Hk as <-. done.
    + intros n [Hn|Hn]%elem_of_app.
      * exists c. split; [left|by apply Hkey].
      * destruct (IHkey n Hn) as (c' & ? & ?). exists c'. split; [by right|done].
Qed.

Lemma fromFile_catCols_headers text dl0 dl :
  fromFile (Some text) dl0 = Ok dl ->
  catCols dl = List.filter (includes catKnown) (headers dl).
Proof.
  unfold fromFile. destruct (parseCSV text) as [[hs rows]| |]; cbn [mbind result_bind];
    try discriminate.
  destruct (negb _); [discriminate|]. by intros [= <-].
Qed.

Section Names.
Variables Math_log Math_cos : float -> float.
Variable Number : string -> float.

(** X25: when the header of the loaded file names no column twice, the
    categorical columns are pairwise distinct and so are the feature names
    a preparation returns: the base numerics, the created features and
    the [column__value] names of the one-hot blocks. *)
Theorem feature_names_distinct text dl0 cfg dl draws out dl' rest :
  fromFile (Some text) dl0 = Ok dl ->
  prepareTensors Math_log Math_cos Number cfg dl draws = Ok (out, dl', rest) ->
  NoDup (headers dl) ->
  NoDup (catCols dl) /\ NoDup (outFeatureOrder out).
Proof.
  intros Hload H Hheaders.
  assert (Hcats : NoDup (catCols dl)).
  { rewrite (fromFile_catCols_headers text dl0 dl Hload). by apply NoDup_ListNoDup, List.NoDup_filter, NoDup_ListNoDup. }
  split; [done|]. prepare_steps H as order fl X Y.
  destruct H as (_ & Horder & _ & _ & -> & _). cbn [outFeatureOrder].
  unfold featureOrder_of in Horder.
  destruct (mapM _ (catCols dl)) as [names| |] eqn:Hnames;
    cbn [mbind result_bind] in Horder; try discriminate.
  injection Horder as <-.
  assert (HF : Forall2 (fun c ns => NoDup ns
                          /\ forall n, n ∈ ns -> head (Str.split "_" n) = Some c)
                       (catCols dl) names).
  { apply mapM_Ok_Forall2 in Hnames.
    apply Forall2_same_length_lookup. split; [by eapply Forall2_length|].
    intros i c ns Hc Hns.
    pose proof (Forall2_lookup_lr _ _ _ _ _ _ Hnames Hc Hns) as Hb. cbn in Hb.
    assert (Hin : c ∈ catCols dl) by (by eapply list_elem_of_lookup_2).
    destruct (block_names_distinct (raw dl) (catCols dl) c Hin) as (ns' & Hb' & Hnd & Hv).
    rewrite Hb in Hb'. injection Hb' as <-. split; [done|].
    intros n (v & ->)%Hv. apply block_name_column.
    assert (Hknown : Forall (fun c => "_"%char ∉ chars c) catKnown)
      by (by apply (bool_decide_unpack _)).
    rewrite Forall_forall in Hknown. apply Hknown.
    by apply (fromFile_catCols text dl0 dl c Hload). }
  destruct (concat_blocks_NoDup _ _ Hcats HF) as [Hnd Hkey].
  change (NoDup ((baseNum ++ engineered) ++ concat names)%list). apply NoDup_app. split; [by apply (bool_decide_unpack _)|].
  split; [|done]. intros n Hn Hn'. destruct (Hkey n Hn') as (c & Hc & Hhead).
  assert (Hplain : Forall (fun n => forall c, c ∈ catKnown ->
                             head (Str.split "_" n) <> Some c)
                          (baseNum ++ engineered)%list).
  { apply Forall_forall. intros m Hm c' Hc'. revert m Hm.
    apply Forall_forall. revert c' Hc'. apply Forall_forall.
    by apply (bool_decide_unpack _). }
  rewrite Forall_forall in Hplain.
  apply (Hplain n Hn c); [|done]. by apply (fromFile_catCols text dl0 dl c Hload).
Qed.

End Names.

Lemma feature_names_distinct_witness :
  fromFile (Some Samples.csv) init = Ok Samples.loaded
  /\ Samples.prepare_sample (Samples.plain 0.3) Samples.loaded []
     = Ok (Samples.out_of Samples.plain_run, Samples.state_of Samples.plain_run,
           Samples.rest_of Samples.plain_run)
  /\ NoDup (headers Samples.loaded)
  /\ NoDup (outFeatureOrder (Samples.out_of Samples.plain_run)).
Proof.
  assert (Hnd : NoDup (headers Samples.loaded)).
  { apply (bool_decide_unpack _). vm_compute. exact I. }
  split; [exact loaded_returns|]. split; [exact plain_run_returns|]. split; [exact Hnd|].
  destruct (feature_names_distinct _ _ _ _ _ _ _ _ _ _ _ loaded_returns
              plain_run_returns Hnd) as [_ Hnames].
  exact Hnames.
Defined.

End NameFacts.

(** ** app.js: the request of [#prepare] *)

Module RequestFacts.
Import JS DataLoader Requests NumberFacts.

Lemma or_else_not_zero x d :
  PrimFloat.eqb d 0 = false -> PrimFloat.eqb (or_else x d) 0 = false.
Proof.
  intros Hd. unfold or_else. destruct (isNaN x); [done|]. cbn [orb].
  by destruct (PrimFloat.eqb x 0) eqn:Hx.
Qed.

(** X26: whatever stands in the input fields, [#prepare] asks the loader for
    a test fraction that is a number other than 0 (an empty, zero or
    unreadable field gives 0.2), so the loader's clamp brings it into
    [0.05, 0.9]; and it passes the state of the check box with a target
    ratio and a noise level that are numbers. *)
Theorem request_is_a_number (Number : string -> float)
  (testSplitValue : string) (augEnable : bool) (augRatio augNoise : string) :
  exists f aug,
    testSplit (prepare_config Number testSplitValue augEnable augRatio augNoise) = Some f
    /\ augment (prepare_config Number testSplitValue augEnable augRatio augNoise)
       = Some aug
    /\ isNaN f = false /\ PrimFloat.eqb f 0 = false
    /\ PrimFloat.leb 0.05 (clampSplit f) = true
    /\ PrimFloat.leb (clampSplit f) 0.9 = true
    /\ enable aug = augEnable
    /\ isNaN (targetRatio aug) = false /\ isNaN (noiseStd aug) = false.
Proof.
  eexists _, _. split; [done|]. split; [done|]. cbn [enable targetRatio noiseStd].
  assert (Hf : isNaN (or_else (PrimFloat.div (Number testSplitValue) 100) 0.2) = false)
    by (by apply or_else_not_NaN).
  split; [exact Hf|]. split; [by apply or_else_not_zero|].
  destruct (clamp_bounds _ 0.05 0.9 Hf) as [Hlo Hhi]; [done..|].
  split; [exact Hlo|]. split; [exact Hhi|]. split; [done|].
  split; by apply or_else_not_NaN.
Qed.

End RequestFacts.
